(** * A record-management utility: shallow embedding and verification

    The development follows [practical_project_4.py]: the [Record] value
    class, the formatter hierarchy, the [BusinessLayer] that owns the list of
    records, and the [PresentationLayer] that drives it from standard input.

    Python text is modelled by [string]; one [ascii] stands for one character
    (a code point below 256, which covers every literal of the program,
    including the two accented letters of the column names).  Integers are
    [Z].  Printing, prompting, reading a line, the file system and the chart
    window are effects of a small state-and-exception monad. *)

From Stdlib Require Import ZArith NArith String Ascii List Lia Bool.
From stdpp Require Import base tactics option list strings gmap pretty.

Open Scope string_scope.
Open Scope Z_scope.

(** ** Characters *)

Definition LF : ascii := "010"%char.
Definition CR : ascii := "013"%char.
Definition TAB : ascii := "009"%char.
Definition comma : ascii := ","%char.
Definition dquote : ascii := "034"%char.
Definition squote : ascii := "'"%char.
Definition backslash : ascii := "\"%char.

Definition code (c : ascii) : N := N_of_ascii c.

Fixpoint contains (c : ascii) (s : string) : bool :=
  match s with
  | EmptyString => false
  | String a t => if Ascii.eqb a c then true else contains c t
  end.

(** ** Python values held by a record attribute

    An attribute of a [Record] is whatever the constructor was given.  The
    program only ever passes text (from [input] or from a CSV cell) or
    [None] (the value [csv.DictReader] supplies for a cell that a short row
    lacks). *)

Inductive value : Type :=
| Str (s : string)
| PyNone.

Global Instance value_eq_dec : EqDecision value.
Proof. solve_decision. Defined.

(** [str(v)], which is also what an f-string interpolates. *)
Definition str (v : value) : string :=
  match v with
  | Str s => s
  | PyNone => "None"
  end.

(** ** class Record *)

Record Record : Type := mkRecord {
  source : value;
  latin_name : value;
  english_name : value;
  french_name : value;
  year : value;
  month : value;
  number_otoliths : value
}.

Global Instance Record_eq_dec : EqDecision Record.
Proof. solve_decision. Defined.

(** The seven attributes in declaration order. *)
Definition attributes (r : Record) : list value :=
  [source r; latin_name r; english_name r; french_name r;
   year r; month r; number_otoliths r].

(** ** Exceptions *)

Inductive exn : Type :=
| FileNotFoundError (path : string)
| OSError (message : string)
| KeyError (key : string)
| csv_Error (message : string)
| AttributeError (attr : string)
| NotImplementedError (message : string)
| ValueError (message : string)
| IndexError (message : string)
| TypeError (message : string)
| EOFError.

Definition hex_digit (n : N) : ascii :=
  ascii_of_N (if (n <? 10)%N then 48 + n else 87 + n)%N.

(** [repr] of one character inside a literal delimited by [q]. *)
Definition repr_char (q c : ascii) : string :=
  if Ascii.eqb c backslash then "\\"
  else if Ascii.eqb c q then String backslash (String c "")
  else if Ascii.eqb c LF then "\n"
  else if Ascii.eqb c CR then "\r"
  else if Ascii.eqb c TAB then "\t"
  else if ((code c <? 32) || ((127 <=? code c) && (code c <=? 160))
           || (code c =? 173))%N
  then String backslash
         (String "x" (String (hex_digit (code c / 16))
                        (String (hex_digit (code c mod 16)) "")))
  else String c "".

Fixpoint repr_body (q : ascii) (s : string) : string :=
  match s with
  | EmptyString => ""
  | String c t => repr_char q c +:+ repr_body q t
  end.

(** [repr(s)] for a string: single quotes unless the text has a single quote
    and no double quote. *)
Definition repr (s : string) : string :=
  let q := if contains squote s && negb (contains dquote s)
           then dquote else squote in
  String q (repr_body q s +:+ String q "").

(** [str(e)] as an [except ... as e] handler prints it. *)
Definition str_exn (e : exn) : string :=
  match e with
  | FileNotFoundError p =>
      "[Errno 2] No such file or directory: " +:+ repr p
  | OSError m => m
  | KeyError k => repr k
  | csv_Error m => m
  | AttributeError a => "'Record' object has no attribute '" +:+ a +:+ "'"
  | NotImplementedError m => m
  | ValueError m => m
  | IndexError m => m
  | TypeError m => m
  | EOFError => "EOF when reading a line"
  end.

(** ** Formatters

    [RecordFormatter] is the superclass whose [format_record] raises;
    [DefaultRecordFormatter] overrides it.  A formatter is any type with a
    [format_record] method. *)

Class Formatter (F : Type) : Type :=
  format_record : F -> Record -> exn + string.

Inductive RecordFormatter : Type := RecordFormatter_new.

Global Instance RecordFormatter_format : Formatter RecordFormatter :=
  fun _ _ =>
    inl (NotImplementedError "Subclasses must implement format_record method").

Inductive DefaultRecordFormatter : Type := DefaultRecordFormatter_new.

Global Instance DefaultRecordFormatter_format :
  Formatter DefaultRecordFormatter :=
  fun _ record =>
    inr ("Source: " +:+ str (source record)
         +:+ ", Latin Name: " +:+ str (latin_name record)
         +:+ ", English Name: " +:+ str (english_name record)
         +:+ ", " +:+ "French Name: " +:+ str (french_name record)
         +:+ ", Year: " +:+ str (year record)
         +:+ ", Month: " +:+ str (month record)
         +:+ ", " +:+ "Number of Otoliths: " +:+ str (number_otoliths record)).

(** ** The environment

    What the program writes to the terminal is a trace of events; a bar chart
    shown by the plotting library is one event carrying what was plotted. *)

Record chart : Type := mkChart {
  bar_x : list value;
  bar_height : list nat;
  xlabel : string;
  ylabel : string;
  title : string
}.

Inductive event : Type :=
| Print (line : string)
| Prompt (text : string)
| Show (c : chart).

(** [files] holds the text files by path, each as the text its bytes
    decode to (a file that is not valid UTF-8 is outside the model).
    [os_error] names the paths the operating system refuses to open at all
    (a directory, a path without permission, the empty path) together with
    the error raised.  [stdin] is the lines still to be read.

    Two more fields stand for what the interpreter and the plotting library
    decide, not the program.  [other_attribute record name] is the answer
    of [getattr] for a name that begins with two underscores: such a name
    can be an attribute every Python object has ([__doc__], [__module__],
    [__class__], the methods of [object]), and whether it exists and what it
    holds depends on the interpreter; an answer that is neither text nor
    [None] is outside the model.  [pyplot_error c] is the exception the
    plotting calls raise for the chart [c], if any: matplotlib refuses a
    category that is [None] with a [TypeError], and can refuse text it
    cannot draw. *)
Record World : Type := mkWorld {
  files : gmap string string;
  os_error : string -> option exn;
  other_attribute : Record -> string -> exn + value;
  pyplot_error : chart -> option exn;
  stdin : list string;
  stdout : list event
}.

(** The state a method runs in: the object it is called on and the world. *)
Record State (O : Type) : Type := mkState {
  this : O;
  world : World
}.
Arguments mkState {O} _ _.
Arguments this {O} _.
Arguments world {O} _.

(** ** A state-and-exception monad *)

Definition M (O A : Type) : Type := State O -> (exn + A) * State O.

Definition ret {O A} (a : A) : M O A := fun s => (inr a, s).

Definition bind {O A B} (m : M O A) (k : A -> M O B) : M O B :=
  fun s =>
    let (r, s') := m s in
    match r with
    | inr a => k a s'
    | inl e => (inl e, s')
    end.

Definition raise {O A} (e : exn) : M O A := fun s => (inl e, s).

(** [try: body except Exception as e: handler e] *)
Definition try_except {O A} (body : M O A) (handler : exn -> M O A) : M O A :=
  fun s =>
    let (r, s') := body s in
    match r with
    | inr a => (inr a, s')
    | inl e => handler e s'
    end.

Declare Scope py_scope.
Delimit Scope py_scope with py.
Notation "x <- m ;; k" := (bind m (fun x => k))
  (at level 100, m at next level, right associativity) : py_scope.
Notation "m ;; k" := (bind m (fun _ => k))
  (at level 100, right associativity) : py_scope.
Open Scope py_scope.

Definition get_self {O} : M O O := fun s => (inr (this s), s).

Definition set_self {O} (o : O) : M O unit :=
  fun s => (inr tt, mkState o (world s)).

Definition lift_result {O A} (r : exn + A) : M O A := fun s => (r, s).

Definition emit (e : event) (w : World) : World :=
  mkWorld (files w) (os_error w) (other_attribute w) (pyplot_error w)
    (stdin w) (stdout w ++ [e]).

Definition print {O} (line : string) : M O unit :=
  fun s => (inr tt, mkState (this s) (emit (Print line) (world s))).

(** [input(prompt)]: writes the prompt and reads one line; end of input
    raises [EOFError]. *)
Definition input {O} (prompt : string) : M O string :=
  fun s =>
    let w := emit (Prompt prompt) (world s) in
    match stdin w with
    | [] => (inl EOFError, mkState (this s) w)
    | line :: rest =>
        (inr line,
         mkState (this s)
           (mkWorld (files w) (os_error w) (other_attribute w)
              (pyplot_error w) rest (stdout w)))
    end.

(** ** Python list indexing

    A negative index counts from the end; an index outside the list raises
    [IndexError], which the program's own range tests never let happen. *)

Definition len {A} (l : list A) : Z := Z.of_nat (length l).

Definition normalise {A} (l : list A) (i : Z) : option nat :=
  let j := if i <? 0 then i + len l else i in
  if (0 <=? j) && (j <? len l) then Some (Z.to_nat j) else None.

Definition getitem {A} (l : list A) (i : Z) : exn + A :=
  match normalise l i with
  | Some n =>
      match l !! n with
      | Some x => inr x
      | None => inl (IndexError "list index out of range")
      end
  | None => inl (IndexError "list index out of range")
  end.

Definition setitem {A} (l : list A) (i : Z) (x : A) : exn + list A :=
  match normalise l i with
  | Some n => inr (<[n := x]> l)
  | None => inl (IndexError "list assignment index out of range")
  end.

Definition delitem {A} (l : list A) (i : Z) : exn + list A :=
  match normalise l i with
  | Some n => inr (delete n l)
  | None => inl (IndexError "list assignment index out of range")
  end.

(** ** class BusinessLayer (in-memory operations) *)

Record BusinessLayer (F : Type) : Type := mkBusinessLayer {
  filename : string;
  records : list Record;
  formatter : F
}.
Arguments mkBusinessLayer {F} _ _ _.
Arguments filename {F} _.
Arguments records {F} _.
Arguments formatter {F} _.

Definition set_records {F} (rs : list Record) : M (BusinessLayer F) unit :=
  self <- get_self ;;
  set_self (mkBusinessLayer (filename self) rs (formatter self)).

Definition display_record {F} `{Formatter F} (index : Z)
  : M (BusinessLayer F) unit :=
  self <- get_self ;;
  if (0 <=? index) && (index <? len (records self)) then
    record <- lift_result (getitem (records self) index) ;;
    formatted_record <- lift_result (format_record (formatter self) record) ;;
    print formatted_record
  else
    print "Invalid record index.".

Definition add_record {F} (record : Record) : M (BusinessLayer F) unit :=
  self <- get_self ;;
  set_records (records self ++ [record]) ;;
  print "Record added successfully.".

Definition edit_record {F} (index : Z) (new_record : Record)
  : M (BusinessLayer F) unit :=
  self <- get_self ;;
  if (0 <=? index) && (index <? len (records self)) then
    rs <- lift_result (setitem (records self) index new_record) ;;
    set_records rs ;;
    print "Record edited successfully."
  else
    print "Invalid record index.".

Definition delete_record {F} (index : Z) : M (BusinessLayer F) unit :=
  self <- get_self ;;
  if (0 <=? index) && (index <? len (records self)) then
    rs <- lift_result (delitem (records self) index) ;;
    set_records rs ;;
    print "Record deleted successfully."
  else
    print "Invalid record index.".

Fixpoint for_each {O A} (l : list A) (body : A -> M O unit) : M O unit :=
  match l with
  | [] => ret tt
  | x :: rest => body x ;; for_each rest body
  end.

(** [enumerate(l)] *)
Fixpoint enumerate_from {A} (start : Z) (l : list A) : list (Z * A) :=
  match l with
  | [] => []
  | x :: rest => (start, x) :: enumerate_from (start + 1) rest
  end.

Definition enumerate {A} (l : list A) : list (Z * A) := enumerate_from 0 l.

Definition display_records {F} `{Formatter F} : M (BusinessLayer F) unit :=
  self <- get_self ;;
  for_each (enumerate (records self)) (fun '(index, record) =>
    print ("Record " +:+ pretty (index + 1)) ;;
    display_record index ;;
    if (index + 1) mod 10 =? 0 then print "Program by Ben Nguyen"
    else ret tt).

(** ** Counting for the bar chart *)

(** The names the interpreter itself may answer: every attribute of an
    object that the program did not set begins with two underscores. *)
Definition is_special (name : string) : bool := String.prefix "__" name.

(** [getattr(record, name)]: the seven data attributes; a name that begins
    with two underscores is answered by the interpreter, [other]; any other
    name is answered with [AttributeError]. *)
Definition getattr (other : Record -> string -> exn + value)
  (record : Record) (name : string) : exn + value :=
  if String.eqb name "source" then inr (source record)
  else if String.eqb name "latin_name" then inr (latin_name record)
  else if String.eqb name "english_name" then inr (english_name record)
  else if String.eqb name "french_name" then inr (french_name record)
  else if String.eqb name "year" then inr (year record)
  else if String.eqb name "month" then inr (month record)
  else if String.eqb name "number_otoliths" then inr (number_otoliths record)
  else if is_special name then other record name
  else inl (AttributeError name).

(** [c[v] = c.get(v, 0) + 1] on a dictionary kept in insertion order. *)
Fixpoint counter_incr (v : value) (c : list (value * nat))
  : list (value * nat) :=
  match c with
  | [] => [(v, 1%nat)]
  | (k, n) :: rest =>
      if decide (k = v) then (k, S n) :: rest
      else (k, n) :: counter_incr v rest
  end.

(** [collections.Counter(iterable)] *)
Definition Counter (iterable : list value) : list (value * nat) :=
  fold_left (fun c v => counter_incr v c) iterable [].

(** [c.get(v)] *)
Fixpoint counter_get (c : list (value * nat)) (v : value) : option nat :=
  match c with
  | [] => None
  | (k, n) :: rest => if decide (k = v) then Some n else counter_get rest v
  end.

Definition lower_char (c : ascii) : ascii :=
  let n := code c in
  if ((65 <=? n) && (n <=? 90)
      || (192 <=? n) && (n <=? 222) && negb (n =? 215))%N
  then ascii_of_N (n + 32) else c.

(** [s.lower()] *)
Fixpoint lower (s : string) : string :=
  match s with
  | EmptyString => EmptyString
  | String c t => String (lower_char c) (lower t)
  end.

Definition column_display_names : list (string * string) :=
  [("source", "Source");
   ("latin_name", "Latin Name");
   ("english_name", "English Name");
   ("french_name", "French Name");
   ("year", "Year");
   ("month", "Month");
   ("number_otoliths", "Number of Otoliths")].

(** [d.get(key, default)] *)
Fixpoint dict_get (d : list (string * string)) (key default : string)
  : string :=
  match d with
  | [] => default
  | (k, v) :: rest => if String.eqb k key then v else dict_get rest key default
  end.

Fixpoint collect {A B} (f : A -> exn + B) (l : list A) : exn + list B :=
  match l with
  | [] => inr []
  | x :: rest =>
      match f x with
      | inl e => inl e
      | inr y =>
          match collect f rest with
          | inl e => inl e
          | inr ys => inr (y :: ys)
          end
      end
  end.

(** A step whose result depends on the world and leaves it as it is. *)
Definition in_world {O A} (f : World -> exn + A) : M O A :=
  fun s => (f (world s), s).

(** The calls into the plotting library, from [plt.figure] to [plt.show]:
    the exception the library raises for this chart, or else one [Show]
    event. *)
Definition show {O} (c : chart) : M O unit :=
  fun s =>
    match pyplot_error (world s) c with
    | Some e => (inl e, s)
    | None => (inr tt, mkState (this s) (emit (Show c) (world s)))
    end.

(** [column_display_names.get(x_column.lower(), x_column)] *)
Definition x_label_of (x_column : string) : string :=
  dict_get column_display_names (lower x_column) x_column.

(** What is handed to the plotting calls: the keys of the counter, its
    counts, and the labels. *)
Definition chart_of (x_column : string) (x_values : list value) : chart :=
  let x_counts := Counter x_values in
  let unique_x_values := map fst x_counts in
  let y_values := map snd x_counts in
  let x_label := x_label_of x_column in
  mkChart unique_x_values y_values x_label "Count" ("Count of " +:+ x_label).

Definition generate_bar_chart {F} : M (BusinessLayer F) unit :=
  try_except
    (x_column <- input "Enter the column name for the x-axis (e.g., 'source', 'latin_name', 'english_name', 'french_name', 'year', 'month', 'number_otoliths'): " ;;
     self <- get_self ;;
     x_values <- in_world (fun w =>
       collect (fun record => getattr (other_attribute w) record x_column)
         (records self)) ;;
     show (chart_of x_column x_values))
    (fun e =>
       print ("An error occurred while generating the bar chart: "
              +:+ str_exn e)).

(** What [generate_bar_chart] writes once a chart is handed to the plotting
    calls: the chart when the library draws it, the report of the library's
    exception otherwise. *)
Definition chart_outcome (w : World) (c : chart) : event :=
  match pyplot_error w c with
  | None => Show c
  | Some e =>
      Print ("An error occurred while generating the bar chart: "
             +:+ str_exn e)
  end.

(** ** The csv module, default (excel) dialect

    delimiter [,], quotechar the double quote, doublequote on, no escapechar,
    skipinitialspace off, lineterminator CR LF, quoting minimal, not strict.
    The parser and the writer follow the C implementation of CPython 3.11
    and later, where a NUL character is an ordinary character. *)

Module csv.

Definition field_limit : N := 131072.

Inductive ParserState : Type :=
| START_RECORD
| START_FIELD
| IN_FIELD
| IN_QUOTED_FIELD
| QUOTE_IN_QUOTED_FIELD
| EAT_CRNL.

(** The parser of a reader object.  [field] is the buffer of the field being
    read, latest character first, and [field_len] its length. *)
Record ReaderObj : Type := mkReader {
  state : ParserState;
  fields : list string;
  field : list ascii;
  field_len : N
}.

Definition parse_reset : ReaderObj := mkReader START_RECORD [] [] 0.

Definition set_state (st : ParserState) (self : ReaderObj) : ReaderObj :=
  mkReader st (fields self) (field self) (field_len self).

Definition string_of_rev (buf : list ascii) : string :=
  fold_left (fun s c => String c s) buf EmptyString.

Definition parse_save_field (self : ReaderObj) : ReaderObj :=
  mkReader (state self) (fields self ++ [string_of_rev (field self)]) [] 0.

Definition parse_add_char (self : ReaderObj) (c : ascii) : exn + ReaderObj :=
  if (field_limit <=? field_len self)%N then
    inl (csv_Error "field larger than field limit (131072)")
  else
    inr (mkReader (state self) (fields self) (c :: field self)
           (field_len self + 1)).

Definition is_newline (c : ascii) : bool := Ascii.eqb c LF || Ascii.eqb c CR.

(** End of a record: [EOL] (here [None]) returns to [START_RECORD], a
    newline character goes on to [EAT_CRNL]. *)
Definition after_record (c : option ascii) : ParserState :=
  match c with None => START_RECORD | Some _ => EAT_CRNL end.

Definition is_end_of_line (c : option ascii) : bool :=
  match c with None => true | Some ch => is_newline ch end.

Definition in_START_FIELD (self : ReaderObj) (c : option ascii)
  : exn + ReaderObj :=
  if is_end_of_line c then
    inr (set_state (after_record c) (parse_save_field self))
  else if bool_decide (c = Some dquote) then
    inr (set_state IN_QUOTED_FIELD self)
  else if bool_decide (c = Some comma) then
    inr (parse_save_field self)
  else
    match c with
    | Some ch =>
        match parse_add_char self ch with
        | inl e => inl e
        | inr self' => inr (set_state IN_FIELD self')
        end
    | None => inr self
    end.

(** [parse_process_char]; [c = None] is the end-of-line marker the reader
    feeds after the characters of each line. *)
Definition parse_process_char (self : ReaderObj) (c : option ascii)
  : exn + ReaderObj :=
  match state self with
  | START_RECORD =>
      match c with
      | None => inr self
      | Some ch =>
          if is_newline ch then inr (set_state EAT_CRNL self)
          else in_START_FIELD (set_state START_FIELD self) c
      end
  | START_FIELD => in_START_FIELD self c
  | IN_FIELD =>
      if is_end_of_line c then
        inr (set_state (after_record c) (parse_save_field self))
      else if bool_decide (c = Some comma) then
        inr (set_state START_FIELD (parse_save_field self))
      else
        match c with
        | Some ch => parse_add_char self ch
        | None => inr self
        end
  | IN_QUOTED_FIELD =>
      match c with
      | None => inr self
      | Some ch =>
          if Ascii.eqb ch dquote then inr (set_state QUOTE_IN_QUOTED_FIELD self)
          else parse_add_char self ch
      end
  | QUOTE_IN_QUOTED_FIELD =>
      if bool_decide (c = Some dquote) then
        match parse_add_char self dquote with
        | inl e => inl e
        | inr self' => inr (set_state IN_QUOTED_FIELD self')
        end
      else if bool_decide (c = Some comma) then
        inr (set_state START_FIELD (parse_save_field self))
      else if is_end_of_line c then
        inr (set_state (after_record c) (parse_save_field self))
      else
        match c with
        | Some ch =>
            match parse_add_char self ch with
            | inl e => inl e
            | inr self' => inr (set_state IN_FIELD self')
            end
        | None => inr self
        end
  | EAT_CRNL =>
      match c with
      | None => inr (set_state START_RECORD self)
      | Some ch =>
          if is_newline ch then inr self
          else inl (csv_Error "new-line character seen in unquoted field - do you need to open the file with newline=''?")
      end
  end.

(** The characters of one line, in order. *)
Fixpoint process_line (self : ReaderObj) (line : string) : exn + ReaderObj :=
  match line with
  | EmptyString => inr self
  | String c rest =>
      match parse_process_char self (Some c) with
      | inl e => inl e
      | inr self' => process_line self' rest
      end
  end.

Definition feed_line (self : ReaderObj) (line : string) : exn + ReaderObj :=
  match process_line self line with
  | inl e => inl e
  | inr self' => parse_process_char self' None
  end.

Definition is_START_RECORD (st : ParserState) : bool :=
  match st with START_RECORD => true | _ => false end.

Definition is_IN_QUOTED_FIELD (st : ParserState) : bool :=
  match st with IN_QUOTED_FIELD => true | _ => false end.

Definition cons_row {A E} (row : A) (r : list A * option E)
  : list A * option E :=
  (row :: fst r, snd r).

(** Iterating a reader over the lines of a file: the rows it yields, and the
    error that ends the iteration if one is raised.  [self] is the parser
    inside the current call of [__next__]: lines are fed until the parser is
    back in [START_RECORD], the row is yielded, and the next call starts from
    [parse_reset].  When the lines run out inside a record, what was read is
    yielded if a field is in progress or a quote is open. *)
Fixpoint reader_rows (self : ReaderObj) (input_iter : list string)
  : list (list string) * option exn :=
  match input_iter with
  | [] =>
      if negb (field_len self =? 0)%N || is_IN_QUOTED_FIELD (state self)
      then ([fields (parse_save_field self)], None)
      else ([], None)
  | lineobj :: rest =>
      match feed_line self lineobj with
      | inl e => ([], Some e)
      | inr self' =>
          if is_START_RECORD (state self')
          then cons_row (fields self') (reader_rows parse_reset rest)
          else reader_rows self' rest
      end
  end.

(** [csv.reader(file)] iterated to the end. *)
Definition reader (file : list string) : list (list string) * option exn :=
  reader_rows parse_reset file.

(** [dict(zip(fieldnames, row))], then [restval] ([None]) for the columns a
    short row lacks.  Later duplicates of a column name win.  The cells a
    long row has beyond the header go under the key [None], which no lookup
    of the program reads; that entry is left out. *)
Definition to_dict (fieldnames row : list string) : gmap string value :=
  let d := fold_left (fun d kv => <[kv.1 := Str kv.2]> d)
             (zip fieldnames row) (∅ : gmap string value) in
  fold_left (fun d key => <[key := PyNone]> d)
    (drop (length row) fieldnames) d.

Definition nonempty_row (row : list string) : bool :=
  match row with [] => false | _ => true end.

(** [csv.DictReader(file)] iterated to the end: the first row gives the
    field names, empty rows are skipped. *)
Definition DictReader (file : list string)
  : list (gmap string value) * option exn :=
  let (rows, err) := reader file in
  match rows with
  | [] => ([], err)
  | fieldnames :: rest =>
      (map (to_dict fieldnames) (filter (fun r => nonempty_row r = true) rest),
       err)
  end.

(** *** The writer *)

Definition needs_quoting (c : ascii) : bool :=
  Ascii.eqb c comma || Ascii.eqb c dquote || Ascii.eqb c LF || Ascii.eqb c CR.

Fixpoint any_char (p : ascii -> bool) (s : string) : bool :=
  match s with
  | EmptyString => false
  | String c t => p c || any_char p t
  end.

(** The characters of a field with every quote doubled. *)
Fixpoint join_append_data (field : string) : string :=
  match field with
  | EmptyString => EmptyString
  | String c t =>
      if Ascii.eqb c dquote then String dquote (String dquote (join_append_data t))
      else String c (join_append_data t)
  end.

Definition join_append (field : string) : string :=
  if any_char needs_quoting field
  then String dquote (join_append_data field +:+ String dquote EmptyString)
  else field.

(** The text of a cell: a string as it is, [None] as nothing. *)
Definition cell_text (v : value) : string :=
  match v with Str s => s | PyNone => EmptyString end.

Fixpoint join_fields (cells : list string) : string :=
  match cells with
  | [] => EmptyString
  | [c] => c
  | c :: rest => c +:+ String comma (join_fields rest)
  end.

Definition lineterminator : string := String CR (String LF EmptyString).

(** [writer.writerow(row)]: the line handed to the file's [write].  A row
    of one empty field is written as a pair of quotes. *)
Definition writerow (row : list value) : string :=
  let rec := join_fields (map (fun v => join_append (cell_text v)) row) in
  let rec' :=
    if negb (Nat.eqb (length row) 0) && String.eqb rec EmptyString
    then String dquote (String dquote EmptyString) else rec in
  rec' +:+ lineterminator.

End csv.

(** ** Text files *)

(** Reading in text mode with the default [newline=None]: CR LF and a lone CR
    both arrive as LF. *)
Fixpoint universal_newlines (s : string) : string :=
  match s with
  | EmptyString => EmptyString
  | String c t =>
      if Ascii.eqb c CR then
        match t with
        | String c' t' =>
            if Ascii.eqb c' LF then String LF (universal_newlines t')
            else String LF (universal_newlines t)
        | EmptyString => String LF EmptyString
        end
      else String c (universal_newlines t)
  end.

(** Iterating a text file: its lines, each with its LF, the last one
    possibly without. *)
Fixpoint readlines (s : string) : list string :=
  match s with
  | EmptyString => []
  | String c t =>
      if Ascii.eqb c LF then String c EmptyString :: readlines t
      else
        match readlines t with
        | [] => [String c EmptyString]
        | line :: rest => String c line :: rest
        end
  end.

Definition update_files (f : gmap string string -> gmap string string)
  (w : World) : World :=
  mkWorld (f (files w)) (os_error w) (other_attribute w) (pyplot_error w)
    (stdin w) (stdout w).

(** [open(path, 'r', encoding='utf-8')] and iterating it: the lines of the
    file as text mode delivers them. *)
Definition open_r {O} (path : string) : M O (list string) :=
  fun s =>
    match os_error (world s) path with
    | Some e => (inl e, s)
    | None =>
        match files (world s) !! path with
        | None => (inl (FileNotFoundError path), s)
        | Some text => (inr (readlines (universal_newlines text)), s)
        end
    end.

(** [open(path, 'w', newline='', encoding='utf-8')]: the file is created or
    emptied; what is written reaches it unchanged. *)
Definition open_w {O} (path : string) : M O string :=
  fun s =>
    match os_error (world s) path with
    | Some e => (inl e, s)
    | None =>
        (inr path,
         mkState (this s)
           (update_files (fun fs => <[path := EmptyString]> fs) (world s)))
    end.

Definition write {O} (file : string) (text : string) : M O unit :=
  fun s =>
    (inr tt,
     mkState (this s)
       (update_files
          (fun fs => <[file := default EmptyString (fs !! file) +:+ text]> fs)
          (world s))).

(** ** class BusinessLayer (files) *)

(** The two accented letters of the column names. *)
Definition c_cedilla : ascii := "231"%char.
Definition e_acute : ascii := "233"%char.

Definition col_source : string := "source".
Definition col_latin_name : string := "latin.name_nom.latin".
Definition col_english_name : string := "english.name_nom.anglais".
Definition col_french_name : string :=
  "french.name_nom.fran" +:+ String c_cedilla "ais".
Definition col_year : string := "year_ann" +:+ String e_acute "e".
Definition col_month : string := "month_mois".
Definition col_number_otoliths : string := "number.otoliths_nombre.otolithes".

Definition header : list string :=
  [col_source; col_latin_name; col_english_name; col_french_name;
   col_year; col_month; col_number_otoliths].

(** [row[key]] *)
Definition row_getitem (row : gmap string value) (key : string)
  : exn + value :=
  match row !! key with
  | Some v => inr v
  | None => inl (KeyError key)
  end.

(** [Record(row['source'], ...)], the lookups in argument order. *)
Definition record_of_row (row : gmap string value) : exn + Record :=
  match row_getitem row col_source with inl e => inl e | inr a1 =>
  match row_getitem row col_latin_name with inl e => inl e | inr a2 =>
  match row_getitem row col_english_name with inl e => inl e | inr a3 =>
  match row_getitem row col_french_name with inl e => inl e | inr a4 =>
  match row_getitem row col_year with inl e => inl e | inr a5 =>
  match row_getitem row col_month with inl e => inl e | inr a6 =>
  match row_getitem row col_number_otoliths with inl e => inl e | inr a7 =>
  inr (mkRecord a1 a2 a3 a4 a5 a6 a7)
  end end end end end end end.

Definition append_record {F} (record : Record) : M (BusinessLayer F) unit :=
  self <- get_self ;;
  set_records (records self ++ [record]).

Definition load_records {F} : M (BusinessLayer F) unit :=
  try_except
    (self <- get_self ;;
     file <- open_r (filename self) ;;
     let reader := csv.DictReader file in
     for_each (fst reader) (fun row =>
       record <- lift_result (record_of_row row) ;;
       append_record record) ;;
     match snd reader with
     | Some e => raise e
     | None => ret tt
     end)
    (fun e =>
       match e with
       | FileNotFoundError _ => print "Error: File not found."
       | _ => print ("An error occurred: " +:+ str_exn e)
       end).

Definition save_records {F} (filename : string) : M (BusinessLayer F) unit :=
  try_except
    (file <- open_w filename ;;
     write file (csv.writerow (map Str header)) ;;
     self <- get_self ;;
     for_each (records self) (fun record =>
       write file (csv.writerow (attributes record))) ;;
     print "Records saved successfully")
    (fun e =>
       print ("An error occurred while saving records: " +:+ str_exn e)).

(** [BusinessLayer(filename, formatter)]: the constructor starts from an
    empty list and loads. *)
Definition BusinessLayer_init {F} (filename : string) (formatter : F)
  (w : World) : (exn + unit) * State (BusinessLayer F) :=
  load_records (mkState (mkBusinessLayer filename [] formatter) w).

(** ** int(text)

    Surrounding white space, an optional sign, decimal digits with single
    underscores between them.  The digits are scanned first; more than 4300
    of them are refused before what follows them is looked at.  The message
    for a text that is no number shows at most 200 characters of its
    [repr]. *)

Definition is_space (c : ascii) : bool :=
  let n := code c in
  ((9 <=? n) && (n <=? 13) || (n =? 32) || (n =? 133) || (n =? 160))%N.

Definition is_digit (c : ascii) : bool :=
  ((48 <=? code c) && (code c <=? 57))%N.

Definition underscore : ascii := "_"%char.

Fixpoint lstrip (s : string) : string :=
  match s with
  | EmptyString => EmptyString
  | String c t => if is_space c then lstrip t else s
  end.

Fixpoint all_space (s : string) : bool :=
  match s with
  | EmptyString => true
  | String c t => is_space c && all_space t
  end.

(** Scans digits and underscores; [prev] tells whether the previous
    character was an underscore.  Returns the value, the number of digits and
    what follows, or [None] for a doubled or trailing underscore. *)
Fixpoint scan_digits (prev : bool) (acc : Z) (digits : N) (s : string)
  : option (Z * N * string) :=
  match s with
  | EmptyString => if prev then None else Some (acc, digits, s)
  | String c t =>
      if is_digit c then
        scan_digits false (10 * acc + Z.of_N (code c - 48)) (digits + 1) t
      else if Ascii.eqb c underscore then
        if prev then None else scan_digits true acc digits t
      else if prev then None else Some (acc, digits, s)
  end.

Definition max_str_digits : N := 4300.

Definition int (text : string) : exn + Z :=
  let invalid :=
    ValueError ("invalid literal for int() with base 10: "
                +:+ String.substring 0 200 (repr text)) in
  let s := lstrip text in
  let '(sign, s) :=
    match s with
    | String "+" t => (1, t)
    | String "-" t => (-1, t)
    | _ => (1, s)
    end in
  match s with
  | EmptyString => inl invalid
  | String c _ =>
      if Ascii.eqb c underscore then inl invalid
      else
        match scan_digits false 0 0 s with
        | None => inl invalid
        | Some (n, digits, rest) =>
            if (digits =? 0)%N then inl invalid
            else if (max_str_digits <? digits)%N then
              inl (ValueError
                     ("Exceeds the limit (4300 digits) for integer string conversion: value has "
                      +:+ pretty digits
                      +:+ " digits; use sys.set_int_max_str_digits() to increase the limit"))
            else if negb (all_space rest) then inl invalid
            else inr (sign * n)
        end
  end.

(** ** class PresentationLayer *)

Record PresentationLayer (F : Type) : Type := mkPresentationLayer {
  business_layer : BusinessLayer F;
  full_name : string
}.
Arguments mkPresentationLayer {F} _ _.
Arguments business_layer {F} _.
Arguments full_name {F} _.

Definition PresentationLayer_init {F} (business_layer : BusinessLayer F)
  : PresentationLayer F :=
  mkPresentationLayer business_layer "Ben Nguyen".

(** A call of a method of [self.business_layer]. *)
Definition on_business_layer {F A} (m : M (BusinessLayer F) A)
  : M (PresentationLayer F) A :=
  fun s =>
    let (r, s') := m (mkState (business_layer (this s)) (world s)) in
    (r, mkState (mkPresentationLayer (this s') (full_name (this s)))
          (world s')).

Definition display_menu {O} : M O unit :=
  print "Menu:" ;;
  print "1. Reload data from dataset" ;;
  print "2. Display all records" ;;
  print "3. Add a new record" ;;
  print "4. Select, display, and edit a record" ;;
  print "5. Delete a record" ;;
  print "6. Generate vertical bar chart" ;;
  print "7. Exit".

Definition create_record {O} : M O Record :=
  source <- input "Enter Source: " ;;
  latin_name <- input "Enter Latin Name: " ;;
  english_name <- input "Enter English Name: " ;;
  french_name <- input "Enter French Name: " ;;
  year <- input "Enter Year: " ;;
  month <- input "Enter Month: " ;;
  number_otoliths <- input "Enter Number of Otoliths: " ;;
  ret (mkRecord (Str source) (Str latin_name) (Str english_name)
         (Str french_name) (Str year) (Str month) (Str number_otoliths)).

Definition select_display_edit_record {F} `{Formatter F}
  : M (PresentationLayer F) unit :=
  text <- input "Enter record index to select: " ;;
  n <- lift_result (int text) ;;
  let index := n - 1 in
  self <- get_self ;;
  if (0 <=? index) && (index <? len (records (business_layer self))) then
    on_business_layer (display_record index) ;;
    choice <- input "Do you want to edit this record? (yes/no): " ;;
    if String.eqb (lower choice) "yes" then
      new_record <- create_record ;;
      on_business_layer (edit_record index new_record)
    else ret tt
  else
    print "Invalid record index.".

Definition PresentationLayer_delete_record {F}
  : M (PresentationLayer F) unit :=
  text <- input "Enter record index to delete: " ;;
  n <- lift_result (int text) ;;
  let index := n - 1 in
  on_business_layer (delete_record index).

Inductive control : Type := Continue | Break.

(** One turn of the [while True] loop of [start]. *)
Definition start_turn {F} `{Formatter F} : M (PresentationLayer F) control :=
  self <- get_self ;;
  print ("Full Name: " +:+ full_name self) ;;
  display_menu ;;
  choice <- input "Enter your choice: " ;;
  if String.eqb choice "1" then
    on_business_layer load_records ;; ret Continue
  else if String.eqb choice "2" then
    on_business_layer display_records ;; ret Continue
  else if String.eqb choice "3" then
    record <- create_record ;;
    on_business_layer (add_record record) ;; ret Continue
  else if String.eqb choice "4" then
    select_display_edit_record ;; ret Continue
  else if String.eqb choice "5" then
    PresentationLayer_delete_record ;; ret Continue
  else if String.eqb choice "6" then
    on_business_layer generate_bar_chart ;; ret Continue
  else if String.eqb choice "7" then
    ret Break
  else
    print "Invalid choice. Please try again." ;; ret Continue.

(** [start]: the loop runs for at most [fuel] turns; [None] means the turns
    ran out before the loop ended. *)
Fixpoint start {F} `{Formatter F} (fuel : nat)
  (s : State (PresentationLayer F))
  : option ((exn + unit) * State (PresentationLayer F)) :=
  match fuel with
  | O => None
  | S fuel' =>
      let (r, s') := start_turn s in
      match r with
      | inl e => Some (inl e, s')
      | inr Break => Some (inr tt, s')
      | inr Continue => start fuel' s'
      end
  end.

(** The script's entry point. *)
Definition dataset_filename : string :=
  "NAFO-4T-Yellowtail-Flounder-otoliths.csv".

Definition main (fuel : nat) (w : World)
  : option ((exn + unit) * State (PresentationLayer DefaultRecordFormatter)) :=
  let formatter := DefaultRecordFormatter_new in
  let (r, s) := BusinessLayer_init dataset_filename formatter w in
  match r with
  | inl e =>
      Some (inl e, mkState (PresentationLayer_init (this s)) (world s))
  | inr _ =>
      start fuel (mkState (PresentationLayer_init (this s)) (world s))
  end.

(** ** The layout of the default format, as the specification words it

    Seven [Label: value] items separated by a comma and a space. *)

Definition labels : list string :=
  ["Source"; "Latin Name"; "English Name"; "French Name"; "Year"; "Month";
   "Number of Otoliths"].

Definition spec_layout (record : Record) : string :=
  String.concat ", "
    (zip_with (fun label v => label +:+ ": " +:+ str v)
       labels (attributes record)).

(** ** Sample data *)

(** The record of [inheritance_test.py]. *)
Definition sample_record : Record :=
  mkRecord (Str "Source") (Str "Latin Name") (Str "English Name")
    (Str "French Name") (Str "2024") (Str "March") (Str "24").

Definition other_record : Record :=
  mkRecord (Str "DFO") (Str "Limanda ferruginea") (Str "Yellowtail Flounder")
    (Str "Limande a queue jaune") (Str "1990") (Str "June") (Str "7").

Definition record_of_year (y : string) : Record :=
  mkRecord (Str "DFO") (Str "Limanda ferruginea") (Str "Yellowtail Flounder")
    (Str "Limande a queue jaune") (Str y) (Str "June") (Str "7").

(** The interpreter's part in the sample worlds, whose sessions type no
    name that begins with two underscores: it answers as for a name that
    does not exist. *)
Definition no_other_attribute (record : Record) (name : string)
  : exn + value :=
  inl (AttributeError name).

(** The plotting library's part in the sample worlds, whose sessions plot
    text categories only: it draws a chart of text categories and refuses a
    category that is [None]; the wording of the refusal differs between
    versions of the library and is left empty. *)
Definition refuses_None (c : chart) : option exn :=
  if bool_decide (PyNone ∈ bar_x c) then Some (TypeError "") else None.

(** A world with no files, where no path is refused, with the given lines
    waiting on standard input. *)
Definition world_with_input (lines : list string) : World :=
  mkWorld ∅ (fun _ => None) no_other_attribute refuses_None lines [].

Definition sample_state (rs : list Record) (lines : list string)
  : State (BusinessLayer DefaultRecordFormatter) :=
  mkState (mkBusinessLayer dataset_filename rs DefaultRecordFormatter_new)
    (world_with_input lines).

(** ** What loading and saving amount to *)

Definition with_records {F} (rs : list Record) (s : State (BusinessLayer F))
  : State (BusinessLayer F) :=
  mkState (mkBusinessLayer (filename (this s)) rs (formatter (this s)))
    (world s).

(** The loop of [load_records] over the rows of a reader that ends with
    [err]: the records appended, and the exception that leaves the loop. *)
Fixpoint loaded (rows : list (gmap string value)) (err : option exn)
  : list Record * option exn :=
  match rows with
  | [] => ([], err)
  | row :: rest =>
      match record_of_row row with
      | inl e => ([], Some e)
      | inr record => csv.cons_row record (loaded rest err)
      end
  end.

Definition parse_file (text : string) : list Record * option exn :=
  let reader := csv.DictReader (readlines (universal_newlines text)) in
  loaded (fst reader) (snd reader).

(** The line an exception caught by [load_records] is reported with. *)
Definition load_report (e : exn) : string :=
  match e with
  | FileNotFoundError _ => "Error: File not found."
  | _ => "An error occurred: " +:+ str_exn e
  end.

Definition report (e : option exn) (w : World) : World :=
  match e with
  | None => w
  | Some e => emit (Print (load_report e)) w
  end.

Fixpoint written_rows (rs : list Record) : string :=
  match rs with
  | [] => EmptyString
  | record :: rest => csv.writerow (attributes record) +:+ written_rows rest
  end.

(** The text [save_records] leaves in the file. *)
Definition saved_text (rs : list Record) : string :=
  csv.writerow (map Str header) +:+ written_rows rs.

(** A CSV file as a text editor would leave it: the header line and one
    line for [other_record], each ended by LF. *)
Definition sample_csv : string :=
  String.concat "," header +:+ String LF EmptyString
  +:+ "DFO,Limanda ferruginea,Yellowtail Flounder,Limande a queue jaune,1990,June,7"
  +:+ String LF EmptyString.

Definition world_with_file (path text : string) : World :=
  mkWorld {[ path := text ]} (fun _ => None) no_other_attribute refuses_None
    [] [].

(** A presentation layer over the given records, with the given lines
    waiting on standard input and no file on disk. *)
Definition sample_session (rs : list Record) (lines : list string)
  : State (PresentationLayer DefaultRecordFormatter) :=
  mkState
    (PresentationLayer_init
       (mkBusinessLayer dataset_filename rs DefaultRecordFormatter_new))
    (world_with_input lines).

(** A business layer that already holds [sample_record], beside a dataset
    file of one row. *)
Definition state_before_reload : State (BusinessLayer DefaultRecordFormatter) :=
  mkState
    (mkBusinessLayer dataset_filename [sample_record]
       DefaultRecordFormatter_new)
    (world_with_file dataset_filename sample_csv).

(** ** Vocabulary of the round trip *)

(** The rows a reader whose parser is [self] yields over a text, read as
    the lines of a file. *)
Definition rows_of_text (self : csv.ReaderObj) (text : string)
  : list (list string) * option exn :=
  csv.reader_rows self (readlines text).

(** A parser whose buffer holds [buf]. *)
Definition parser (st : csv.ParserState) (fs : list string)
  (buf : list ascii) : csv.ReaderObj :=
  csv.mkReader st fs buf (N.of_nat (length buf)).

(** The buffer after the characters of [f] were added to [buf]. *)
Fixpoint push (f : string) (buf : list ascii) : list ascii :=
  match f with
  | EmptyString => buf
  | String c t => push t (c :: buf)
  end.

(** The parser right after the text of the field [f] was read. *)
Definition after_field (fs : list string) (f : string)
  (self : csv.ReaderObj) : Prop :=
  self = parser csv.IN_FIELD fs (push f [])
  \/ (self = parser csv.START_FIELD fs [] /\ f = EmptyString)
  \/ self = parser csv.QUOTE_IN_QUOTED_FIELD fs (push f []).

(** A cell the round trip keeps: no carriage return, and no longer than the
    reader's field limit. *)
Definition clean (f : string) : bool :=
  negb (contains CR f)
  && (N.of_nat (String.length f) <=? csv.field_limit)%N.

Definition clean_value (v : value) : bool :=
  match v with
  | Str s => clean s
  | PyNone => false
  end.

Definition clean_record (record : Record) : bool :=
  forallb clean_value (attributes record).

(** The text of the rows, each line ended by LF, as text mode hands the
    written file to the reader. *)
Fixpoint lf_text (rows : list (list string)) : string :=
  match rows with
  | [] => EmptyString
  | row :: rest =>
      csv.join_fields (map csv.join_append row)
      +:+ String LF (lf_text rest)
  end.

Definition cells (record : Record) : list string :=
  map csv.cell_text (attributes record).

(** A record with a carriage return inside one field. *)
Definition record_with_CR : Record :=
  mkRecord (Str ("Bay" +:+ String CR "North")) (Str "Limanda ferruginea")
    (Str "Yellowtail Flounder") (Str "Limande a queue jaune") (Str "1990")
    (Str "June") (Str "7").

Definition record_with_LF : Record :=
  mkRecord (Str ("Bay" +:+ String LF "North")) (Str "Limanda ferruginea")
    (Str "Yellowtail Flounder") (Str "Limande a queue jaune") (Str "1990")
    (Str "June") (Str "7").

(** A business layer on [copy.csv] that holds one record. *)
Definition state_on_copy : State (BusinessLayer DefaultRecordFormatter) :=
  mkState
    (mkBusinessLayer "copy.csv" [sample_record] DefaultRecordFormatter_new)
    (world_with_input []).

(** A record with a comma, a quote and a line feed inside its fields. *)
Definition awkward_record : Record :=
  mkRecord (Str "Gulf, south") (Str ("the " +:+ String dquote "flounder"))
    (Str ("two" +:+ String LF "lines")) (Str "") (Str "1990")
    (Str "June") (Str "7").

(** The world after [text] was stored under [path]. *)
Definition set_file (path text : string) (w : World) : World :=
  update_files (fun fs => <[path := text]> fs) w.

(** [c * n] *)
Fixpoint repeat_char (c : ascii) (n : nat) : string :=
  match n with
  | O => EmptyString
  | S n' => String c (repeat_char c n')
  end.

(** A field one character longer than the reader's limit. *)
Definition long_field : string :=
  repeat_char "a" (N.to_nat (csv.field_limit + 1)).

Definition record_with_long_field : Record :=
  mkRecord (Str long_field) (Str "Limanda ferruginea")
    (Str "Yellowtail Flounder") (Str "Limande a queue jaune") (Str "1990")
    (Str "June") (Str "7").

(** A cell within the reader's field limit; a row of at least two such
    cells; a record without a carriage return in any cell. *)
Definition fits (f : string) : Prop :=
  (N.of_nat (String.length f) <= csv.field_limit)%N.

Definition wide (row : list string) : Prop :=
  (2 <= length row)%nat /\ Forall fits row.

Definition no_CR (record : Record) : Prop :=
  Forall (fun f => contains CR f = false) (cells record).

(** ** Lines waiting on standard input *)

Definition pending {O} (s : State O) : nat := length (stdin (world s)).

(** A computation that reads no more than is there; one that, when it
    returns, has read at least a line. *)
Definition quiet {O A} (m : M O A) : Prop :=
  forall s, (pending (snd (m s)) <= pending s)%nat.

Definition consuming {O A} (m : M O A) : Prop :=
  forall s a s', m s = (inr a, s') -> (pending s' < pending s)%nat.

(** ** Exceptions that leave a computation *)

(** Every exception [m] can raise satisfies [P]. *)
Definition raises_only {O A} (P : exn -> Prop) (m : M O A) : Prop :=
  forall s e s', m s = (inl e, s') -> P e.

(** [ValueError], as [int] raises it, or the end of the input. *)
Definition bad_number_or_end_of_input (e : exn) : Prop :=
  (exists message, e = ValueError message) \/ e = EOFError.

(** ** What [display_records] prints

    For each record its ordinal line and its formatted line, and the
    author line after every tenth record. *)

Fixpoint listing_from (fmt : Record -> string) (index : Z)
  (rs : list Record) : list event :=
  match rs with
  | [] => []
  | record :: rest =>
      Print ("Record " +:+ pretty (index + 1))
      :: Print (fmt record)
      :: ((if (index + 1) mod 10 =? 0
           then [Print "Program by Ben Nguyen"] else [])
          ++ listing_from fmt (index + 1) rest)%list
  end.

(** The world with more events written. *)
Definition emit_all (es : list event) (w : World) : World :=
  mkWorld (files w) (os_error w) (other_attribute w) (pyplot_error w)
    (stdin w) (stdout w ++ es).

(** ** Rows under a header *)

(** The cell of a row at a position as [DictReader] hands it over: the
    text, or [None] where a short row has no cell. *)
Definition cell_at (row : list string) (i : nat) : value :=
  match row !! i with
  | Some s => Str s
  | None => PyNone
  end.

(** The first of the seven column names that the field names lack. *)
Definition first_missing (fieldnames : list string) : option string :=
  find (fun k => bool_decide (k ∉ fieldnames)) header.

(** A record as it is written: every attribute as the text of its cell. *)
Definition as_text (record : Record) : Record :=
  mkRecord (Str (csv.cell_text (source record)))
    (Str (csv.cell_text (latin_name record)))
    (Str (csv.cell_text (english_name record)))
    (Str (csv.cell_text (french_name record)))
    (Str (csv.cell_text (year record)))
    (Str (csv.cell_text (month record)))
    (Str (csv.cell_text (number_otoliths record))).

Definition clean_cells (record : Record) : bool :=
  forallb clean (cells record).

(** A record as a row shorter than the header gives it. *)
Definition record_with_None : Record :=
  mkRecord (Str "DFO") (Str "Limanda ferruginea") PyNone PyNone PyNone
    PyNone PyNone.

(** A file whose header lacks every column of the program. *)
Definition foreign_csv : string :=
  "name,count" +:+ String LF EmptyString
  +:+ "cod,3" +:+ String LF EmptyString.

(** ** The attribute names of a record *)

Definition attribute_names : list string :=
  ["source"; "latin_name"; "english_name"; "french_name"; "year"; "month";
   "number_otoliths"].

(** The world after [input] has written its prompt and taken a line. *)
Definition after_input (prompt : string) (rest : list string) (w : World)
  : World :=
  mkWorld (files w) (os_error w) (other_attribute w) (pyplot_error w) rest
    (stdout w ++ [Prompt prompt]).

Definition chart_prompt : string :=
  "Enter the column name for the x-axis (e.g., 'source', 'latin_name', 'english_name', 'french_name', 'year', 'month', 'number_otoliths'): ".

(** ** One turn of the menu *)

(** What a turn writes before it acts: the name line, the menu and the
    prompt for the choice. *)
Definition menu_events (name : string) : list event :=
  [Print ("Full Name: " +:+ name);
   Print "Menu:";
   Print "1. Reload data from dataset";
   Print "2. Display all records";
   Print "3. Add a new record";
   Print "4. Select, display, and edit a record";
   Print "5. Delete a record";
   Print "6. Generate vertical bar chart";
   Print "7. Exit";
   Prompt "Enter your choice: "].

(** The prompts of [create_record]. *)
Definition record_prompts : list event :=
  [Prompt "Enter Source: "; Prompt "Enter Latin Name: ";
   Prompt "Enter English Name: "; Prompt "Enter French Name: ";
   Prompt "Enter Year: "; Prompt "Enter Month: ";
   Prompt "Enter Number of Otoliths: "].

(** The world after some lines were read and some events written. *)
Definition read_and_written (rest : list string) (events : list event)
  (w : World) : World :=
  mkWorld (files w) (os_error w) (other_attribute w) (pyplot_error w) rest
    (stdout w ++ events).

(** The presentation layer with another list of records. *)
Definition with_business_records {F} (rs : list Record)
  (p : PresentationLayer F) : PresentationLayer F :=
  mkPresentationLayer
    (mkBusinessLayer (filename (business_layer p)) rs
       (formatter (business_layer p)))
    (full_name p).

Definition menu_choices : list string := ["1"; "2"; "3"; "4"; "5"; "6"; "7"].

(** ** How an exception leaves the program *)

(** The prompts of menu entries 4 and 5, where the answer goes to [int]. *)
Definition index_prompts : list string :=
  ["Enter record index to select: "; "Enter record index to delete: "].

(** [e] is what [int] raises for some text, and the last thing written is
    one of the two index prompts. *)
Definition bad_number_at_index_prompt (e : exn) (w : World) : Prop :=
  exists prompt text,
    prompt ∈ index_prompts
    /\ last (stdout w) = Some (Prompt prompt)
    /\ int text = inl e.

(** [e] is [EOFError], no line is left to read, and the last thing written
    is a prompt. *)
Definition end_of_input_at_prompt (e : exn) (w : World) : Prop :=
  e = EOFError
  /\ stdin w = []
  /\ exists prompt, last (stdout w) = Some (Prompt prompt).

Definition escapes (e : exn) (w : World) : Prop :=
  bad_number_at_index_prompt e w \/ end_of_input_at_prompt e w.

(** Every exception [m] can raise satisfies [P] in the world it leaves. *)
Definition raises_in {O A} (P : exn -> World -> Prop) (m : M O A) : Prop :=
  forall s e s', m s = (inl e, s') -> P e (world s').


(** * Verification *)

(** ** Running the monad *)

Ltac run :=
  unfold display_record, add_record, edit_record, delete_record,
    append_record, set_records, bind, get_self, set_self, lift_result,
    print, ret, raise, try_except; simpl.

Lemma len_nonneg {A} (l : list A) : 0 <= len l.
Proof. unfold len. lia. Qed.

Lemma range_test_true (index n : Z) :
  0 <= index < n -> (0 <=? index) && (index <? n) = true.
Proof. intros. apply andb_true_iff. split; [apply Z.leb_le | apply Z.ltb_lt]; lia. Qed.

Lemma range_test_false (index n : Z) :
  index < 0 \/ n <= index -> (0 <=? index) && (index <? n) = false.
Proof.
  intros. apply andb_false_iff.
  destruct (Z.leb_spec 0 index); [right; apply Z.ltb_ge; lia | left; reflexivity].
Qed.

Lemma normalise_valid {A} (l : list A) (index : Z) :
  0 <= index < len l -> normalise l index = Some (Z.to_nat index).
Proof.
  intros Hi. unfold normalise.
  destruct (Z.ltb_spec index 0); [lia |].
  now rewrite range_test_true.
Qed.

Lemma getitem_valid {A} (l : list A) (index : Z) (x : A) :
  0 <= index -> l !! Z.to_nat index = Some x -> getitem l index = inr x.
Proof.
  intros H0 Hx. unfold getitem.
  rewrite normalise_valid, Hx; [reflexivity |].
  apply lookup_lt_Some in Hx. unfold len. lia.
Qed.

(** ** In-memory operations *)

(** C4. An index that is negative or not below the length makes each of
    [display_record], [edit_record] and [delete_record] return normally with
    the business layer (so its list of records) exactly as it was, and with
    the one line [Invalid record index.] added to the output. *)
Theorem invalid_index_reported_and_ignored {F} `{Formatter F}
  (s : State (BusinessLayer F)) (index : Z) (new_record : Record) :
  index < 0 \/ len (records (this s)) <= index ->
  let reported :=
    (inr tt : exn + unit,
     mkState (this s) (emit (Print "Invalid record index.") (world s))) in
  display_record index s = reported
  /\ edit_record index new_record s = reported
  /\ delete_record index s = reported.
Proof.
  intros Hbad. run. now rewrite (range_test_false _ _ Hbad).
Qed.

(** C6. With a valid index, [delete_record] returns normally, reports
    success, and leaves the list with the element at that index cut out: the
    elements before it followed by the elements after it, each in its old
    order, one element fewer. *)
Theorem delete_record_excises {F} (s : State (BusinessLayer F)) (index : Z) :
  0 <= index < len (records (this s)) ->
  let rs := records (this s) in
  let i := Z.to_nat index in
  let rs' := (take i rs ++ drop (S i) rs)%list in
  delete_record index s
  = (inr tt,
     mkState (mkBusinessLayer (filename (this s)) rs' (formatter (this s)))
       (emit (Print "Record deleted successfully.") (world s)))
  /\ len rs' = len rs - 1
  /\ (forall j, (j < i)%nat -> rs' !! j = rs !! j)
  /\ (forall j, (i <= j)%nat -> rs' !! j = rs !! S j).
Proof.
  intros Hi rs i rs'. run.
  rewrite (range_test_true _ _ Hi). unfold delitem.
  rewrite (normalise_valid _ _ Hi). fold i rs. simpl.
  assert (Hlt : (i < length rs)%nat) by (unfold len in Hi; subst i rs; lia).
  assert (Hdel : delete i rs = rs') by (subst rs'; apply delete_take_drop).
  rewrite Hdel. split; [reflexivity |]. rewrite <- Hdel.
  split; [| split].
  - unfold len. rewrite length_delete by (apply lookup_lt_is_Some; exact Hlt). lia.
  - intros j Hj. now apply list_lookup_delete_lt.
  - intros j Hj. now apply list_lookup_delete_ge.
Qed.

(** C7. With a valid index, [display_record] prints exactly the text the
    active formatter returns for the record at that index, returns normally
    and changes nothing else. *)
Theorem display_record_emits_formatted {F} `{Formatter F}
  (s : State (BusinessLayer F)) (index : Z) (record : Record) (text : string) :
  0 <= index ->
  records (this s) !! Z.to_nat index = Some record ->
  format_record (formatter (this s)) record = inr text ->
  display_record index s
  = (inr tt, mkState (this s) (emit (Print text) (world s))).
Proof.
  intros H0 Hrec Hfmt. run.
  rewrite range_test_true.
  - rewrite (getitem_valid _ _ _ H0 Hrec). simpl. now rewrite Hfmt.
  - apply lookup_lt_Some in Hrec. unfold len. lia.
Qed.

(** C10. With a valid index, [edit_record] returns normally, reports
    success and replaces the record at that index only: the length is the
    same, the new record is at the index, and every other position holds the
    record it held before. *)
Theorem edit_record_frame {F} (s : State (BusinessLayer F)) (index : Z)
  (new_record : Record) :
  0 <= index < len (records (this s)) ->
  let rs := records (this s) in
  let i := Z.to_nat index in
  exists rs',
    edit_record index new_record s
    = (inr tt,
       mkState (mkBusinessLayer (filename (this s)) rs' (formatter (this s)))
         (emit (Print "Record edited successfully.") (world s)))
    /\ length rs' = length rs
    /\ rs' !! i = Some new_record
    /\ (forall j, j <> i -> rs' !! j = rs !! j).
Proof.
  intros Hi rs i. exists (<[i := new_record]> rs). run.
  rewrite (range_test_true _ _ Hi). unfold setitem.
  rewrite (normalise_valid _ _ Hi). fold i rs. simpl.
  split; [reflexivity |].
  split; [apply length_insert |].
  split.
  - apply list_lookup_insert_eq. unfold len in Hi. subst i rs. lia.
  - intros j Hj. now apply list_lookup_insert_ne.
Qed.

Lemma invalid_index_reported_and_ignored_witness :
  let s := sample_state [sample_record] [] in
  let reported :=
    (inr tt : exn + unit,
     mkState (this s) (emit (Print "Invalid record index.") (world s))) in
  display_record 1 s = reported
  /\ edit_record 1 other_record s = reported
  /\ delete_record 1 s = reported.
Proof.
  apply (invalid_index_reported_and_ignored
           (sample_state [sample_record] []) 1 other_record).
  right. unfold len. simpl. lia.
Defined.

Lemma delete_record_excises_witness :
  let s := sample_state [sample_record; other_record; sample_record] [] in
  let rs' := [sample_record; sample_record] in
  delete_record 1 s
  = (inr tt,
     mkState (mkBusinessLayer (filename (this s)) rs' (formatter (this s)))
       (emit (Print "Record deleted successfully.") (world s)))
  /\ len rs' = len (records (this s)) - 1
  /\ (forall j, (j < 1)%nat -> rs' !! j = records (this s) !! j)
  /\ (forall j, (1 <= j)%nat -> rs' !! j = records (this s) !! S j).
Proof.
  apply (delete_record_excises
           (sample_state [sample_record; other_record; sample_record] []) 1).
  unfold len. simpl. lia.
Defined.

Lemma display_record_emits_formatted_witness :
  display_record 0 (sample_state [sample_record] [])
  = (inr tt,
     mkState (this (sample_state [sample_record] []))
       (emit (Print "Source: Source, Latin Name: Latin Name, English Name: English Name, French Name: French Name, Year: 2024, Month: March, Number of Otoliths: 24")
          (world (sample_state [sample_record] [])))).
Proof.
  apply (display_record_emits_formatted
           (sample_state [sample_record] []) 0 sample_record).
  - lia.
  - reflexivity.
  - reflexivity.
Defined.

Lemma edit_record_frame_witness :
  exists rs',
    edit_record 1 other_record
      (sample_state [sample_record; sample_record; sample_record] [])
    = (inr tt,
       mkState (mkBusinessLayer dataset_filename rs' DefaultRecordFormatter_new)
         (emit (Print "Record edited successfully.") (world_with_input [])))
    /\ length rs' = 3%nat
    /\ rs' !! 1%nat = Some other_record
    /\ (forall j, j <> 1%nat ->
        rs' !! j = [sample_record; sample_record; sample_record] !! j).
Proof.
  apply (edit_record_frame
           (sample_state [sample_record; sample_record; sample_record] [])
           1 other_record).
  unfold len. simpl. lia.
Defined.

(** ** The default format *)

(** C8. [DefaultRecordFormatter.format_record] returns, for the record of
    the unit test, exactly the expected line; and for every record the seven
    labelled items, in order, separated by a comma and a space, each value
    put in as [str] gives it (a string as it is). *)
Theorem default_format_layout :
  format_record DefaultRecordFormatter_new sample_record
  = inr "Source: Source, Latin Name: Latin Name, English Name: English Name, French Name: French Name, Year: 2024, Month: March, Number of Otoliths: 24"
  /\ (forall record,
        format_record DefaultRecordFormatter_new record
        = inr (spec_layout record))
  /\ (forall s1 s2 s3 s4 s5 s6 s7,
        format_record DefaultRecordFormatter_new
          (mkRecord (Str s1) (Str s2) (Str s3) (Str s4) (Str s5) (Str s6)
             (Str s7))
        = inr ("Source: " +:+ s1 +:+ ", Latin Name: " +:+ s2
               +:+ ", English Name: " +:+ s3 +:+ ", French Name: " +:+ s4
               +:+ ", Year: " +:+ s5 +:+ ", Month: " +:+ s6
               +:+ ", Number of Otoliths: " +:+ s7)).
Proof.
  split; [reflexivity | split].
  - intros record. unfold format_record, DefaultRecordFormatter_format,
      spec_layout, attributes, labels. simpl. reflexivity.
  - intros. reflexivity.
Qed.

(** ** Counting for the bar chart *)

Section CounterFacts.

Implicit Types (c : list (value * nat)) (v k : value) (xs : list value).

Lemma counter_get_incr c v k :
  counter_get (counter_incr v c) k
  = if decide (v = k) then Some (S (default 0%nat (counter_get c k)))
    else counter_get c k.
Proof.
  induction c as [| [k0 n] c IH]; simpl.
  - destruct (decide (v = k)); reflexivity.
  - destruct (decide (k0 = v)) as [-> | Hne]; simpl.
    + destruct (decide (v = k)); reflexivity.
    + destruct (decide (k0 = k)) as [-> | Hne'].
      * destruct (decide (v = k)); [congruence | reflexivity].
      * exact IH.
Qed.

Lemma counter_keys_incr c v :
  map fst (counter_incr v c)
  = if bool_decide (v ∈ map fst c) then map fst c else (map fst c ++ [v])%list.
Proof.
  induction c as [| [k0 n] c IH]; simpl.
  - reflexivity.
  - destruct (decide (k0 = v)) as [-> | Hne]; simpl.
    + rewrite bool_decide_eq_true_2 by left. reflexivity.
    + rewrite IH. destruct (bool_decide_reflect (v ∈ map fst c)) as [Hin | Hout].
      * rewrite bool_decide_eq_true_2 by now right. reflexivity.
      * rewrite bool_decide_eq_false_2; [reflexivity |].
        intros Hin. apply elem_of_cons in Hin as [-> | Hin]; congruence.
Qed.

Lemma counter_keys_NoDup_incr c v :
  NoDup (map fst c) -> NoDup (map fst (counter_incr v c)).
Proof.
  intros Hnd. rewrite counter_keys_incr.
  destruct (bool_decide_reflect (v ∈ map fst c)) as [Hin | Hout]; [exact Hnd |].
  apply NoDup_app. split; [exact Hnd |]. split.
  - intros x Hx Hx'. apply list_elem_of_singleton in Hx'. congruence.
  - apply NoDup_singleton.
Qed.

(** What a counting pass over [xs] adds to the counts already in [c]. *)
Lemma counter_get_fold xs c k :
  counter_get (fold_left (fun c v => counter_incr v c) xs c) k
  = match counter_get c k, count_occ value_eq_dec xs k with
    | None, O => None
    | None, S n => Some (S n)
    | Some m, n => Some (m + n)%nat
    end.
Proof.
  revert c. induction xs as [| x xs IH]; intros c; simpl.
  - destruct (counter_get c k); [f_equal; lia | reflexivity].
  - rewrite IH, counter_get_incr.
    destruct (value_eq_dec x k) as [-> | Hne].
    + rewrite decide_True by reflexivity.
      destruct (counter_get c k); simpl; f_equal; lia.
    + rewrite decide_False by exact Hne. reflexivity.
Qed.

Lemma counter_keys_NoDup_fold xs c :
  NoDup (map fst c) ->
  NoDup (map fst (fold_left (fun c v => counter_incr v c) xs c)).
Proof.
  revert c. induction xs as [| x xs IH]; intros c Hnd; simpl; [exact Hnd |].
  apply IH, counter_keys_NoDup_incr, Hnd.
Qed.

Lemma Counter_get xs k :
  counter_get (Counter xs) k
  = match count_occ value_eq_dec xs k with
    | O => None
    | S n => Some (S n)
    end.
Proof. unfold Counter. now rewrite counter_get_fold. Qed.

Lemma Counter_keys_NoDup xs : NoDup (map fst (Counter xs)).
Proof. apply counter_keys_NoDup_fold. constructor. Qed.

(** In a dictionary without duplicate keys, the pairs are the lookups. *)
Lemma counter_get_elem_of c k n :
  NoDup (map fst c) -> (k, n) ∈ c <-> counter_get c k = Some n.
Proof.
  induction c as [| [k0 n0] c IH]; simpl; intros Hnd.
  - split; [intros Hin; inversion Hin | discriminate].
  - apply NoDup_cons in Hnd as [Hout Hnd].
    rewrite elem_of_cons. destruct (decide (k0 = k)) as [-> | Hne].
    + split.
      * intros [Heq | Hin]; [congruence |].
        exfalso. apply Hout. apply list_elem_of_fmap. exists (k, n). split; [reflexivity | exact Hin].
      * intros [= ->]. now left.
    + rewrite <- (IH Hnd). split; [intros [Heq | Hin]; [congruence | exact Hin] | now right].
Qed.

End CounterFacts.

Lemma collect_total {A B} (f : A -> exn + B) (g : A -> B) (l : list A) :
  (forall x, f x = inr (g x)) -> collect f l = inr (map g l).
Proof.
  intros Hf. induction l as [| x l IH]; simpl; [reflexivity |].
  now rewrite Hf, IH.
Qed.

(** C9. When the name typed at the prompt is an attribute of the records,
    [generate_bar_chart] counts the records by the value of that attribute
    and hands the plotting calls the bars that pair each distinct value with
    the number of records carrying it: no value twice, a pair for a value
    exactly when some record carries it, with the count of those records.
    The call returns normally; the chart is shown when the library draws
    it, and the library's exception is reported otherwise.  On records whose
    years are 2020, 2021, 2020 the counts for [year] are 2020 with 2 and
    2021 with 1. *)
Theorem chart_counts_by_field {F} (s : State (BusinessLayer F))
  (x_column : string) (rest : list string) (attr : Record -> value) :
  stdin (world s) = x_column :: rest ->
  (forall record,
     getattr (other_attribute (world s)) record x_column
     = inr (attr record)) ->
  let x_values := map attr (records (this s)) in
  let result := generate_bar_chart s in
  (exists c prompt,
     fst result = inr tt
     /\ this (snd result) = this s
     /\ stdout (world (snd result))
        = (stdout (world s) ++ [Prompt prompt; chart_outcome (world s) c])%list
     /\ NoDup (bar_x c)
     /\ length (bar_x c) = length (bar_height c)
     /\ (forall v n,
           (v, n) ∈ zip (bar_x c) (bar_height c)
           <-> n = count_occ value_eq_dec x_values v /\ (0 < n)%nat))
  /\ Counter [Str "2020"; Str "2021"; Str "2020"]
     = [(Str "2020", 2%nat); (Str "2021", 1%nat)].
Proof.
  intros Hin Hattr x_values result. split; [| reflexivity].
  exists (chart_of x_column x_values).
  eexists. subst result.
  unfold generate_bar_chart, try_except, bind, input, in_world.
  simpl. rewrite Hin. simpl.
  rewrite (collect_total _ attr _ Hattr). fold x_values.
  unfold show, chart_outcome. cbn [world pyplot_error].
  split; [destruct (pyplot_error (world s) _); reflexivity |].
  split; [destruct (pyplot_error (world s) _); reflexivity |].
  split.
  { destruct (pyplot_error (world s) _); simpl;
      now rewrite <- app_assoc. }
  split; [apply Counter_keys_NoDup |].
  split; [unfold chart_of; cbn [bar_x bar_height]; now rewrite !length_map |].
  intros v n. unfold chart_of. cbn [bar_x bar_height]. rewrite zip_fst_snd.
  rewrite (counter_get_elem_of _ _ _ (Counter_keys_NoDup x_values)).
  rewrite Counter_get.
  destruct (count_occ value_eq_dec x_values v) as [| m].
  - split; [discriminate | intros [-> Hpos]; lia].
  - split; [intros [= <-]; split; [reflexivity | lia] | intros [-> _]; reflexivity].
Qed.

Lemma chart_counts_by_field_witness :
  let s := sample_state
             [record_of_year "2020"; record_of_year "2021";
              record_of_year "2020"] ["year"] in
  let result := generate_bar_chart s in
  (exists c prompt,
     fst result = inr tt
     /\ this (snd result) = this s
     /\ stdout (world (snd result))
        = (stdout (world s) ++ [Prompt prompt; chart_outcome (world s) c])%list
     /\ NoDup (bar_x c)
     /\ length (bar_x c) = length (bar_height c)
     /\ (forall v n,
           (v, n) ∈ zip (bar_x c) (bar_height c)
           <-> n = count_occ value_eq_dec
                     [Str "2020"; Str "2021"; Str "2020"] v
               /\ (0 < n)%nat))
  /\ Counter [Str "2020"; Str "2021"; Str "2020"]
     = [(Str "2020", 2%nat); (Str "2021", 1%nat)].
Proof.
  apply (chart_counts_by_field
           (sample_state
              [record_of_year "2020"; record_of_year "2021";
               record_of_year "2020"] ["year"])
           "year" [] year).
  - reflexivity.
  - intros record. reflexivity.
Defined.

(** ** Loading *)

Lemma with_records_same {F} (s : State (BusinessLayer F)) :
  with_records (records (this s)) s = s.
Proof. now destruct s as [[fn rs fmt] w]. Qed.

Lemma bind_ok {O A B} (m : M O A) (k : A -> M O B) s a s' :
  m s = (inr a, s') -> bind m k s = k a s'.
Proof. intros E. unfold bind. now rewrite E. Qed.

Lemma bind_err {O A B} (m : M O A) (k : A -> M O B) s e s' :
  m s = (inl e, s') -> bind m k s = (inl e, s').
Proof. intros E. unfold bind. now rewrite E. Qed.

Lemma bind_assoc {O A B C} (m : M O A) (k : A -> M O B) (k' : B -> M O C) s :
  bind (bind m k) k' s = bind m (fun a => bind (k a) k') s.
Proof. unfold bind. destruct (m s) as [[e | a] s']; reflexivity. Qed.

Lemma append_record_run {F} (record : Record) (s : State (BusinessLayer F)) :
  append_record record s
  = (inr tt, with_records (records (this s) ++ [record]) s).
Proof. reflexivity. Qed.

Lemma load_loop {F} (rows : list (gmap string value)) (err : option exn)
  (s : State (BusinessLayer F)) :
  (for_each rows (fun row =>
     record <- lift_result (record_of_row row) ;; append_record record) ;;
   match err with Some e => raise e | None => ret tt end) s
  = (match snd (loaded rows err) with Some e => inl e | None => inr tt end,
     with_records (records (this s) ++ fst (loaded rows err)) s).
Proof.
  revert s. induction rows as [| row rows IH]; intros s.
  - simpl. rewrite app_nil_r, with_records_same.
    erewrite bind_ok by reflexivity. destruct err; reflexivity.
  - cbn [for_each loaded].
    destruct (record_of_row row) as [e | record] eqn:Hrow.
    + simpl. rewrite app_nil_r, with_records_same.
      apply bind_err, bind_err, bind_err. reflexivity.
    + rewrite bind_assoc.
      rewrite (bind_ok _ _ s tt (with_records (records (this s) ++ [record]) s))
        by reflexivity.
      rewrite IH. simpl. unfold with_records. simpl.
      now rewrite <- app_assoc.
Qed.

(** What [load_records] does when the file can be opened: the records its
    rows give are appended to the list, and the exception that stopped the
    reading, if any, is reported. *)
Lemma load_records_opened {F} (s : State (BusinessLayer F)) (text : string) :
  os_error (world s) (filename (this s)) = None ->
  files (world s) !! filename (this s) = Some text ->
  load_records s
  = (inr tt,
     mkState
       (mkBusinessLayer (filename (this s))
          (records (this s) ++ fst (parse_file text)) (formatter (this s)))
       (report (snd (parse_file text)) (world s))).
Proof.
  intros Hos Hfile. unfold load_records, try_except.
  unfold bind at 1. unfold get_self at 1. unfold bind at 1.
  unfold open_r at 1. simpl. rewrite Hos, Hfile.
  pose proof (load_loop
    (fst (csv.DictReader (readlines (universal_newlines text))))
    (snd (csv.DictReader (readlines (universal_newlines text)))) s) as Hloop.
  simpl in Hloop. rewrite Hloop. fold (parse_file text).
  destruct (snd (parse_file text)) as [e |]; simpl; [| reflexivity].
  unfold report, load_report. destruct e; reflexivity.
Qed.

(** C1. Menu entry 1, [Reload data from dataset], calls [load_records] on a
    business layer that already holds records.  On a business layer holding
    [sample_record], with a dataset file whose single row parses without
    error to [other_record], the list after the call is both records, the
    old one first: the rows were appended, the list was not replaced. *)
Theorem reload_appends_to_the_records :
  parse_file sample_csv = ([other_record], None)
  /\ load_records state_before_reload
     = (inr tt, with_records [sample_record; other_record] state_before_reload)
  /\ records (this (snd (load_records state_before_reload))) <> [other_record].
Proof.
  assert (Hparse : parse_file sample_csv = ([other_record], None))
    by (vm_compute; reflexivity).
  assert (Hload : load_records state_before_reload
                  = (inr tt, with_records [sample_record; other_record]
                               state_before_reload)).
  { rewrite (load_records_opened state_before_reload sample_csv);
      [| reflexivity | apply lookup_singleton_eq].
    now rewrite Hparse. }
  split; [exact Hparse | split; [exact Hload |]].
  rewrite Hload. discriminate.
Qed.

(** The constructor starts from the empty list, so there the records are
    exactly the rows of the file. *)
Lemma BusinessLayer_init_loads {F} (path : string) (fmt : F) (w : World)
  (text : string) :
  os_error w path = None ->
  files w !! path = Some text ->
  BusinessLayer_init path fmt w
  = (inr tt,
     mkState (mkBusinessLayer path (fst (parse_file text)) fmt)
       (report (snd (parse_file text)) w)).
Proof.
  intros Hos Hfile. unfold BusinessLayer_init.
  now rewrite (load_records_opened _ text).
Qed.

(** C3. When the file of the business layer does not exist,
    [load_records] returns normally and prints [Error: File not found.],
    but the handler only prints: the business layer, so its list of records,
    is left as it was.  A layer that holds records still holds them after
    the call, where the sequence is to be empty; only the constructor, which
    empties the list before it loads, gives the empty sequence: the reset
    is missing from [load_records]. *)
Theorem load_records_missing_file {F} (s : State (BusinessLayer F)) :
  os_error (world s) (filename (this s)) = None ->
  files (world s) !! filename (this s) = None ->
  load_records s
  = (inr tt,
     mkState (this s) (emit (Print "Error: File not found.") (world s))).
Proof.
  intros Hos Hfile. unfold load_records, try_except.
  unfold bind at 1. unfold get_self at 1. unfold bind at 1.
  unfold open_r at 1. simpl. now rewrite Hos, Hfile.
Qed.

Lemma load_records_missing_file_witness :
  load_records (sample_state [sample_record] [])
  = (inr tt,
     mkState (this (sample_state [sample_record] []))
       (emit (Print "Error: File not found.")
          (world (sample_state [sample_record] [])))).
Proof.
  apply (load_records_missing_file (sample_state [sample_record] [])).
  - reflexivity.
  - apply lookup_empty.
Defined.

(** The sequence is not empty after every load from a missing file: a
    business layer that holds a record still holds it. *)
Lemma load_records_missing_file_not_emptied :
  ~ (forall s : State (BusinessLayer DefaultRecordFormatter),
       os_error (world s) (filename (this s)) = None ->
       files (world s) !! filename (this s) = None ->
       records (this (snd (load_records s))) = []).
Proof.
  intros Hclaim.
  specialize (Hclaim (sample_state [sample_record] []) eq_refl (lookup_empty _)).
  vm_compute in Hclaim. discriminate Hclaim.
Qed.

(** ** The interaction loop *)

Section Termination.

Context {F : Type} `{Formatter F}.

Lemma quiet_ret {O A} (a : A) : quiet (ret a : M O A).
Proof. intros s. reflexivity. Qed.

Lemma quiet_raise {O A} (e : exn) : quiet (raise e : M O A).
Proof. intros s. reflexivity. Qed.

Lemma quiet_get_self {O} : quiet (get_self : M O O).
Proof. intros s. reflexivity. Qed.

Lemma quiet_set_self {O} (o : O) : quiet (set_self o).
Proof. intros s. reflexivity. Qed.

Lemma quiet_lift_result {O A} (r : exn + A) : quiet (lift_result r : M O A).
Proof. intros s. reflexivity. Qed.

Lemma quiet_print {O} (line : string) : quiet (print line : M O unit).
Proof. intros s. reflexivity. Qed.

Lemma quiet_show {O} (c : chart) : quiet (show c : M O unit).
Proof.
  intros s. unfold show. destruct (pyplot_error (world s) c); reflexivity.
Qed.

Lemma quiet_in_world {O A} (f : World -> exn + A) :
  quiet (in_world f : M O A).
Proof. intros s. reflexivity. Qed.

Lemma quiet_open_r {O} (path : string) : quiet (open_r path : M O _).
Proof.
  intros s. unfold open_r.
  destruct (os_error (world s) path); [reflexivity |].
  destruct (files (world s) !! path); reflexivity.
Qed.

Lemma quiet_open_w {O} (path : string) : quiet (open_w path : M O _).
Proof.
  intros s. unfold open_w. destruct (os_error (world s) path); reflexivity.
Qed.

Lemma quiet_write {O} (file text : string) : quiet (write file text : M O _).
Proof. intros s. reflexivity. Qed.

Lemma quiet_input {O} (prompt : string) : quiet (input prompt : M O string).
Proof.
  intros s. unfold input, pending. cbn.
  destruct (stdin (world s)) eqn:E; cbn; rewrite ?E; cbn; lia.
Qed.

Lemma consuming_input {O} (prompt : string) :
  consuming (input prompt : M O string).
Proof.
  intros s a s'. unfold input, pending. cbn.
  destruct (stdin (world s)) eqn:E; intros [= <- <-]; cbn; rewrite ?E; cbn;
    lia.
Qed.

Lemma quiet_bind {O A B} (m : M O A) (k : A -> M O B) :
  quiet m -> (forall a, quiet (k a)) -> quiet (bind m k).
Proof.
  intros Hm Hk s. unfold bind. specialize (Hm s).
  destruct (m s) as [[e | a] s1]; cbn in *; [exact Hm |].
  specialize (Hk a s1). lia.
Qed.

Lemma quiet_try_except {O A} (body : M O A) (handler : exn -> M O A) :
  quiet body -> (forall e, quiet (handler e)) -> quiet (try_except body handler).
Proof.
  intros Hm Hk s. unfold try_except. specialize (Hm s).
  destruct (body s) as [[e | a] s1]; cbn in *; [| exact Hm].
  specialize (Hk e s1). lia.
Qed.

Lemma quiet_for_each {O A} (l : list A) (body : A -> M O unit) :
  (forall x, quiet (body x)) -> quiet (for_each l body).
Proof.
  intros Hbody. induction l as [| x l IH]; cbn [for_each].
  - apply quiet_ret.
  - apply quiet_bind; [apply Hbody | intros _; exact IH].
Qed.

Lemma quiet_on_business_layer {A} (m : M (BusinessLayer F) A) :
  quiet m -> quiet (on_business_layer m).
Proof.
  intros Hm s. unfold on_business_layer.
  specialize (Hm (mkState (business_layer (this s)) (world s))).
  destruct (m _) as [r s1]. exact Hm.
Qed.

Lemma consuming_bind {O A B} (m : M O A) (k : A -> M O B) :
  consuming m -> (forall a, quiet (k a)) -> consuming (bind m k).
Proof.
  intros Hm Hk s b s'. unfold bind.
  destruct (m s) as [[e | a] s1] eqn:Hms; [discriminate |].
  intros Hk'. specialize (Hm s a s1 Hms). specialize (Hk a s1).
  rewrite Hk' in Hk. cbn in Hk. lia.
Qed.

Lemma consuming_after {O A B} (m : M O A) (k : A -> M O B) :
  quiet m -> (forall a, consuming (k a)) -> consuming (bind m k).
Proof.
  intros Hm Hk s b s'. unfold bind. specialize (Hm s).
  destruct (m s) as [[e | a] s1] eqn:Hms; [discriminate |].
  intros Hk'. specialize (Hk a s1 b s' Hk'). cbn in Hm. lia.
Qed.

Ltac solve_quiet :=
  repeat first
    [ apply quiet_ret | apply quiet_raise | apply quiet_get_self
    | apply quiet_set_self | apply quiet_lift_result | apply quiet_print
    | apply quiet_show | apply quiet_in_world | apply quiet_input
    | apply quiet_open_r
    | apply quiet_open_w | apply quiet_write
    | apply quiet_bind; [| intros ?]
    | apply quiet_try_except; [| intros ?]
    | apply quiet_for_each; intros ?
    | apply quiet_on_business_layer
    | match goal with
      | |- quiet (if ?b then _ else _) => destruct b
      | |- quiet (match ?x with _ => _ end) => destruct x
      end ].

Lemma quiet_display_record (index : Z) : quiet (display_record index).
Proof. unfold display_record. solve_quiet. Qed.

Lemma quiet_display_records : quiet display_records.
Proof.
  unfold display_records. solve_quiet.
Qed.

Lemma quiet_add_record (record : Record) :
  quiet (add_record record : M (BusinessLayer F) unit).
Proof. unfold add_record, set_records. solve_quiet. Qed.

Lemma quiet_edit_record (index : Z) (record : Record) :
  quiet (edit_record index record : M (BusinessLayer F) unit).
Proof. unfold edit_record, set_records. solve_quiet. Qed.

Lemma quiet_delete_record (index : Z) :
  quiet (delete_record index : M (BusinessLayer F) unit).
Proof. unfold delete_record, set_records. solve_quiet. Qed.

Lemma quiet_load_records : quiet (load_records : M (BusinessLayer F) unit).
Proof. unfold load_records, append_record, set_records. solve_quiet. Qed.

Lemma quiet_generate_bar_chart :
  quiet (generate_bar_chart : M (BusinessLayer F) unit).
Proof. unfold generate_bar_chart. solve_quiet. Qed.

Lemma quiet_create_record {O} : quiet (create_record : M O Record).
Proof. unfold create_record. solve_quiet. Qed.

Lemma quiet_display_menu {O} : quiet (display_menu : M O unit).
Proof. unfold display_menu. solve_quiet. Qed.

Lemma quiet_select_display_edit_record : quiet select_display_edit_record.
Proof.
  unfold select_display_edit_record. solve_quiet.
Qed.

Lemma quiet_PresentationLayer_delete_record :
  quiet (PresentationLayer_delete_record : M (PresentationLayer F) unit).
Proof.
  unfold PresentationLayer_delete_record. solve_quiet.
Qed.

(** A turn of the loop that returns has read the menu choice. *)
Lemma consuming_start_turn : consuming start_turn.
Proof.
  unfold start_turn.
  apply consuming_after; [apply quiet_get_self | intros self].
  apply consuming_after; [apply quiet_print | intros _].
  apply consuming_after; [apply quiet_display_menu | intros _].
  apply consuming_bind; [apply consuming_input | intros choice].
  solve_quiet.
Qed.

(** [start] ends on every finite input: with more turns allowed than there
    are lines waiting, the loop has left (by the exit entry or by an
    exception, the end of the input being one) before the turns run out. *)
Lemma start_ends (fuel : nat) (s : State (PresentationLayer F)) :
  (pending s < fuel)%nat -> exists result, start fuel s = Some result.
Proof.
  revert s. induction fuel as [| fuel IH]; intros s Hfuel; [lia |].
  cbn [start]. destruct (start_turn s) as [[e | [|]] s'] eqn:Hturn.
  - eauto.
  - apply IH. pose proof (consuming_start_turn s _ _ Hturn). lia.
  - eauto.
Qed.

End Termination.

Section Escapes.

Variable P : exn -> Prop.

Lemma raises_only_ret {O A} (a : A) : raises_only P (ret a : M O A).
Proof. intros s e s' [=]. Qed.

Lemma raises_only_get_self {O} : raises_only P (get_self : M O O).
Proof. intros s e s' [=]. Qed.

Lemma raises_only_set_self {O} (o : O) : raises_only P (set_self o).
Proof. intros s e s' [=]. Qed.

Lemma raises_only_print {O} (line : string) :
  raises_only P (print line : M O unit).
Proof. intros s e s' [=]. Qed.

Lemma raises_only_lift_ok {O A} (a : A) :
  raises_only P (lift_result (inr a) : M O A).
Proof. intros s e s' [=]. Qed.

Lemma raises_only_bind {O A B} (m : M O A) (k : A -> M O B) :
  raises_only P m -> (forall a, raises_only P (k a)) ->
  raises_only P (bind m k).
Proof.
  intros Hm Hk s e s'. unfold bind.
  destruct (m s) as [[e1 | a] s1] eqn:Hms.
  - intros [= <- <-]. exact (Hm _ _ _ Hms).
  - apply Hk.
Qed.

(** A handler that raises nothing makes the whole [try] raise nothing. *)
Lemma raises_only_try_except {O A} (body : M O A) (handler : exn -> M O A) :
  (forall e, raises_only P (handler e)) ->
  raises_only P (try_except body handler).
Proof.
  intros Hk s e s'. unfold try_except.
  destruct (body s) as [[e1 | a] s1]; [apply Hk | intros [=]].
Qed.

Lemma raises_only_for_each {O A} (l : list A) (body : A -> M O unit) :
  (forall x, raises_only P (body x)) -> raises_only P (for_each l body).
Proof.
  intros Hbody. induction l as [| x l IH]; cbn [for_each].
  - apply raises_only_ret.
  - apply raises_only_bind; [apply Hbody | intros _; exact IH].
Qed.

Lemma raises_only_on_business_layer {F A} (m : M (BusinessLayer F) A) :
  raises_only P m -> raises_only P (on_business_layer m).
Proof.
  intros Hm s e s'. unfold on_business_layer.
  destruct (m _) as [r s1] eqn:Hms. intros [= -> <-]. exact (Hm _ _ _ Hms).
Qed.

Lemma getitem_in_range {A} (l : list A) (index : Z) :
  (0 <=? index) && (index <? len l) = true ->
  exists x, getitem l index = inr x.
Proof.
  intros Hguard. apply andb_true_iff in Hguard as [H0 H1].
  apply Z.leb_le in H0. apply Z.ltb_lt in H1.
  destruct (lookup_lt_is_Some_2 l (Z.to_nat index)) as [x Hx].
  { unfold len in H1. lia. }
  exists x. now apply getitem_valid.
Qed.

Lemma setitem_in_range {A} (l : list A) (index : Z) (x : A) :
  (0 <=? index) && (index <? len l) = true ->
  exists l', setitem l index x = inr l'.
Proof.
  intros Hguard. apply andb_true_iff in Hguard as [H0 H1].
  apply Z.leb_le in H0. apply Z.ltb_lt in H1.
  unfold setitem. rewrite normalise_valid by lia. eauto.
Qed.

Lemma delitem_in_range {A} (l : list A) (index : Z) :
  (0 <=? index) && (index <? len l) = true ->
  exists l', delitem l index = inr l'.
Proof.
  intros Hguard. apply andb_true_iff in Hguard as [H0 H1].
  apply Z.leb_le in H0. apply Z.ltb_lt in H1.
  unfold delitem. rewrite normalise_valid by lia. eauto.
Qed.

Ltac solve_raises :=
  repeat first
    [ apply raises_only_ret | apply raises_only_get_self
    | apply raises_only_set_self | apply raises_only_print
    | apply raises_only_lift_ok
    | apply raises_only_try_except; intros ?
    | apply raises_only_bind; [| intros ?]
    | apply raises_only_for_each; intros ?
    | apply raises_only_on_business_layer
    | match goal with
      | |- raises_only _ (match ?x with inl _ => _ | inr _ => _ end) =>
          destruct x
      | |- raises_only _ (match ?x with Some _ => _ | None => _ end) =>
          destruct x
      | |- raises_only _ (let (_, _) := ?x in _) => destruct x
      end ].

(** With the default formatter no method of the business layer raises. *)
Lemma display_record_returns (index : Z) :
  raises_only P
    (display_record index : M (BusinessLayer DefaultRecordFormatter) unit).
Proof.
  unfold display_record. apply raises_only_bind; [solve_raises | intros self].
  destruct ((0 <=? index) && (index <? len (records self))) eqn:Hguard;
    [| solve_raises].
  destruct (getitem_in_range _ _ Hguard) as [record ->]. solve_raises.
Qed.

Lemma edit_record_returns {F} (index : Z) (record : Record) :
  raises_only P (edit_record index record : M (BusinessLayer F) unit).
Proof.
  unfold edit_record, set_records.
  apply raises_only_bind; [solve_raises | intros self].
  destruct ((0 <=? index) && (index <? len (records self))) eqn:Hguard;
    [| solve_raises].
  destruct (setitem_in_range _ _ record Hguard) as [l' ->]. solve_raises.
Qed.

Lemma delete_record_returns {F} (index : Z) :
  raises_only P (delete_record index : M (BusinessLayer F) unit).
Proof.
  unfold delete_record, set_records.
  apply raises_only_bind; [solve_raises | intros self].
  destruct ((0 <=? index) && (index <? len (records self))) eqn:Hguard;
    [| solve_raises].
  destruct (delitem_in_range _ _ Hguard) as [l' ->]. solve_raises.
Qed.

Lemma display_records_returns :
  raises_only P
    (display_records : M (BusinessLayer DefaultRecordFormatter) unit).
Proof.
  unfold display_records.
  apply raises_only_bind; [solve_raises | intros self].
  apply raises_only_for_each. intros [index record].
  apply raises_only_bind; [solve_raises | intros _].
  apply raises_only_bind; [apply display_record_returns | intros _].
  destruct ((index + 1) mod 10 =? 0); solve_raises.
Qed.

Lemma add_record_returns {F} (record : Record) :
  raises_only P (add_record record : M (BusinessLayer F) unit).
Proof. unfold add_record, set_records. solve_raises. Qed.

Lemma load_records_returns {F} :
  raises_only P (load_records : M (BusinessLayer F) unit).
Proof. unfold load_records. solve_raises. destruct e; solve_raises. Qed.

Lemma generate_bar_chart_returns {F} :
  raises_only P (generate_bar_chart : M (BusinessLayer F) unit).
Proof. unfold generate_bar_chart. solve_raises. Qed.

End Escapes.

Section StartEscapes.

Lemma input_raises_EOFError {O} (prompt : string) :
  raises_only bad_number_or_end_of_input
    (input prompt : M O string).
Proof.
  intros s e s'. unfold input.
  destruct (stdin _); [intros [= <- _]; now right | intros [=]].
Qed.

Lemma int_raises_ValueError {O} (text : string) :
  raises_only bad_number_or_end_of_input
    (lift_result (int text) : M O Z).
Proof.
  intros s e s'. unfold lift_result, int.
  destruct (lstrip text) as [| c t].
  - intros [= <- _]. left. eauto.
  - repeat match goal with
           | |- context [let '(_, _) := ?x in _] => destruct x
           | |- context [match ?x with _ => _ end] => destruct x
           | |- context [if ?b then _ else _] => destruct b
           end;
      intros [= <- _]; left; eauto.
Qed.

Lemma create_record_raises {O} :
  raises_only bad_number_or_end_of_input (create_record : M O Record).
Proof.
  unfold create_record.
  repeat (apply raises_only_bind; [apply input_raises_EOFError | intros ?]).
  apply raises_only_ret.
Qed.

Lemma start_turn_raises :
  raises_only bad_number_or_end_of_input
    (start_turn : M (PresentationLayer DefaultRecordFormatter) control).
Proof.
  unfold start_turn.
  apply raises_only_bind; [apply raises_only_get_self | intros self].
  apply raises_only_bind; [apply raises_only_print | intros _].
  apply raises_only_bind.
  { unfold display_menu.
    repeat (apply raises_only_bind; [apply raises_only_print | intros _]).
    apply raises_only_print. }
  intros _.
  apply raises_only_bind; [apply input_raises_EOFError | intros choice].
  repeat match goal with
         | |- raises_only _ (if ?b then _ else _) => destruct b
         end.
  - apply raises_only_bind; [| intros _; apply raises_only_ret].
    apply raises_only_on_business_layer, load_records_returns.
  - apply raises_only_bind; [| intros _; apply raises_only_ret].
    apply raises_only_on_business_layer, display_records_returns.
  - apply raises_only_bind; [apply create_record_raises | intros record].
    apply raises_only_bind; [| intros _; apply raises_only_ret].
    apply raises_only_on_business_layer, add_record_returns.
  - apply raises_only_bind; [| intros _; apply raises_only_ret].
    unfold select_display_edit_record.
    apply raises_only_bind; [apply input_raises_EOFError | intros text].
    apply raises_only_bind; [apply int_raises_ValueError | intros n].
    apply raises_only_bind; [apply raises_only_get_self | intros self'].
    destruct ((0 <=? n - 1) && _); [| apply raises_only_print].
    apply raises_only_bind;
      [apply raises_only_on_business_layer, display_record_returns
      | intros _].
    apply raises_only_bind; [apply input_raises_EOFError | intros answer].
    destruct (String.eqb _ _); [| apply raises_only_ret].
    apply raises_only_bind; [apply create_record_raises | intros record].
    apply raises_only_on_business_layer, edit_record_returns.
  - apply raises_only_bind; [| intros _; apply raises_only_ret].
    unfold PresentationLayer_delete_record.
    apply raises_only_bind; [apply input_raises_EOFError | intros text].
    apply raises_only_bind; [apply int_raises_ValueError | intros n].
    apply raises_only_on_business_layer, delete_record_returns.
  - apply raises_only_bind; [| intros _; apply raises_only_ret].
    apply raises_only_on_business_layer, generate_bar_chart_returns.
  - apply raises_only_ret.
  - apply raises_only_bind; [apply raises_only_print | intros _].
    apply raises_only_ret.
Qed.

(** With the default formatter, the only exceptions that leave [start] are
    the [ValueError] of [int] at an index prompt and the end of the input;
    every other bad input is reported and the loop goes on. *)
Lemma start_raises (fuel : nat)
  (s : State (PresentationLayer DefaultRecordFormatter)) (e : exn)
  (s' : State (PresentationLayer DefaultRecordFormatter)) :
  start fuel s = Some (inl e, s') -> bad_number_or_end_of_input e.
Proof.
  revert s. induction fuel as [| fuel IH]; intros s; [discriminate |].
  cbn [start]. destruct (start_turn s) as [[e1 | [|]] s1] eqn:Hturn.
  - intros [= <- _]. exact (start_turn_raises _ _ _ Hturn).
  - apply IH.
  - discriminate.
Qed.

End StartEscapes.

(** C2. Text that is not a number, typed where menu entries 4 and 5 ask for
    an index, makes [int] raise [ValueError]; nothing catches it, and it
    leaves [start], whatever the number of turns allowed.  The records are
    untouched and no message about the bad input is printed. *)
Theorem non_numeric_index_ends_start (fuel : nat) :
  (exists s',
     start (S fuel) (sample_session [sample_record] ["5"; "abc"])
     = Some (inl (ValueError "invalid literal for int() with base 10: 'abc'"),
             s')
     /\ last (stdout (world s')) = Some (Prompt "Enter record index to delete: "))
  /\ (exists s',
     start (S fuel) (sample_session [sample_record] ["4"; "one"])
     = Some (inl (ValueError "invalid literal for int() with base 10: 'one'"),
             s')
     /\ last (stdout (world s')) = Some (Prompt "Enter record index to select: ")).
Proof.
  split.
  - destruct (start_turn (sample_session [sample_record] ["5"; "abc"]))
      as [r s'] eqn:Hturn.
    exists s'. cbn [start]. rewrite Hturn.
    vm_compute in Hturn. injection Hturn as <- <-. split; reflexivity.
  - destruct (start_turn (sample_session [sample_record] ["4"; "one"]))
      as [r s'] eqn:Hturn.
    exists s'. cbn [start]. rewrite Hturn.
    vm_compute in Hturn. injection Hturn as <- <-. split; reflexivity.
Qed.

(** ** The reader, character by character *)

Section ReaderSteps.

Import csv.

Lemma append_nil_l (b : string) : EmptyString +:+ b = b.
Proof. reflexivity. Qed.

Lemma append_cons (c : ascii) (a b : string) :
  String c a +:+ b = String c (a +:+ b).
Proof. reflexivity. Qed.

Lemma append_nil_r (a : string) : a +:+ EmptyString = a.
Proof.
  induction a as [| c a IH]; [reflexivity |].
  now rewrite append_cons, IH.
Qed.

Lemma append_assoc (a b c : string) : (a +:+ b) +:+ c = a +:+ (b +:+ c).
Proof.
  induction a as [| x a IH]; [reflexivity |].
  now rewrite !append_cons, IH.
Qed.

Lemma readlines_nonempty (c : ascii) (t : string) :
  exists line rest, readlines (String c t) = line :: rest.
Proof.
  simpl. destruct (Ascii.eqb c LF); [eauto |].
  destruct (readlines t); eauto.
Qed.

(** A character that is not LF, with more text after it, is fed to the
    parser and the reading goes on inside the same line. *)
Lemma rows_of_text_char (self : ReaderObj) (c c' : ascii) (t : string) :
  c <> LF ->
  rows_of_text self (String c (String c' t))
  = match parse_process_char self (Some c) with
    | inl e => ([], Some e)
    | inr self' => rows_of_text self' (String c' t)
    end.
Proof.
  intros Hc. unfold rows_of_text.
  destruct (readlines_nonempty c' t) as (line & rest & Hlines).
  change (readlines (String c (String c' t)))
    with (if Ascii.eqb c LF then String c EmptyString :: readlines (String c' t)
          else match readlines (String c' t) with
               | [] => [String c EmptyString]
               | line :: rest => String c line :: rest
               end).
  rewrite (proj2 (Ascii.eqb_neq c LF) Hc), Hlines.
  cbn [reader_rows]. unfold feed_line. cbn [process_line].
  destruct (parse_process_char self (Some c)); reflexivity.
Qed.

(** LF ends the line: the parser gets LF, then the end-of-line marker, and
    the row is yielded if that closes the record. *)
Lemma rows_of_text_LF (self : ReaderObj) (t : string) :
  rows_of_text self (String LF t)
  = match feed_line self (String LF EmptyString) with
    | inl e => ([], Some e)
    | inr self' =>
        if is_START_RECORD (state self')
        then cons_row (fields self') (rows_of_text parse_reset t)
        else rows_of_text self' t
    end.
Proof. reflexivity. Qed.

Lemma app_cons_shape (x : string) (d : ascii) (tail : string) :
  exists c t, x +:+ String d tail = String c t.
Proof.
  destruct x; [rewrite append_nil_l | rewrite append_cons]; eauto.
Qed.

Lemma parse_add_char_ok st fs buf c :
  (N.of_nat (length buf) < field_limit)%N ->
  parse_add_char (parser st fs buf) c = inr (parser st fs (c :: buf)).
Proof.
  intros Hlen. unfold parse_add_char, parser. cbn [field_len].
  rewrite (proj2 (N.leb_gt _ _) Hlen). cbn [state fields field].
  f_equal. f_equal. cbn [length]. lia.
Qed.

Lemma length_push f buf :
  length (push f buf) = (String.length f + length buf)%nat.
Proof.
  revert buf. induction f as [| c f IH]; intros buf; simpl; [reflexivity |].
  rewrite IH. simpl. lia.
Qed.

Lemma string_of_rev_acc buf acc :
  fold_left (fun s c => String c s) buf acc = string_of_rev buf +:+ acc.
Proof.
  unfold string_of_rev. revert acc.
  induction buf as [| c buf IH]; intros acc; simpl; [reflexivity |].
  rewrite IH, (IH (String c EmptyString)).
  now rewrite append_assoc.
Qed.

Lemma string_of_rev_push f buf :
  string_of_rev (push f buf) = string_of_rev buf +:+ f.
Proof.
  revert buf. induction f as [| c f IH]; intros buf; simpl.
  - now rewrite append_nil_r.
  - rewrite IH. unfold string_of_rev at 1. simpl.
    rewrite string_of_rev_acc. now rewrite append_assoc.
Qed.

Lemma string_of_rev_push_nil f : string_of_rev (push f []) = f.
Proof. now rewrite string_of_rev_push. Qed.

End ReaderSteps.

(** ** Reading back one written field *)

Section FieldRoundTrip.

Import csv.

Lemma needs_quoting_false (c : ascii) :
  needs_quoting c = false ->
  c <> comma /\ c <> dquote /\ c <> LF /\ c <> CR.
Proof.
  unfold needs_quoting. intros H.
  repeat (apply orb_false_iff in H as [H ?]).
  repeat split; apply Ascii.eqb_neq; assumption.
Qed.

Lemma is_newline_false (c : ascii) : c <> LF -> c <> CR -> is_newline c = false.
Proof.
  intros H1 H2. unfold is_newline.
  now rewrite (proj2 (Ascii.eqb_neq _ _) H1), (proj2 (Ascii.eqb_neq _ _) H2).
Qed.

Lemma Some_neq_decide (c d : ascii) :
  c <> d -> bool_decide (Some c = Some d) = false.
Proof. intros H. apply bool_decide_eq_false_2. congruence. Qed.

Lemma process_plain_IN_FIELD fs buf c :
  needs_quoting c = false ->
  (N.of_nat (length buf) < field_limit)%N ->
  parse_process_char (parser IN_FIELD fs buf) (Some c)
  = inr (parser IN_FIELD fs (c :: buf)).
Proof.
  intros Hc Hlen. destruct (needs_quoting_false c Hc) as (H1 & H2 & H3 & H4).
  unfold parse_process_char. cbn [state parser is_end_of_line].
  rewrite (is_newline_false c H3 H4), (Some_neq_decide c comma H1).
  now apply parse_add_char_ok.
Qed.

Lemma process_plain_START_FIELD fs buf c :
  needs_quoting c = false ->
  (N.of_nat (length buf) < field_limit)%N ->
  parse_process_char (parser START_FIELD fs buf) (Some c)
  = inr (parser IN_FIELD fs (c :: buf)).
Proof.
  intros Hc Hlen. destruct (needs_quoting_false c Hc) as (H1 & H2 & H3 & H4).
  unfold parse_process_char, in_START_FIELD. cbn [state parser is_end_of_line].
  rewrite (is_newline_false c H3 H4), (Some_neq_decide c dquote H2),
    (Some_neq_decide c comma H1).
  fold (parser START_FIELD fs buf).
  now rewrite (parse_add_char_ok START_FIELD fs buf c Hlen).
Qed.

Lemma process_char_IN_QUOTED_FIELD fs buf c :
  c <> dquote ->
  (N.of_nat (length buf) < field_limit)%N ->
  parse_process_char (parser IN_QUOTED_FIELD fs buf) (Some c)
  = inr (parser IN_QUOTED_FIELD fs (c :: buf)).
Proof.
  intros Hc Hlen. unfold parse_process_char. cbn [state parser].
  rewrite (proj2 (Ascii.eqb_neq _ _) Hc).
  fold (parser IN_QUOTED_FIELD fs buf). now apply parse_add_char_ok.
Qed.

Lemma process_quote_IN_QUOTED_FIELD fs buf :
  parse_process_char (parser IN_QUOTED_FIELD fs buf) (Some dquote)
  = inr (parser QUOTE_IN_QUOTED_FIELD fs buf).
Proof. reflexivity. Qed.

Lemma process_quote_QUOTE_IN_QUOTED_FIELD fs buf :
  (N.of_nat (length buf) < field_limit)%N ->
  parse_process_char (parser QUOTE_IN_QUOTED_FIELD fs buf) (Some dquote)
  = inr (parser IN_QUOTED_FIELD fs (dquote :: buf)).
Proof.
  intros Hlen. unfold parse_process_char. cbn [state parser].
  rewrite bool_decide_eq_true_2 by reflexivity.
  fold (parser QUOTE_IN_QUOTED_FIELD fs buf).
  now rewrite (parse_add_char_ok QUOTE_IN_QUOTED_FIELD fs buf dquote Hlen).
Qed.

(** The characters of an unquoted field land in the buffer. *)
Lemma in_field_chars f fs buf d tail :
  any_char needs_quoting f = false ->
  (N.of_nat (String.length f + length buf) <= field_limit)%N ->
  rows_of_text (parser IN_FIELD fs buf) (f +:+ String d tail)
  = rows_of_text (parser IN_FIELD fs (push f buf)) (String d tail).
Proof.
  revert buf. induction f as [| c f IH]; intros buf Hplain Hlen.
  - reflexivity.
  - cbn [any_char] in Hplain. apply orb_false_iff in Hplain as [Hc Hf].
    cbn [String.length] in Hlen.
    rewrite append_cons.
    destruct (app_cons_shape f d tail) as (c' & t' & Hshape).
    rewrite Hshape, rows_of_text_char
      by (apply (needs_quoting_false c Hc)).
    rewrite process_plain_IN_FIELD by (trivial; lia).
    rewrite <- Hshape. cbn [push]. apply IH; [exact Hf |].
    cbn [length]. lia.
Qed.

(** So do the characters between the quotes of a quoted field, doubled
    quotes as one quote, line feeds included. *)
Lemma quoted_chars f fs buf tail :
  (N.of_nat (String.length f + length buf) <= field_limit)%N ->
  rows_of_text (parser IN_QUOTED_FIELD fs buf)
    (join_append_data f +:+ String dquote tail)
  = rows_of_text (parser IN_QUOTED_FIELD fs (push f buf)) (String dquote tail).
Proof.
  revert buf. induction f as [| c f IH]; intros buf Hlen.
  - reflexivity.
  - cbn [String.length] in Hlen. cbn [join_append_data push].
    assert (Hnext : (N.of_nat (String.length f + length (c :: buf))
                     <= field_limit)%N) by (cbn [length]; lia).
    destruct (app_cons_shape (join_append_data f) dquote tail)
      as (c' & t' & Hshape).
    destruct (Ascii.eqb_spec c dquote) as [-> | Hq].
    + rewrite !append_cons, rows_of_text_char by discriminate.
      rewrite process_quote_IN_QUOTED_FIELD.
      rewrite Hshape, rows_of_text_char by discriminate.
      rewrite process_quote_QUOTE_IN_QUOTED_FIELD by lia.
      rewrite <- Hshape. now apply IH.
    + rewrite append_cons. destruct (Ascii.eqb_spec c LF) as [-> | Hlf].
      * rewrite rows_of_text_LF. unfold feed_line. cbn [process_line].
        rewrite process_char_IN_QUOTED_FIELD by (trivial; lia).
        cbn. now apply IH.
      * rewrite Hshape, rows_of_text_char by exact Hlf.
        rewrite process_char_IN_QUOTED_FIELD by (trivial; lia).
        rewrite <- Hshape. now apply IH.
Qed.

(** A written field, read from the start of a field, leaves the parser
    holding that field. *)
Lemma field_read f fs d tail :
  (N.of_nat (String.length f) <= field_limit)%N ->
  exists self',
    after_field fs f self'
    /\ rows_of_text (parser START_FIELD fs []) (join_append f +:+ String d tail)
       = rows_of_text self' (String d tail).
Proof.
  intros Hlen. unfold join_append.
  destruct (any_char needs_quoting f) eqn:Hq.
  - exists (parser QUOTE_IN_QUOTED_FIELD fs (push f [])). split.
    { right. right. reflexivity. }
    rewrite append_cons, append_assoc, append_cons, append_nil_l.
    destruct (app_cons_shape (join_append_data f) dquote (String d tail))
      as (c' & t' & Hshape).
    rewrite Hshape, rows_of_text_char by discriminate.
    change (parse_process_char (parser START_FIELD fs []) (Some dquote))
      with (inr (parser IN_QUOTED_FIELD fs []) : exn + ReaderObj).
    rewrite <- Hshape, quoted_chars by (cbn [length]; lia).
    rewrite rows_of_text_char by discriminate.
    now rewrite process_quote_IN_QUOTED_FIELD.
  - destruct f as [| c f].
    + exists (parser START_FIELD fs []). split; [| reflexivity].
      right. left. split; reflexivity.
    + exists (parser IN_FIELD fs (push (String c f) [])). split.
      { left. reflexivity. }
      cbn [any_char] in Hq. apply orb_false_iff in Hq as [Hc Hf].
      cbn [String.length] in Hlen.
      rewrite append_cons.
      destruct (app_cons_shape f d tail) as (c' & t' & Hshape).
      rewrite Hshape, rows_of_text_char by (apply (needs_quoting_false c Hc)).
      rewrite process_plain_START_FIELD by (trivial; cbn [length]; lia).
      rewrite <- Hshape. cbn [push].
      apply in_field_chars; [exact Hf | cbn [length]; lia].
Qed.

End FieldRoundTrip.

(** ** Reading back written rows *)

Section RowRoundTrip.

Import csv.

Lemma after_field_comma fs f self :
  after_field fs f self ->
  parse_process_char self (Some comma)
  = inr (parser START_FIELD (fs ++ [f])%list []).
Proof.
  intros [-> | [[-> ->] | ->]]; unfold parse_process_char, in_START_FIELD;
    cbn -[string_of_rev push bool_decide];
    rewrite ?(Some_neq_decide comma dquote) by discriminate;
    rewrite ?bool_decide_eq_true_2 by reflexivity;
    unfold parse_save_field, set_state, parser;
    cbn -[string_of_rev push bool_decide];
    rewrite ?string_of_rev_push_nil; reflexivity.
Qed.

Lemma after_field_LF fs f self :
  after_field fs f self ->
  feed_line self (String LF EmptyString)
  = inr (parser START_RECORD (fs ++ [f])%list []).
Proof.
  intros [-> | [[-> ->] | ->]]; unfold feed_line, process_line,
    parse_process_char, in_START_FIELD;
    cbn -[string_of_rev push bool_decide];
    rewrite ?(Some_neq_decide LF dquote) by discriminate;
    rewrite ?(Some_neq_decide LF comma) by discriminate;
    unfold parse_save_field, set_state, parser;
    cbn -[string_of_rev push bool_decide];
    rewrite ?string_of_rev_push_nil; reflexivity.
Qed.

(** The rest of a written row, read from the start of a field. *)
Lemma row_read_from_field (row : list string) (fs : list string)
  (rest : string) :
  row <> [] ->
  Forall fits row ->
  rows_of_text (parser START_FIELD fs [])
    (join_fields (map join_append row) +:+ String LF rest)
  = cons_row (fs ++ row)%list (rows_of_text parse_reset rest).
Proof.
  revert fs. induction row as [| f row IH]; intros fs Hne Hfits; [congruence |].
  apply Forall_cons in Hfits as [Hf Hrow].
  destruct row as [| f' row].
  - cbn [map join_fields].
    destruct (field_read f fs LF rest Hf) as (self' & Hafter & ->).
    rewrite rows_of_text_LF, (after_field_LF _ _ _ Hafter). reflexivity.
  - change (join_fields (map join_append (f :: f' :: row)))
      with (join_append f
            +:+ String comma (join_fields (map join_append (f' :: row)))).
    rewrite append_assoc, append_cons.
    destruct (field_read f fs comma
                (join_fields (map join_append (f' :: row)) +:+ String LF rest)
                Hf) as (self' & Hafter & ->).
    destruct (app_cons_shape (join_fields (map join_append (f' :: row)))
                LF rest) as (c' & t' & Hshape).
    rewrite Hshape, rows_of_text_char by discriminate.
    rewrite (after_field_comma _ _ _ Hafter), <- Hshape.
    rewrite IH by (trivial; discriminate).
    now rewrite <- app_assoc.
Qed.

Lemma join_append_head f c t :
  join_append f = String c t -> is_newline c = false.
Proof.
  unfold join_append. destruct (any_char needs_quoting f) eqn:Hq.
  - intros [= <- _]. reflexivity.
  - intros ->. cbn [any_char] in Hq. apply orb_false_iff in Hq as [Hc _].
    destruct (needs_quoting_false c Hc) as (_ & _ & H3 & H4).
    now apply is_newline_false.
Qed.

(** At the start of a record a character that is no newline is treated as
    at the start of a field. *)
Lemma process_START_RECORD fs buf n c :
  is_newline c = false ->
  parse_process_char (mkReader START_RECORD fs buf n) (Some c)
  = parse_process_char (mkReader START_FIELD fs buf n) (Some c).
Proof. intros Hc. unfold parse_process_char. cbn. now rewrite Hc. Qed.

(** A written row of two cells or more, read by a fresh parser. *)
Lemma row_read (f f' : string) (row : list string) (rest : string) :
  Forall fits (f :: f' :: row) ->
  rows_of_text parse_reset
    (join_fields (map join_append (f :: f' :: row)) +:+ String LF rest)
  = cons_row (f :: f' :: row) (rows_of_text parse_reset rest).
Proof.
  intros Hfits.
  transitivity
    (rows_of_text (parser START_FIELD [] [])
       (join_fields (map join_append (f :: f' :: row)) +:+ String LF rest));
    [| now rewrite row_read_from_field by (trivial; discriminate)].
  change (join_fields (map join_append (f :: f' :: row)))
    with (join_append f
          +:+ String comma (join_fields (map join_append (f' :: row)))).
  rewrite append_assoc, append_cons.
  set (tail := join_fields (map join_append (f' :: row)) +:+ String LF rest).
  destruct (join_append f) as [| c t] eqn:Hhead.
  - rewrite append_nil_l.
    destruct (app_cons_shape (join_fields (map join_append (f' :: row)))
                LF rest) as (c' & t' & Hshape).
    subst tail. rewrite Hshape, !rows_of_text_char by discriminate.
    reflexivity.
  - pose proof (join_append_head _ _ _ Hhead) as Hc.
    rewrite append_cons.
    destruct (app_cons_shape t comma tail) as (c' & t' & Hshape).
    assert (Hlf : c <> LF).
    { intros ->. discriminate Hc. }
    rewrite Hshape, !rows_of_text_char by exact Hlf.
    unfold parse_reset, parser. cbn [length N.of_nat].
    now rewrite process_START_RECORD.
Qed.

(** Written rows, read back, are the rows. *)
Lemma reader_lf_text (rows : list (list string)) :
  Forall wide rows ->
  reader (readlines (lf_text rows)) = (rows, None).
Proof.
  unfold reader. fold (rows_of_text parse_reset (lf_text rows)).
  induction rows as [| row rows IH]; intros Hrows; [reflexivity |].
  apply Forall_cons in Hrows as [[Hlen Hfits] Hrows].
  destruct row as [| f [| f' row]]; cbn [length] in Hlen; try lia.
  cbn [lf_text]. rewrite (row_read f f' row _ Hfits), (IH Hrows).
  reflexivity.
Qed.

End RowRoundTrip.

(** ** Saving *)

Lemma set_file_set_file path text text' w :
  set_file path text' (set_file path text w) = set_file path text' w.
Proof.
  unfold set_file, update_files. cbn. now rewrite insert_insert_eq.
Qed.

Lemma write_run {O} (file text acc : string) (s : State O) :
  files (world s) !! file = Some acc ->
  write file text s
  = (inr tt, mkState (this s) (set_file file (acc +:+ text) (world s))).
Proof. intros Hacc. unfold write, set_file, update_files. now rewrite Hacc. Qed.

Lemma write_rows {F} (file : string) (rs : list Record) (acc : string)
  (s : State (BusinessLayer F)) :
  files (world s) !! file = Some acc ->
  for_each rs (fun record => write file (csv.writerow (attributes record))) s
  = (inr tt,
     mkState (this s) (set_file file (acc +:+ written_rows rs) (world s))).
Proof.
  revert acc s. induction rs as [| record rs IH]; intros acc s Hacc.
  - cbn [for_each written_rows]. rewrite append_nil_r.
    unfold ret, set_file, update_files. rewrite insert_id by exact Hacc.
    now destruct s as [o [fs oe oa pe i out]].
  - cbn [for_each written_rows].
    erewrite bind_ok by (apply write_run; exact Hacc).
    erewrite IH by (cbn; apply lookup_insert_eq).
    cbn [this world]. now rewrite set_file_set_file, append_assoc.
Qed.

(** What [save_records] does when the path can be opened: the file holds
    the header line and one line per record, and success is reported. *)
Lemma save_records_written {F} (path : string) (s : State (BusinessLayer F)) :
  os_error (world s) path = None ->
  save_records path s
  = (inr tt,
     mkState (this s)
       (emit (Print "Records saved successfully")
          (set_file path (saved_text (records (this s))) (world s)))).
Proof.
  intros Hos. unfold save_records, try_except.
  assert (Hopen : open_w path s
                  = (inr path,
                     mkState (this s) (set_file path EmptyString (world s)))).
  { unfold open_w. now rewrite Hos. }
  erewrite bind_ok by exact Hopen.
  erewrite bind_ok by (apply write_run; cbn; apply lookup_insert_eq).
  cbn [this world]. rewrite set_file_set_file, append_nil_l.
  erewrite bind_ok by reflexivity.
  erewrite bind_ok by (apply write_rows; cbn; apply lookup_insert_eq).
  cbn [this world]. rewrite set_file_set_file. reflexivity.
Qed.

(** ** Text mode on the written file *)

Section WrittenText.

Import csv.

Lemma contains_app c a b :
  contains c (a +:+ b) = contains c a || contains c b.
Proof.
  induction a as [| x a IH]; [reflexivity |].
  rewrite append_cons. cbn [contains]. rewrite IH.
  now destruct (Ascii.eqb x c).
Qed.

Lemma contains_CR_join_append_data f :
  contains CR (join_append_data f) = contains CR f.
Proof.
  induction f as [| c f IH]; [reflexivity |]. cbn [join_append_data].
  destruct (Ascii.eqb_spec c dquote) as [-> | Hq]; cbn [contains]; rewrite IH.
  - reflexivity.
  - reflexivity.
Qed.

Lemma contains_CR_join_append f :
  contains CR (join_append f) = contains CR f.
Proof.
  unfold join_append. destruct (any_char needs_quoting f); [| reflexivity].
  cbn [contains]. change (Ascii.eqb dquote CR) with false. cbv iota.
  rewrite contains_app, contains_CR_join_append_data.
  cbn [contains]. change (Ascii.eqb dquote CR) with false. cbv iota.
  now rewrite orb_false_r.
Qed.

Lemma contains_CR_join_fields (row : list string) :
  Forall (fun f => contains CR f = false) row ->
  contains CR (join_fields (map join_append row)) = false.
Proof.
  induction row as [| f row IH]; intros Hrow; [reflexivity |].
  apply Forall_cons in Hrow as [Hf Hrow].
  destruct row as [| f' row].
  - cbn [map join_fields]. now rewrite contains_CR_join_append.
  - change (join_fields (map join_append (f :: f' :: row)))
      with (join_append f
            +:+ String comma (join_fields (map join_append (f' :: row)))).
    rewrite contains_app, contains_CR_join_append, Hf.
    cbn [contains orb]. change (Ascii.eqb comma CR) with false. cbv iota.
    now apply IH.
Qed.

(** A line without CR before its terminator arrives with LF in place of
    the terminator. *)
Lemma universal_newlines_line (body rest : string) :
  contains CR body = false ->
  universal_newlines (body +:+ lineterminator +:+ rest)
  = body +:+ String LF (universal_newlines rest).
Proof.
  induction body as [| c body IH]; intros Hcr.
  - reflexivity.
  - cbn [contains] in Hcr. destruct (Ascii.eqb c CR) eqn:Hc; [discriminate |].
    rewrite !append_cons. cbn [universal_newlines]. rewrite Hc.
    now rewrite IH.
Qed.

Lemma join_fields_not_empty (x y : string) (l : list string) :
  String.eqb (join_fields (x :: y :: l)) EmptyString = false.
Proof.
  change (join_fields (x :: y :: l))
    with (x +:+ String comma (join_fields (y :: l))).
  destruct x; reflexivity.
Qed.

(** A row of two cells or more is written as its joined fields and the
    line terminator. *)
Lemma writerow_wide (v v' : value) (row : list value) :
  writerow (v :: v' :: row)
  = join_fields (map join_append (map cell_text (v :: v' :: row)))
    +:+ lineterminator.
Proof.
  unfold writerow.
  rewrite <- (map_map cell_text join_append (v :: v' :: row)).
  cbn [map]. rewrite join_fields_not_empty. now rewrite andb_false_r.
Qed.

End WrittenText.

(** ** Save, then load *)

Section RoundTrip.

Import csv.

Lemma clean_no_CR f : clean f = true -> contains CR f = false.
Proof.
  unfold clean. intros H. apply andb_true_iff in H as [H _].
  now apply negb_true_iff in H.
Qed.

Lemma clean_fits f : clean f = true -> fits f.
Proof.
  unfold clean, fits. intros H. apply andb_true_iff in H as [_ H].
  now apply N.leb_le in H.
Qed.

(** A clean record is seven clean strings. *)
Lemma clean_record_inv (record : Record) :
  clean_record record = true ->
  exists s1 s2 s3 s4 s5 s6 s7,
    record = mkRecord (Str s1) (Str s2) (Str s3) (Str s4) (Str s5) (Str s6)
               (Str s7)
    /\ Forall (fun f => clean f = true) [s1; s2; s3; s4; s5; s6; s7].
Proof.
  destruct record as [v1 v2 v3 v4 v5 v6 v7]. unfold clean_record.
  cbn [attributes forallb source latin_name english_name french_name year
         month number_otoliths].
  intros H. repeat (apply andb_true_iff in H as [? H]).
  destruct v1, v2, v3, v4, v5, v6, v7; try discriminate.
  do 7 eexists. split; [reflexivity |].
  repeat constructor; assumption.
Qed.

Lemma header_wide : wide header.
Proof.
  split; [cbn; lia |].
  unfold header, fits. repeat constructor; vm_compute; discriminate.
Qed.

Lemma cells_wide (record : Record) :
  clean_record record = true -> wide (cells record) /\ no_CR record.
Proof.
  intros Hclean.
  destruct (clean_record_inv record Hclean) as (s1 & s2 & s3 & s4 & s5 & s6
    & s7 & -> & Hall).
  unfold no_CR.
  change (cells (mkRecord (Str s1) (Str s2) (Str s3) (Str s4) (Str s5)
                   (Str s6) (Str s7)))
    with [s1; s2; s3; s4; s5; s6; s7].
  split; [split; [cbn; lia |] |].
  - eapply Forall_impl; [exact Hall | apply clean_fits].
  - eapply Forall_impl; [exact Hall | apply clean_no_CR].
Qed.

Lemma writerow_attributes (record : Record) :
  writerow (attributes record)
  = join_fields (map join_append (cells record)) +:+ lineterminator.
Proof. unfold attributes, cells. apply writerow_wide. Qed.

(** Text mode turns what [save_records] wrote into the header line and the
    lines of the records, each ended by LF. *)
Lemma universal_newlines_written_rows (rs : list Record) :
  Forall no_CR rs ->
  universal_newlines (written_rows rs) = lf_text (map cells rs).
Proof.
  induction rs as [| record rs IH]; intros Hrs; [reflexivity |].
  apply Forall_cons in Hrs as [Hrecord Hrs].
  cbn [written_rows map lf_text].
  rewrite writerow_attributes, append_assoc.
  rewrite universal_newlines_line
    by (apply contains_CR_join_fields, Hrecord).
  now rewrite IH.
Qed.

Lemma universal_newlines_saved_text (rs : list Record) :
  Forall no_CR rs ->
  universal_newlines (saved_text rs) = lf_text (header :: map cells rs).
Proof.
  intros Hrs. unfold saved_text.
  change (map Str header)
    with [Str col_source; Str col_latin_name; Str col_english_name;
          Str col_french_name; Str col_year; Str col_month;
          Str col_number_otoliths].
  rewrite writerow_wide, append_assoc.
  rewrite universal_newlines_line by (vm_compute; reflexivity).
  now rewrite universal_newlines_written_rows.
Qed.

Lemma filter_cells (rs : list Record) :
  filter (fun r => nonempty_row r = true) (map cells rs) = map cells rs.
Proof.
  induction rs as [| record rs IH]; [reflexivity |].
  cbn [map]. rewrite filter_cons_True by reflexivity. now rewrite IH.
Qed.

(** The row of a record with string attributes, looked up under the header,
    gives the record back. *)
Lemma record_of_row_cells (s1 s2 s3 s4 s5 s6 s7 : string) :
  record_of_row (to_dict header [s1; s2; s3; s4; s5; s6; s7])
  = inr (mkRecord (Str s1) (Str s2) (Str s3) (Str s4) (Str s5) (Str s6)
           (Str s7)).
Proof. vm_compute. reflexivity. Qed.

Lemma loaded_cells (rs : list Record) :
  Forall (fun record => clean_record record = true) rs ->
  loaded (map (to_dict header) (map cells rs)) None = (rs, None).
Proof.
  induction rs as [| record rs IH]; intros Hrs; [reflexivity |].
  apply Forall_cons in Hrs as [Hrecord Hrs].
  destruct (clean_record_inv record Hrecord) as (s1 & s2 & s3 & s4 & s5 & s6
    & s7 & -> & _).
  cbn [map loaded].
  change (cells (mkRecord (Str s1) (Str s2) (Str s3) (Str s4) (Str s5)
                   (Str s6) (Str s7)))
    with [s1; s2; s3; s4; s5; s6; s7].
  rewrite record_of_row_cells, (IH Hrs). reflexivity.
Qed.

(** Parsing what was saved gives the records that were saved. *)
Lemma parse_file_saved_text (rs : list Record) :
  Forall (fun record => clean_record record = true) rs ->
  parse_file (saved_text rs) = (rs, None).
Proof.
  intros Hrs. unfold parse_file, DictReader.
  rewrite (universal_newlines_saved_text rs)
    by (eapply Forall_impl; [exact Hrs | apply cells_wide]).
  rewrite reader_lf_text.
  - cbn [fst snd]. rewrite filter_cells. now apply loaded_cells.
  - constructor; [apply header_wide |].
    apply Forall_map. eapply Forall_impl; [exact Hrs |].
    intros record Hrecord. apply cells_wide, Hrecord.
Qed.

End RoundTrip.

(** ** A field beyond the reader's limit *)

Section FieldLimit.

Import csv.

Lemma repeat_char_snoc c n :
  repeat_char c (S n) = repeat_char c n +:+ String c EmptyString.
Proof.
  induction n as [| n IH]; [reflexivity |].
  change (repeat_char c (S (S n))) with (String c (repeat_char c (S n))).
  rewrite IH at 1. reflexivity.
Qed.

Lemma length_repeat_char c n : String.length (repeat_char c n) = n.
Proof. induction n as [| n IH]; [reflexivity |]. cbn [repeat_char String.length]. now rewrite IH. Qed.

Lemma any_char_repeat_char p c n :
  p c = false -> any_char p (repeat_char c n) = false.
Proof.
  intros Hc. induction n as [| n IH]; [reflexivity |].
  cbn [repeat_char any_char]. now rewrite Hc, IH.
Qed.

Lemma contains_repeat_char c x n :
  Ascii.eqb x c = false -> contains c (repeat_char x n) = false.
Proof.
  intros Hc. induction n as [| n IH]; [reflexivity |].
  cbn [repeat_char contains]. now rewrite Hc, IH.
Qed.

(** A row that starts with an unquoted field of one character more than
    the limit makes the reader raise. *)
Lemma overlong_row_rejected (n : nat) (c d : ascii) (tail : string) :
  needs_quoting c = false ->
  N.of_nat n = field_limit ->
  rows_of_text parse_reset (repeat_char c (S n) +:+ String d tail)
  = ([], Some (csv_Error "field larger than field limit (131072)")).
Proof.
  intros Hc Hn. destruct (needs_quoting_false c Hc) as (H1 & H2 & H3 & H4).
  destruct n as [| m]; [discriminate Hn |].
  change (repeat_char c (S (S m))) with (String c (repeat_char c (S m))).
  rewrite append_cons.
  destruct (app_cons_shape (repeat_char c (S m)) d tail) as (c' & t' & Hshape).
  rewrite Hshape, rows_of_text_char by exact H3.
  unfold parse_reset.
  rewrite process_START_RECORD by (now apply is_newline_false).
  change (mkReader START_FIELD [] [] 0) with (parser START_FIELD [] []).
  rewrite process_plain_START_FIELD
    by (trivial; cbn [length N.of_nat]; lia).
  rewrite <- Hshape, repeat_char_snoc, append_assoc, append_cons, append_nil_l.
  rewrite in_field_chars.
  - rewrite rows_of_text_char by exact H3.
    unfold parse_process_char. cbn [state parser is_end_of_line].
    rewrite (is_newline_false c H3 H4), (Some_neq_decide c comma H1).
    unfold parse_add_char. cbn [field_len parser].
    rewrite length_push, length_repeat_char. cbn [length].
    replace (N.of_nat (m + 1)) with field_limit by lia.
    now rewrite N.leb_refl.
  - now apply any_char_repeat_char.
  - rewrite length_repeat_char. cbn [length]. lia.
Qed.

Lemma long_field_shape :
  long_field = repeat_char "a" (S (N.to_nat field_limit)).
Proof.
  unfold long_field. now rewrite N.add_1_r, N2Nat.inj_succ.
Qed.

Lemma long_field_too_long : ~ fits long_field.
Proof.
  unfold fits. rewrite long_field_shape, length_repeat_char.
  rewrite Nat2N.inj_succ, N2Nat.id. lia.
Qed.

Lemma join_append_long_field : join_append long_field = long_field.
Proof.
  unfold join_append. rewrite long_field_shape.
  now rewrite any_char_repeat_char by reflexivity.
Qed.

Lemma reader_rows_of_text (text : string) :
  reader (readlines text) = rows_of_text parse_reset text.
Proof. reflexivity. Qed.

(** Reading the lines written for [record_with_long_field]: the header
    row, then the reader's error. *)
Lemma reader_long_field :
  reader (readlines (lf_text [header; cells record_with_long_field]))
  = ([header], Some (csv_Error "field larger than field limit (131072)")).
Proof.
  rewrite reader_rows_of_text. cbn [lf_text].
  change header with [col_source; col_latin_name; col_english_name;
                      col_french_name; col_year; col_month;
                      col_number_otoliths].
  rewrite row_read by apply header_wide.
  change (cells record_with_long_field)
    with [long_field; "Limanda ferruginea"; "Yellowtail Flounder";
          "Limande a queue jaune"; "1990"; "June"; "7"].
  change (join_fields (map join_append
            [long_field; "Limanda ferruginea"; "Yellowtail Flounder";
             "Limande a queue jaune"; "1990"; "June"; "7"]))
    with (join_append long_field
          +:+ String comma
                (join_fields (map join_append
                   ["Limanda ferruginea"; "Yellowtail Flounder";
                    "Limande a queue jaune"; "1990"; "June"; "7"]))).
  rewrite join_append_long_field, append_assoc, append_cons.
  rewrite long_field_shape.
  rewrite overlong_row_rejected by (first [apply N2Nat.id | reflexivity]).
  reflexivity.
Qed.

(** The file written for [record_with_long_field] parses to no record and
    the reader's error. *)
Lemma parse_file_long_field :
  parse_file (saved_text [record_with_long_field])
  = ([], Some (csv_Error "field larger than field limit (131072)")).
Proof.
  unfold parse_file, DictReader.
  rewrite universal_newlines_saved_text.
  - cbn [map]. rewrite reader_long_field. reflexivity.
  - constructor; [| constructor]. unfold no_CR.
    change (cells record_with_long_field)
      with [long_field; "Limanda ferruginea"; "Yellowtail Flounder";
            "Limande a queue jaune"; "1990"; "June"; "7"].
    constructor; [| repeat constructor].
    rewrite long_field_shape. now apply contains_repeat_char.
Qed.

End FieldLimit.

(** Saving, then constructing a business layer on the written file. *)
Lemma save_then_init {F} (s : State (BusinessLayer F)) (path : string)
  (fmt : F) :
  os_error (world s) path = None ->
  let parsed := parse_file (saved_text (records (this s))) in
  save_records path s
  = (inr tt,
     mkState (this s)
       (emit (Print "Records saved successfully")
          (set_file path (saved_text (records (this s))) (world s))))
  /\ BusinessLayer_init path fmt (world (snd (save_records path s)))
     = (inr tt,
        mkState (mkBusinessLayer path (fst parsed) fmt)
          (report (snd parsed)
             (emit (Print "Records saved successfully")
                (set_file path (saved_text (records (this s))) (world s))))).
Proof.
  intros Hos parsed. rewrite (save_records_written path s Hos).
  split; [reflexivity |]. cbn [snd world].
  apply BusinessLayer_init_loads; [exact Hos |].
  unfold set_file, update_files, emit. cbn [files].
  apply lookup_insert_eq.
Qed.

(** C5, as the code has it. For records whose seven attributes are strings
    without a carriage return and of at most 131072 characters: saving them
    to a path that can be opened succeeds, and a business layer constructed
    on the written file loads, without error, a list equal to the saved one,
    record by record and attribute by attribute. *)
Theorem save_then_load_round_trip {F} (s : State (BusinessLayer F))
  (path : string) (fmt : F) :
  os_error (world s) path = None ->
  Forall (fun record => clean_record record = true) (records (this s)) ->
  let saved := save_records path s in
  let reloaded := BusinessLayer_init path fmt (world (snd saved)) in
  fst saved = inr tt
  /\ fst reloaded = inr tt
  /\ records (this (snd reloaded)) = records (this s)
  /\ stdout (world (snd reloaded))
     = (stdout (world s) ++ [Print "Records saved successfully"])%list.
Proof.
  intros Hos Hclean saved reloaded. subst reloaded saved.
  destruct (save_then_init s path fmt Hos) as [-> ->].
  rewrite (parse_file_saved_text _ Hclean). cbn.
  repeat split; reflexivity.
Qed.

Lemma save_then_load_round_trip_witness :
  let s := sample_state [awkward_record; sample_record] [] in
  let saved := save_records "copy.csv" s in
  let reloaded :=
    BusinessLayer_init "copy.csv" DefaultRecordFormatter_new
      (world (snd saved)) in
  fst saved = inr tt
  /\ fst reloaded = inr tt
  /\ records (this (snd reloaded)) = [awkward_record; sample_record]
  /\ stdout (world (snd reloaded)) = [Print "Records saved successfully"].
Proof.
  apply (save_then_load_round_trip
           (sample_state [awkward_record; sample_record] [])
           "copy.csv" DefaultRecordFormatter_new).
  - reflexivity.
  - repeat constructor.
Defined.

(** C5 as stated fails: a carriage return inside a field comes back as a
    line feed; a record with a field of more than 131072 characters does
    not come back at all; and [load_records] called on the business layer
    that saved, which still holds its records, leaves every record twice. *)
Lemma round_trip_not_for_every_record :
  (let s := sample_state [record_with_CR] [] in
   let saved := save_records "copy.csv" s in
   let reloaded :=
     BusinessLayer_init "copy.csv" DefaultRecordFormatter_new
       (world (snd saved)) in
   fst saved = inr tt
   /\ fst reloaded = inr tt
   /\ records (this (snd reloaded)) = [record_with_LF]
   /\ records (this (snd reloaded)) <> records (this s))
  /\ (let s := sample_state [record_with_long_field] [] in
      let saved := save_records "copy.csv" s in
      let reloaded :=
        BusinessLayer_init "copy.csv" DefaultRecordFormatter_new
          (world (snd saved)) in
      fst saved = inr tt
      /\ fst reloaded = inr tt
      /\ records (this (snd reloaded)) = []
      /\ stdout (world (snd reloaded))
         = [Print "Records saved successfully";
            Print "An error occurred: field larger than field limit (131072)"]
      /\ records (this (snd reloaded)) <> records (this s))
  /\ (let saved := save_records "copy.csv" state_on_copy in
      let reloaded := load_records (snd saved) in
      fst saved = inr tt
      /\ fst reloaded = inr tt
      /\ records (this (snd reloaded)) = [sample_record; sample_record]).
Proof.
  split; [| split].
  - assert (Hload :
      records (this (snd (BusinessLayer_init "copy.csv"
        DefaultRecordFormatter_new
        (world (snd (save_records "copy.csv"
                       (sample_state [record_with_CR] [])))))))
      = [record_with_LF]) by (vm_compute; reflexivity).
    cbv zeta. rewrite Hload.
    repeat split; try (vm_compute; reflexivity). discriminate.
  - cbv zeta.
    destruct (save_then_init (sample_state [record_with_long_field] [])
                "copy.csv" DefaultRecordFormatter_new eq_refl) as [-> ->].
    change (records (this (sample_state [record_with_long_field] [])))
      with [record_with_long_field].
    rewrite parse_file_long_field.
    cbn [fst snd this world records report stdout emit set_file update_files
           sample_state world_with_input app load_report str_exn].
    repeat split; discriminate.
  - cbv zeta. repeat split; vm_compute; reflexivity.
Qed.

(** * Further properties of the code *)

(** ** The list of records *)

Lemma display_record_at {F} `{Formatter F} (s : State (BusinessLayer F))
  (index : Z) (record : Record) :
  0 <= index ->
  records (this s) !! Z.to_nat index = Some record ->
  display_record index s
  = match format_record (formatter (this s)) record with
    | inr text => (inr tt, mkState (this s) (emit (Print text) (world s)))
    | inl e => (inl e, s)
    end.
Proof.
  intros H0 Hrec. run.
  rewrite range_test_true.
  - rewrite (getitem_valid _ _ _ H0 Hrec). simpl.
    destruct (format_record (formatter (this s)) record); reflexivity.
  - apply lookup_lt_Some in Hrec. unfold len. lia.
Qed.

(** X1. [add_record] puts the record at the end of the list and reports
    it; [display_record] at the old length then prints that record as the
    formatter renders it. *)
Theorem add_record_then_display_last {F} `{Formatter F}
  (s : State (BusinessLayer F)) (record : Record) (text : string) :
  format_record (formatter (this s)) record = inr text ->
  let added := snd (add_record record s) in
  add_record record s
  = (inr tt,
     mkState
       (mkBusinessLayer (filename (this s)) (records (this s) ++ [record])
          (formatter (this s)))
       (emit (Print "Record added successfully.") (world s)))
  /\ display_record (len (records (this s))) added
     = (inr tt, mkState (this added) (emit (Print text) (world added))).
Proof.
  intros Hfmt added. split; [reflexivity |].
  rewrite (display_record_at added _ record).
  - subst added. cbn [snd add_record this formatter]. simpl. now rewrite Hfmt.
  - apply len_nonneg.
  - subst added. simpl. unfold len. rewrite Nat2Z.id.
    rewrite lookup_app_r by lia. now rewrite Nat.sub_diag.
Qed.

Lemma add_record_then_display_last_witness :
  let s := sample_state [sample_record] [] in
  let added := snd (add_record other_record s) in
  add_record other_record s
  = (inr tt,
     mkState
       (mkBusinessLayer (filename (this s))
          (records (this s) ++ [other_record]) (formatter (this s)))
       (emit (Print "Record added successfully.") (world s)))
  /\ display_record (len (records (this s))) added
     = (inr tt,
        mkState (this added)
          (emit (Print "Source: DFO, Latin Name: Limanda ferruginea, English Name: Yellowtail Flounder, French Name: Limande a queue jaune, Year: 1990, Month: June, Number of Otoliths: 7")
             (world added))).
Proof.
  apply (add_record_then_display_last (sample_state [sample_record] [])
           other_record).
  reflexivity.
Defined.

(** X2. Deleting at the index [add_record] has just filled undoes the
    addition: the list of records is what it was before the two calls. *)
Theorem add_record_then_delete_last {F} (s : State (BusinessLayer F))
  (record : Record) :
  let added := snd (add_record record s) in
  let deleted := delete_record (len (records (this s))) added in
  fst deleted = inr tt
  /\ this (snd deleted) = this s
  /\ stdout (world (snd deleted))
     = (stdout (world s)
        ++ [Print "Record added successfully.";
            Print "Record deleted successfully."])%list.
Proof.
  intros added deleted. subst deleted added.
  cbn [snd add_record]. run.
  rewrite range_test_true
    by (unfold len; rewrite length_app; cbn [length]; lia).
  unfold delitem. rewrite normalise_valid
    by (unfold len; rewrite length_app; cbn [length]; lia).
  unfold len. rewrite Nat2Z.id.
  replace (delete (length (records (this s)))
             (records (this s) ++ [record])%list)
    with (records (this s)).
  - simpl. destruct s as [[fn rs fmt] w]. simpl.
    repeat split. now rewrite <- app_assoc.
  - rewrite (delete_middle (records (this s)) [] record).
    now rewrite app_nil_r.
Qed.

(** X3. Of two edits at the same valid index the second one stands, and
    editing a record into itself changes nothing in the list. *)
Theorem edit_record_last_edit_stands {F} (s : State (BusinessLayer F))
  (index : Z) (r1 r2 : Record) :
  0 <= index < len (records (this s)) ->
  records (this (snd (edit_record index r2 (snd (edit_record index r1 s)))))
  = records (this (snd (edit_record index r2 s)))
  /\ (records (this s) !! Z.to_nat index = Some r1 ->
      this (snd (edit_record index r1 s)) = this s).
Proof.
  intros Hi. run.
  rewrite (range_test_true _ _ Hi). unfold setitem.
  rewrite (normalise_valid _ _ Hi). simpl.
  assert (Hlen : len (<[Z.to_nat index := r1]> (records (this s)))
                 = len (records (this s)))
    by (unfold len; now rewrite length_insert).
  rewrite Hlen, (range_test_true _ _ Hi).
  rewrite normalise_valid by (rewrite Hlen; exact Hi). simpl.
  split.
  - apply list_insert_insert_eq.
  - intros Hsame. rewrite list_insert_id by exact Hsame.
    now destruct s as [[fn rs fmt] w].
Qed.

Lemma edit_record_last_edit_stands_witness :
  let s := sample_state [sample_record; sample_record] [] in
  records (this (snd (edit_record 1 other_record
                        (snd (edit_record 1 sample_record s)))))
  = records (this (snd (edit_record 1 other_record s)))
  /\ (records (this s) !! Z.to_nat 1 = Some sample_record ->
      this (snd (edit_record 1 sample_record s)) = this s).
Proof.
  apply (edit_record_last_edit_stands
           (sample_state [sample_record; sample_record] []) 1
           sample_record other_record).
  unfold len. simpl. lia.
Defined.

(** ** Listing all records *)

Lemma emit_all_nil w : emit_all [] w = w.
Proof. destruct w. unfold emit_all. cbn. now rewrite app_nil_r. Qed.

Lemma emit_all_emit e es w : emit_all es (emit e w) = emit_all (e :: es) w.
Proof. unfold emit_all, emit. cbn. now rewrite <- app_assoc. Qed.

Lemma display_loop {F} `{Formatter F} (fmt : Record -> string)
  (suffix prefix : list Record) (s : State (BusinessLayer F)) :
  records (this s) = (prefix ++ suffix)%list ->
  (forall record, record ∈ suffix ->
     format_record (formatter (this s)) record = inr (fmt record)) ->
  for_each (enumerate_from (len prefix) suffix)
    (fun '(index, record) =>
       print ("Record " +:+ pretty (index + 1)) ;;
       display_record index ;;
       if (index + 1) mod 10 =? 0 then print "Program by Ben Nguyen"
       else ret tt) s
  = (inr tt,
     mkState (this s)
       (emit_all (listing_from fmt (len prefix) suffix) (world s))).
Proof.
  revert prefix s. induction suffix as [| record suffix IH];
    intros prefix s Hrs Hfmt.
  - cbn. rewrite emit_all_nil. now destruct s.
  - cbn [enumerate_from for_each listing_from].
    set (s1 := mkState (this s)
                 (emit (Print ("Record " +:+ pretty (len prefix + 1)))
                    (world s))).
    assert (Hshown : display_record (len prefix) s1
                     = (inr tt,
                        mkState (this s)
                          (emit (Print (fmt record)) (world s1)))).
    { rewrite (display_record_at s1 (len prefix) record).
      - cbn [this s1]. rewrite Hfmt by left. reflexivity.
      - apply len_nonneg.
      - cbn [this s1]. rewrite Hrs. unfold len. rewrite Nat2Z.id.
        rewrite lookup_app_r by lia. now rewrite Nat.sub_diag. }
    assert (Hnext : len (prefix ++ [record]) = len prefix + 1)
      by (unfold len; rewrite length_app; cbn [length]; lia).
    rewrite bind_assoc.
    erewrite bind_ok by reflexivity. fold s1.
    rewrite bind_assoc. erewrite bind_ok by exact Hshown.
    rewrite <- Hnext.
    destruct ((len (prefix ++ [record])) mod 10 =? 0) eqn:Hmark.
    + erewrite bind_ok by reflexivity.
      rewrite (IH (prefix ++ [record])%list).
      * cbn [this world]. subst s1. cbn [world].
        rewrite <- ?Hnext. now rewrite !emit_all_emit.
      * cbn [this]. now rewrite Hrs, <- app_assoc.
      * intros r Hr. cbn [this]. apply Hfmt. now right.
    + erewrite bind_ok by reflexivity.
      rewrite (IH (prefix ++ [record])%list).
      * cbn [this world]. subst s1. cbn [world].
        rewrite <- ?Hnext. now rewrite !emit_all_emit.
      * cbn [this]. now rewrite Hrs, <- app_assoc.
      * intros r Hr. cbn [this]. apply Hfmt. now right.
Qed.

(** X4. When the formatter renders every record of the list,
    [display_records] returns normally, changes nothing but the output, and
    prints for each record in order its ordinal line [Record k], counting
    from 1, then its formatted line, with the author line after every tenth
    record; an empty list prints nothing. *)
Theorem display_records_listing {F} `{Formatter F}
  (s : State (BusinessLayer F)) (fmt : Record -> string) :
  (forall record, record ∈ records (this s) ->
     format_record (formatter (this s)) record = inr (fmt record)) ->
  display_records s
  = (inr tt,
     mkState (this s)
       (emit_all (listing_from fmt 0 (records (this s))) (world s))).
Proof.
  intros Hfmt. unfold display_records.
  erewrite bind_ok by reflexivity.
  apply (display_loop fmt (records (this s)) [] s); [reflexivity | exact Hfmt].
Qed.

Lemma display_records_listing_witness :
  display_records (sample_state [sample_record; other_record] [])
  = (inr tt,
     mkState (this (sample_state [sample_record; other_record] []))
       (emit_all
          (listing_from
             (fun record =>
                match format_record DefaultRecordFormatter_new record with
                | inr text => text
                | inl _ => EmptyString
                end)
             0 [sample_record; other_record])
          (world (sample_state [sample_record; other_record] [])))).
Proof.
  apply (display_records_listing
           (sample_state [sample_record; other_record] [])).
  intros record _. reflexivity.
Defined.

(** X5. With the superclass [RecordFormatter] as formatter, whose
    [format_record] raises, [display_record] at a valid index raises
    [NotImplementedError] having printed and changed nothing, and
    [display_records] on a list that is not empty raises it right after the
    first ordinal line. *)
Theorem superclass_formatter_raises
  (s : State (BusinessLayer RecordFormatter)) (index : Z) :
  0 <= index < len (records (this s)) ->
  let e := NotImplementedError
             "Subclasses must implement format_record method" in
  display_record index s = (inl e, s)
  /\ display_records s
     = (inl e, mkState (this s) (emit (Print "Record 1") (world s))).
Proof.
  intros Hi e.
  destruct (lookup_lt_is_Some_2 (records (this s)) (Z.to_nat index))
    as [record Hrec]; [unfold len in Hi; lia |].
  split.
  - now rewrite (display_record_at s index record) by (trivial; lia).
  - unfold display_records. erewrite bind_ok by reflexivity.
    destruct (records (this s)) as [| first rest] eqn:Hrs.
    { unfold len in Hi. cbn in Hi. lia. }
    unfold enumerate. cbn [enumerate_from for_each].
    apply bind_err.
    erewrite bind_ok by reflexivity.
    apply bind_err.
    rewrite (display_record_at _ 0 first); [reflexivity | lia |].
    cbn [this]. now rewrite Hrs.
Qed.

Lemma superclass_formatter_raises_witness :
  let s := mkState
             (mkBusinessLayer dataset_filename [sample_record]
                RecordFormatter_new)
             (world_with_input []) in
  let e := NotImplementedError
             "Subclasses must implement format_record method" in
  display_record 0 s = (inl e, s)
  /\ display_records s
     = (inl e, mkState (this s) (emit (Print "Record 1") (world s))).
Proof.
  apply (superclass_formatter_raises
           (mkState
              (mkBusinessLayer dataset_filename [sample_record]
                 RecordFormatter_new)
              (world_with_input [])) 0).
  unfold len. simpl. lia.
Defined.

(** ** Loading *)

Lemma load_records_refused {F} (s : State (BusinessLayer F)) (e : exn) :
  fst (open_r (filename (this s)) s) = inl e ->
  load_records s
  = (inr tt, mkState (this s) (emit (Print (load_report e)) (world s))).
Proof.
  intros Hopen. unfold load_records, try_except.
  unfold bind at 1. unfold get_self at 1. unfold bind at 1.
  unfold open_r in *. cbn [this world] in *.
  destruct (os_error (world s) (filename (this s))) as [e' |].
  - cbn in Hopen. injection Hopen as ->. destruct e; reflexivity.
  - destruct (files (world s) !! filename (this s)); [discriminate |].
    cbn in Hopen. injection Hopen as <-. reflexivity.
Qed.

(** X6. Whatever the file is, [load_records] returns normally; it keeps
    the file name, and every record the list held stays where it was, in
    front of what the call adds; it reads no input and changes no file. *)
Theorem load_records_only_appends {F} (s : State (BusinessLayer F)) :
  let result := load_records s in
  fst result = inr tt
  /\ filename (this (snd result)) = filename (this s)
  /\ (exists new,
        records (this (snd result)) = (records (this s) ++ new)%list)
  /\ files (world (snd result)) = files (world s)
  /\ stdin (world (snd result)) = stdin (world s).
Proof.
  intros result. subst result.
  destruct (open_r (filename (this s)) s) as [[e | lines] s1] eqn:Hopen.
  - rewrite (load_records_refused s e) by now rewrite Hopen.
    repeat split. exists []. cbn. now rewrite app_nil_r.
  - unfold open_r in Hopen.
    destruct (os_error (world s) (filename (this s))) eqn:Hos;
      [discriminate |].
    destruct (files (world s) !! filename (this s)) as [text |] eqn:Hfile;
      [| discriminate].
    rewrite (load_records_opened s text Hos Hfile). cbn [fst snd this].
    repeat split; try (destruct (snd (parse_file text)); reflexivity).
    now exists (fst (parse_file text)).
Qed.

(** X7. The constructor starts from an empty list: on a file that opens,
    the records are exactly those the rows of the file give, up to the
    first row that fails; on a missing file the list is empty and
    [Error: File not found.] is printed.  Either way it returns normally. *)
Theorem constructor_loads_the_file {F} (path : string) (fmt : F)
  (w : World) :
  os_error w path = None ->
  BusinessLayer_init path fmt w
  = (inr tt,
     match files w !! path with
     | Some text =>
         mkState (mkBusinessLayer path (fst (parse_file text)) fmt)
           (report (snd (parse_file text)) w)
     | None =>
         mkState (mkBusinessLayer path [] fmt)
           (emit (Print "Error: File not found.") w)
     end).
Proof.
  intros Hos. unfold BusinessLayer_init.
  destruct (files w !! path) as [text |] eqn:Hfile.
  - now rewrite (load_records_opened _ text).
  - rewrite (load_records_refused _ (FileNotFoundError path)); [reflexivity |].
    unfold open_r. cbn. now rewrite Hos, Hfile.
Qed.

Lemma constructor_loads_the_file_witness :
  BusinessLayer_init dataset_filename DefaultRecordFormatter_new
    (world_with_file dataset_filename sample_csv)
  = (inr tt,
     match files (world_with_file dataset_filename sample_csv)
           !! dataset_filename with
     | Some text =>
         mkState
           (mkBusinessLayer dataset_filename (fst (parse_file text))
              DefaultRecordFormatter_new)
           (report (snd (parse_file text))
              (world_with_file dataset_filename sample_csv))
     | None =>
         mkState
           (mkBusinessLayer dataset_filename [] DefaultRecordFormatter_new)
           (emit (Print "Error: File not found.")
              (world_with_file dataset_filename sample_csv))
     end).
Proof.
  apply (constructor_loads_the_file dataset_filename
           DefaultRecordFormatter_new
           (world_with_file dataset_filename sample_csv)).
  reflexivity.
Defined.

(** ** The dictionary of a row *)

Section RowDictionary.

Import csv.

Implicit Types (d : gmap string value) (k : string).

Lemma fold_insert_other {A} (g : A -> string) (h : A -> value)
  (l : list A) d k :
  (forall a, a ∈ l -> g a <> k) ->
  fold_left (fun d a => <[g a := h a]> d) l d !! k = d !! k.
Proof.
  revert d. induction l as [| a l IH]; intros d Hl; [reflexivity |].
  cbn [fold_left]. rewrite IH by (intros b Hb; apply Hl; now right).
  apply lookup_insert_ne. apply Hl. now left.
Qed.

Lemma fold_insert_present {A} (g : A -> string) (h : A -> value)
  (l : list A) d k :
  is_Some (d !! k) \/ (exists a, a ∈ l /\ g a = k) ->
  is_Some (fold_left (fun d a => <[g a := h a]> d) l d !! k).
Proof.
  revert d. induction l as [| a l IH]; intros d Hk.
  - destruct Hk as [Hk | (a & Ha & _)]; [exact Hk | inversion Ha].
  - cbn [fold_left]. apply IH.
    destruct (decide (g a = k)) as [<- | Hne].
    + left. rewrite lookup_insert_eq. eauto.
    + destruct Hk as [Hk | (b & Hb & Hgb)].
      * left. now rewrite lookup_insert_ne.
      * apply elem_of_cons in Hb as [-> | Hb]; [congruence |].
        right. eauto.
Qed.

(** A name that is no field name is no key of the dictionary. *)
Lemma to_dict_lookup_absent (fieldnames row : list string) k :
  k ∉ fieldnames -> to_dict fieldnames row !! k = None.
Proof.
  intros Hout. unfold to_dict.
  rewrite (fold_insert_other (fun key => key) (fun _ => PyNone)).
  - rewrite (fold_insert_other (fun kv => kv.1) (fun kv => Str kv.2)).
    + apply lookup_empty.
    + intros [a b] Hab <-. apply Hout. cbn.
      apply (elem_of_zip_l _ _ _ _ Hab).
  - intros a Ha <-. apply Hout.
    apply (subseteq_drop (length row) fieldnames), Ha.
Qed.

(** Every field name is a key, whatever the length of the row. *)
Lemma to_dict_lookup_present (fieldnames row : list string) k :
  k ∈ fieldnames -> is_Some (to_dict fieldnames row !! k).
Proof.
  intros Hin. unfold to_dict.
  apply list_elem_of_lookup in Hin as [i Hi].
  apply (fold_insert_present (fun key => key) (fun _ => PyNone)).
  destruct (row !! i) as [x |] eqn:Hrow.
  - left. apply (fold_insert_present (fun kv => kv.1) (fun kv => Str kv.2)).
    right. exists (k, x). split; [| reflexivity].
    apply list_elem_of_lookup. exists i.
    apply lookup_zip_with_Some. exists k, x. auto.
  - right. exists k. split; [| reflexivity].
    apply lookup_ge_None in Hrow.
    apply list_elem_of_lookup. exists (i - length row)%nat.
    rewrite lookup_drop. rewrite <- Hi. f_equal. lia.
Qed.

(** Under field names without repetition, the value under a name is the
    cell at the position of the name. *)
Lemma to_dict_lookup (fieldnames row : list string) (i : nat) k
  (x : string) :
  NoDup fieldnames ->
  fieldnames !! i = Some k ->
  row !! i = Some x ->
  to_dict fieldnames row !! k = Some (Str x).
Proof.
  intros Hnd Hk Hx. unfold to_dict.
  rewrite (fold_insert_other (fun key => key) (fun _ => PyNone)).
  - clear -Hnd Hk Hx.
    generalize (∅ : gmap string value) as d.
    revert row i Hk Hx.
    induction fieldnames as [| n ns IH]; intros row i Hk Hx d;
      [rewrite lookup_nil in Hk; discriminate |].
    destruct row as [| r rs]; [rewrite lookup_nil in Hx; discriminate |].
    apply NoDup_cons in Hnd as [Hout Hnd].
    cbn [zip_with fold_left fst snd]. destruct i as [| j].
    + cbn in Hk, Hx. injection Hk as ->. injection Hx as ->.
      rewrite (fold_insert_other (fun kv => kv.1) (fun kv => Str kv.2)).
      * apply lookup_insert_eq.
      * intros [a b] Hab <-. apply Hout. cbn.
        apply (elem_of_zip_l _ _ _ _ Hab).
    + apply (IH Hnd rs j); assumption.
  - intros a Ha <-.
    apply list_elem_of_lookup in Ha as [j Hj]. rewrite lookup_drop in Hj.
    apply lookup_lt_Some in Hx.
    pose proof (NoDup_lookup _ _ _ _ Hnd Hk Hj). lia.
Qed.

End RowDictionary.

Lemma record_of_row_missing (fieldnames row : list string) (k : string) :
  first_missing fieldnames = Some k ->
  record_of_row (csv.to_dict fieldnames row) = inl (KeyError k).
Proof.
  intros Hfind. unfold first_missing, header in Hfind. cbn [find] in Hfind.
  unfold record_of_row, row_getitem.
  pose proof (to_dict_lookup_absent fieldnames row) as Habsent.
  pose proof (to_dict_lookup_present fieldnames row) as Hpresent.
  destruct (bool_decide_reflect (col_source ∉ fieldnames)) as [Ho | Hi];
    [injection Hfind as <-; now rewrite (Habsent _ Ho) |].
  apply dec_stable in Hi. destruct (Hpresent _ Hi) as [? ->]. clear Hi.
  destruct (bool_decide_reflect (col_latin_name ∉ fieldnames)) as [Ho | Hi];
    [injection Hfind as <-; now rewrite (Habsent _ Ho) |].
  apply dec_stable in Hi. destruct (Hpresent _ Hi) as [? ->]. clear Hi.
  destruct (bool_decide_reflect (col_english_name ∉ fieldnames))
    as [Ho | Hi]; [injection Hfind as <-; now rewrite (Habsent _ Ho) |].
  apply dec_stable in Hi. destruct (Hpresent _ Hi) as [? ->]. clear Hi.
  destruct (bool_decide_reflect (col_french_name ∉ fieldnames)) as [Ho | Hi];
    [injection Hfind as <-; now rewrite (Habsent _ Ho) |].
  apply dec_stable in Hi. destruct (Hpresent _ Hi) as [? ->]. clear Hi.
  destruct (bool_decide_reflect (col_year ∉ fieldnames)) as [Ho | Hi];
    [injection Hfind as <-; now rewrite (Habsent _ Ho) |].
  apply dec_stable in Hi. destruct (Hpresent _ Hi) as [? ->]. clear Hi.
  destruct (bool_decide_reflect (col_month ∉ fieldnames)) as [Ho | Hi];
    [injection Hfind as <-; now rewrite (Habsent _ Ho) |].
  apply dec_stable in Hi. destruct (Hpresent _ Hi) as [? ->]. clear Hi.
  destruct (bool_decide_reflect (col_number_otoliths ∉ fieldnames))
    as [Ho | Hi]; [injection Hfind as <-; now rewrite (Habsent _ Ho) |].
  discriminate.
Qed.

(** X8. When the header row of the file lacks one of the seven column
    names, the first data row that is not empty stops the load: the first
    missing name is reported as a [KeyError], in the order the constructor
    of [Record] takes its arguments, and the list of records is left as it
    was.  With no such data row the header is never looked at. *)
Theorem load_records_missing_column {F} (s : State (BusinessLayer F))
  (text : string) (fieldnames : list string) (rows : list (list string))
  (err : option exn) (k : string) :
  os_error (world s) (filename (this s)) = None ->
  files (world s) !! filename (this s) = Some text ->
  csv.reader (readlines (universal_newlines text))
  = (fieldnames :: rows, err) ->
  first_missing fieldnames = Some k ->
  (filter (fun r => csv.nonempty_row r = true) rows <> [] ->
   load_records s
   = (inr tt,
      mkState (this s)
        (emit (Print ("An error occurred: " +:+ repr k)) (world s))))
  /\ (filter (fun r => csv.nonempty_row r = true) rows = [] ->
      load_records s = (inr tt, mkState (this s) (report err (world s)))).
Proof.
  intros Hos Hfile Hread Hmiss.
  rewrite (load_records_opened s text Hos Hfile).
  unfold parse_file, csv.DictReader. rewrite Hread. cbn [fst snd].
  destruct (filter _ rows) as [| row more].
  - split; [congruence | intros _]. cbn [map loaded fst snd].
    rewrite app_nil_r. now destruct s as [[fn rs fmt] w].
  - split; [intros _ | discriminate]. cbn [map loaded].
    rewrite (record_of_row_missing _ _ _ Hmiss). cbn [fst snd].
    rewrite app_nil_r. now destruct s as [[fn rs fmt] w].
Qed.

Lemma load_records_missing_column_witness :
  let s := mkState
             (mkBusinessLayer dataset_filename [sample_record]
                DefaultRecordFormatter_new)
             (world_with_file dataset_filename foreign_csv) in
  (filter (fun r => csv.nonempty_row r = true) [["cod"; "3"]] <> [] ->
   load_records s
   = (inr tt,
      mkState (this s)
        (emit (Print ("An error occurred: " +:+ repr "source")) (world s))))
  /\ (filter (fun r => csv.nonempty_row r = true) [["cod"; "3"]] = [] ->
      load_records s = (inr tt, mkState (this s) (report None (world s)))).
Proof.
  apply (load_records_missing_column
           (mkState
              (mkBusinessLayer dataset_filename [sample_record]
                 DefaultRecordFormatter_new)
              (world_with_file dataset_filename foreign_csv))
           foreign_csv ["name"; "count"] [["cod"; "3"]] None "source").
  - reflexivity.
  - apply lookup_singleton_eq.
  - vm_compute. reflexivity.
  - vm_compute. reflexivity.
Defined.

(** X9. Under the header of the seven columns in the program's order, a
    data row that is not empty (an empty row is skipped by the reader and
    gives no record) gives a record and no error, whatever its length: each
    attribute is the cell at its position, [None] where the row is too
    short; cells beyond the seventh are dropped. *)
Theorem row_of_any_length (row : list string) :
  row <> [] ->
  record_of_row (csv.to_dict header row)
  = inr (mkRecord (cell_at row 0) (cell_at row 1) (cell_at row 2)
           (cell_at row 3) (cell_at row 4) (cell_at row 5) (cell_at row 6)).
Proof.
  intros Hrow.
  destruct row as [| s1 [| s2 [| s3 [| s4 [| s5 [| s6 [| s7 rest]]]]]]];
    [congruence | ..]; try (vm_compute; reflexivity).
  unfold csv.to_dict. rewrite drop_ge by (cbn; lia).
  vm_compute. reflexivity.
Qed.

Lemma row_of_any_length_witness :
  record_of_row (csv.to_dict header ["DFO"; "Limanda ferruginea"])
  = inr (mkRecord (cell_at ["DFO"; "Limanda ferruginea"] 0)
           (cell_at ["DFO"; "Limanda ferruginea"] 1)
           (cell_at ["DFO"; "Limanda ferruginea"] 2)
           (cell_at ["DFO"; "Limanda ferruginea"] 3)
           (cell_at ["DFO"; "Limanda ferruginea"] 4)
           (cell_at ["DFO"; "Limanda ferruginea"] 5)
           (cell_at ["DFO"; "Limanda ferruginea"] 6)).
Proof.
  apply (row_of_any_length ["DFO"; "Limanda ferruginea"]). discriminate.
Defined.

(** X10. The order of the columns in the file does not matter: when the
    field names have no repetition and each of the seven column names stands
    at some position where the row has a cell, the record has that cell as
    the attribute of the column. *)
Theorem columns_in_any_order (fieldnames row : list string)
  (cell : string -> string) :
  NoDup fieldnames ->
  (forall k, k ∈ header ->
     exists i, fieldnames !! i = Some k /\ row !! i = Some (cell k)) ->
  record_of_row (csv.to_dict fieldnames row)
  = inr (mkRecord (Str (cell col_source)) (Str (cell col_latin_name))
           (Str (cell col_english_name)) (Str (cell col_french_name))
           (Str (cell col_year)) (Str (cell col_month))
           (Str (cell col_number_otoliths))).
Proof.
  intros Hnd Hcells. unfold record_of_row, row_getitem.
  assert (Hlook : forall k, k ∈ header ->
            csv.to_dict fieldnames row !! k = Some (Str (cell k))).
  { intros k Hk. destruct (Hcells k Hk) as (i & Hi & Hx).
    exact (to_dict_lookup fieldnames row i k _ Hnd Hi Hx). }
  rewrite !Hlook
    by (refine (bool_decide_unpack _ _); vm_compute; exact I).
  reflexivity.
Qed.

Lemma columns_in_any_order_witness :
  record_of_row
    (csv.to_dict (rev header) ["7"; "June"; "1990"; "d"; "c"; "b"; "a"])
  = inr (mkRecord (Str "a") (Str "b") (Str "c") (Str "d") (Str "1990")
           (Str "June") (Str "7")).
Proof.
  apply (columns_in_any_order (rev header)
           ["7"; "June"; "1990"; "d"; "c"; "b"; "a"]
           (fun k =>
              if String.eqb k col_source then "a"
              else if String.eqb k col_latin_name then "b"
              else if String.eqb k col_english_name then "c"
              else if String.eqb k col_french_name then "d"
              else if String.eqb k col_year then "1990"
              else if String.eqb k col_month then "June"
              else "7")).
  - refine (bool_decide_unpack _ _). vm_compute. exact I.
  - intros k Hk. unfold header in Hk.
    repeat (apply elem_of_cons in Hk as [-> | Hk]);
      [exists 6%nat | exists 5%nat | exists 4%nat | exists 3%nat
      | exists 2%nat | exists 1%nat | exists 0%nat | inversion Hk];
      split; reflexivity.
Defined.

(** ** Saving *)

(** X11. [save_records] always returns normally and leaves the business
    layer as it was.  When the path opens, the file holds the header line
    and one line per record in order, whatever it held before, and success
    is reported; when the path is refused, the error is reported and no file
    changes.  No other file is ever touched. *)
Theorem save_records_outcome {F} (path : string)
  (s : State (BusinessLayer F)) :
  save_records path s
  = (inr tt,
     mkState (this s)
       match os_error (world s) path with
       | None =>
           emit (Print "Records saved successfully")
             (set_file path (saved_text (records (this s))) (world s))
       | Some e =>
           emit (Print ("An error occurred while saving records: "
                        +:+ str_exn e))
             (world s)
       end)
  /\ (forall other, other <> path ->
        files (world (snd (save_records path s))) !! other
        = files (world s) !! other).
Proof.
  destruct (os_error (world s) path) as [e |] eqn:Hos.
  - assert (Hsave : save_records path s
                    = (inr tt,
                       mkState (this s)
                         (emit (Print ("An error occurred while saving records: "
                                       +:+ str_exn e))
                            (world s)))).
    { unfold save_records, try_except.
      unfold bind at 1. unfold open_w at 1. now rewrite Hos. }
    rewrite Hsave. split; reflexivity.
  - rewrite (save_records_written path s Hos). split; [reflexivity |].
    intros other Hother. cbn. now apply lookup_insert_ne.
Qed.

(** ** Saving records that hold [None] *)

Section TextRoundTrip.

Import csv.

Lemma clean_cells_inv (record : Record) :
  clean_cells record = true ->
  wide (cells record) /\ no_CR record
  /\ record_of_row (to_dict header (cells record)) = inr (as_text record).
Proof.
  destruct record as [v1 v2 v3 v4 v5 v6 v7]. unfold clean_cells, no_CR.
  change (cells (mkRecord v1 v2 v3 v4 v5 v6 v7))
    with [cell_text v1; cell_text v2; cell_text v3; cell_text v4;
          cell_text v5; cell_text v6; cell_text v7].
  cbn [forallb]. intros H. repeat (apply andb_true_iff in H as [? H]).
  split; [split; [cbn; lia |] | split].
  - repeat constructor; now apply clean_fits.
  - repeat constructor; now apply clean_no_CR.
  - apply record_of_row_cells.
Qed.

Lemma loaded_as_text (rs : list Record) :
  Forall (fun record => clean_cells record = true) rs ->
  loaded (map (to_dict header) (map cells rs)) None = (map as_text rs, None).
Proof.
  induction rs as [| record rs IH]; intros Hrs; [reflexivity |].
  apply Forall_cons in Hrs as [Hrecord Hrs].
  destruct (clean_cells_inv record Hrecord) as (_ & _ & Hrow).
  cbn [map loaded]. rewrite Hrow, (IH Hrs). reflexivity.
Qed.

Lemma parse_file_saved_as_text (rs : list Record) :
  Forall (fun record => clean_cells record = true) rs ->
  parse_file (saved_text rs) = (map as_text rs, None).
Proof.
  intros Hrs. unfold parse_file, DictReader.
  rewrite (universal_newlines_saved_text rs)
    by (eapply Forall_impl; [exact Hrs | apply clean_cells_inv]).
  rewrite reader_lf_text.
  - cbn [fst snd]. rewrite filter_cells. now apply loaded_as_text.
  - constructor; [apply header_wide |].
    apply Forall_map. eapply Forall_impl; [exact Hrs |].
    intros record Hrecord. apply clean_cells_inv, Hrecord.
Qed.

End TextRoundTrip.

(** X12. An attribute that is [None], as a short row leaves it, is saved
    as an empty cell and loaded back as the empty string.  For records whose
    cells have no carriage return and at most 131072 characters, saving and
    then constructing a business layer on the written file gives, without
    error, the records with every attribute as the text of its cell. *)
Theorem save_then_load_None_as_empty {F} (s : State (BusinessLayer F))
  (path : string) (fmt : F) :
  os_error (world s) path = None ->
  Forall (fun record => clean_cells record = true) (records (this s)) ->
  let saved := save_records path s in
  let reloaded := BusinessLayer_init path fmt (world (snd saved)) in
  fst saved = inr tt
  /\ fst reloaded = inr tt
  /\ records (this (snd reloaded)) = map as_text (records (this s))
  /\ stdout (world (snd reloaded))
     = (stdout (world s) ++ [Print "Records saved successfully"])%list.
Proof.
  intros Hos Hclean saved reloaded. subst reloaded saved.
  destruct (save_then_init s path fmt Hos) as [-> ->].
  rewrite (parse_file_saved_as_text _ Hclean). cbn.
  repeat split; reflexivity.
Qed.

Lemma save_then_load_None_as_empty_witness :
  let s := sample_state [record_with_None; sample_record] [] in
  let saved := save_records "copy.csv" s in
  let reloaded :=
    BusinessLayer_init "copy.csv" DefaultRecordFormatter_new
      (world (snd saved)) in
  fst saved = inr tt
  /\ fst reloaded = inr tt
  /\ records (this (snd reloaded))
     = map as_text [record_with_None; sample_record]
  /\ stdout (world (snd reloaded)) = [Print "Records saved successfully"].
Proof.
  apply (save_then_load_None_as_empty
           (sample_state [record_with_None; sample_record] [])
           "copy.csv" DefaultRecordFormatter_new).
  - reflexivity.
  - repeat constructor.
Defined.

(** ** The bar chart *)

Lemma getattr_unknown (other : Record -> string -> exn + value)
  (record : Record) (name : string) :
  name ∉ attribute_names ->
  is_special name = false ->
  getattr other record name = inl (AttributeError name).
Proof.
  intros Hout Hplain. unfold getattr.
  repeat match goal with
         | |- context [String.eqb name ?a] =>
             destruct (String.eqb_spec name a) as [-> | _];
             [exfalso; apply Hout; unfold attribute_names;
              refine (bool_decide_unpack _ _); vm_compute; exact I |]
         end.
  now rewrite Hplain.
Qed.

Lemma input_line {O} (prompt line : string) (rest : list string)
  (s : State O) :
  stdin (world s) = line :: rest ->
  input prompt s
  = (inr line, mkState (this s) (after_input prompt rest (world s))).
Proof. intros Hin. unfold input. cbn. now rewrite Hin. Qed.

(** [generate_bar_chart] with a line to read: the attribute is looked up
    on every record; the first failure is reported, and otherwise the chart
    of the values is handed to the plotting calls. *)
Lemma generate_bar_chart_run {F} (s : State (BusinessLayer F))
  (x_column : string) (rest : list string) :
  stdin (world s) = x_column :: rest ->
  generate_bar_chart s
  = (inr tt,
     mkState (this s)
       (emit
          match collect
                  (fun record =>
                     getattr (other_attribute (world s)) record x_column)
                  (records (this s)) with
          | inl e =>
              Print ("An error occurred while generating the bar chart: "
                     +:+ str_exn e)
          | inr x_values => chart_outcome (world s) (chart_of x_column x_values)
          end
          (after_input chart_prompt rest (world s)))).
Proof.
  intros Hin. unfold generate_bar_chart, try_except.
  erewrite bind_ok by (apply input_line; exact Hin).
  erewrite bind_ok by reflexivity.
  unfold bind at 1. unfold in_world. cbn [this world other_attribute
    after_input].
  destruct (collect _ (records (this s))) as [e | x_values]; [reflexivity |].
  unfold show, chart_outcome. cbn [world pyplot_error after_input].
  destruct (pyplot_error (world s) _); reflexivity.
Qed.

(** X13. A column name that is no attribute of a record and does not begin
    with two underscores (those names the interpreter answers), typed when
    the list holds a record, gives no chart: the [AttributeError] is caught
    and reported, the call returns normally and the business layer is as it
    was. *)
Theorem chart_of_unknown_column {F} (s : State (BusinessLayer F))
  (x_column : string) (rest : list string) :
  stdin (world s) = x_column :: rest ->
  x_column ∉ attribute_names ->
  is_special x_column = false ->
  records (this s) <> [] ->
  generate_bar_chart s
  = (inr tt,
     mkState (this s)
       (emit (Print ("An error occurred while generating the bar chart: "
                     +:+ "'Record' object has no attribute '" +:+ x_column
                     +:+ "'"))
          (after_input chart_prompt rest (world s)))).
Proof.
  intros Hin Hout Hplain Hne. rewrite (generate_bar_chart_run s _ _ Hin).
  destruct (records (this s)) as [| record more] eqn:Hrs; [congruence |].
  cbn [collect].
  now rewrite (getattr_unknown _ record x_column Hout Hplain).
Qed.

Lemma chart_of_unknown_column_witness :
  generate_bar_chart (sample_state [sample_record] ["Year"])
  = (inr tt,
     mkState (this (sample_state [sample_record] ["Year"]))
       (emit (Print ("An error occurred while generating the bar chart: "
                     +:+ "'Record' object has no attribute '" +:+ "Year"
                     +:+ "'"))
          (after_input chart_prompt []
             (world (sample_state [sample_record] ["Year"]))))).
Proof.
  apply (chart_of_unknown_column (sample_state [sample_record] ["Year"])
           "Year" []).
  - reflexivity.
  - refine (bool_decide_unpack _ _). vm_compute. exact I.
  - reflexivity.
  - discriminate.
Defined.

Lemma x_label_of_other (x_column : string) :
  lower x_column ∉ attribute_names -> x_label_of x_column = x_column.
Proof.
  intros Hout. unfold x_label_of, column_display_names. cbn [dict_get].
  repeat match goal with
         | |- context [String.eqb ?a (lower x_column)] =>
             destruct (String.eqb_spec a (lower x_column)) as [Heq | _];
             [exfalso; apply Hout; rewrite <- Heq; unfold attribute_names;
              refine (bool_decide_unpack _ _); vm_compute; exact I |]
         end.
  reflexivity.
Qed.

(** X14. With no records the name is never looked up, so any text typed as
    the column name, an attribute or not, is accepted by the program: a chart
    without bars goes to the plotting calls, labelled on the x axis with
    the display name of the column, or with the typed text itself when its
    lower-case form is no column name, and titled [Count of] that label.  It
    is shown when the library draws it; the library's exception is reported
    otherwise. *)
Theorem chart_of_no_records {F} (s : State (BusinessLayer F))
  (x_column : string) (rest : list string) :
  stdin (world s) = x_column :: rest ->
  records (this s) = [] ->
  let label := x_label_of x_column in
  generate_bar_chart s
  = (inr tt,
     mkState (this s)
       (emit
          (chart_outcome (world s)
             (mkChart [] [] label "Count" ("Count of " +:+ label)))
          (after_input chart_prompt rest (world s))))
  /\ (lower x_column ∉ attribute_names -> label = x_column).
Proof.
  intros Hin Hrs label. split; [| apply x_label_of_other].
  rewrite (generate_bar_chart_run s _ _ Hin). now rewrite Hrs.
Qed.

Lemma chart_of_no_records_witness :
  let s := sample_state [] ["no such column"] in
  let label := x_label_of "no such column" in
  generate_bar_chart s
  = (inr tt,
     mkState (this s)
       (emit
          (chart_outcome (world s)
             (mkChart [] [] label "Count" ("Count of " +:+ label)))
          (after_input chart_prompt [] (world s))))
  /\ (lower "no such column" ∉ attribute_names -> label = "no such column").
Proof.
  apply (chart_of_no_records (sample_state [] ["no such column"])
           "no such column" []).
  - reflexivity.
  - reflexivity.
Defined.

(** X15. [generate_bar_chart] never raises and never changes the business
    layer or a file, whatever is typed and also when the input has ended:
    every exception inside it is caught and reported. *)
Theorem generate_bar_chart_is_harmless {F} (s : State (BusinessLayer F)) :
  fst (generate_bar_chart s) = inr tt
  /\ this (snd (generate_bar_chart s)) = this s
  /\ files (world (snd (generate_bar_chart s))) = files (world s).
Proof.
  destruct (stdin (world s)) as [| x_column rest] eqn:Hin.
  - unfold generate_bar_chart, try_except.
    assert (Hinput : input chart_prompt s
                     = (inl EOFError,
                        mkState (this s)
                          (emit (Prompt chart_prompt) (world s)))).
    { unfold input. cbn. now rewrite Hin. }
    erewrite bind_err by exact Hinput. repeat split.
  - rewrite (generate_bar_chart_run s _ _ Hin). repeat split.
Qed.

Section CounterOrder.

Implicit Types (xs : list value) (v : value).

Lemma elem_of_rev xs v : v ∈ rev xs <-> v ∈ xs.
Proof. rewrite !list_elem_of_In. symmetry. apply in_rev. Qed.

Lemma Counter_snoc xs v : Counter (xs ++ [v]) = counter_incr v (Counter xs).
Proof. unfold Counter. now rewrite fold_left_app. Qed.

Lemma Counter_keys_elem_of xs v : v ∈ map fst (Counter xs) <-> v ∈ xs.
Proof.
  induction xs as [| x xs IH] using rev_ind.
  - split; intros Hin; inversion Hin.
  - rewrite Counter_snoc, counter_keys_incr, elem_of_app, list_elem_of_singleton.
    destruct (bool_decide_reflect (x ∈ map fst (Counter xs))) as [Hx | Hx].
    + rewrite IH. split; [now left | intros [Hin | ->]; [exact Hin |]].
      now apply IH.
    + rewrite elem_of_app, list_elem_of_singleton, IH. reflexivity.
Qed.

(** The keys are the distinct values in the order they are first seen. *)
Lemma Counter_keys_first_seen xs :
  map fst (Counter xs) = rev (remove_dups (rev xs)).
Proof.
  induction xs as [| x xs IH] using rev_ind; [reflexivity |].
  rewrite Counter_snoc, counter_keys_incr, rev_app_distr. cbn [rev app].
  cbn [remove_dups].
  destruct (decide_rel elem_of x (rev xs)) as [Hin | Hout];
    destruct (bool_decide_reflect (x ∈ map fst (Counter xs))) as [Hx | Hx].
  - exact IH.
  - exfalso. apply Hx. apply Counter_keys_elem_of.
    apply (proj1 (elem_of_rev xs x)), Hin.
  - exfalso. apply Hout. apply (proj2 (elem_of_rev xs x)).
    apply (proj1 (Counter_keys_elem_of xs x)), Hx.
  - cbn [rev]. now rewrite IH.
Qed.

Lemma sum_counter_incr v (c : list (value * nat)) :
  sum_list (map snd (counter_incr v c)) = S (sum_list (map snd c)).
Proof.
  induction c as [| [k n] c IH]; [reflexivity |]. cbn [counter_incr].
  destruct (decide (k = v)); simpl; [lia |].
  simpl in IH. rewrite IH. lia.
Qed.

Lemma Counter_total xs : sum_list (map snd (Counter xs)) = length xs.
Proof.
  induction xs as [| x xs IH] using rev_ind; [reflexivity |].
  rewrite Counter_snoc, sum_counter_incr, IH, length_app. cbn [length]. lia.
Qed.

End CounterOrder.

(** X16. The chart that goes to the plotting calls for an attribute has
    its bars in the order the values are first seen in the list of records,
    and the heights of the bars add up to the number of records.  It is
    shown when the library draws it; the library's exception is reported
    otherwise. *)
Theorem chart_bars_in_order {F} (s : State (BusinessLayer F))
  (x_column : string) (rest : list string) (attr : Record -> value) :
  stdin (world s) = x_column :: rest ->
  (forall record,
     getattr (other_attribute (world s)) record x_column
     = inr (attr record)) ->
  exists c,
    stdout (world (snd (generate_bar_chart s)))
    = (stdout (world s)
       ++ [Prompt chart_prompt; chart_outcome (world s) c])%list
    /\ bar_x c = rev (remove_dups (rev (map attr (records (this s)))))
    /\ sum_list (bar_height c) = length (records (this s)).
Proof.
  intros Hin Hattr.
  exists (chart_of x_column (map attr (records (this s)))).
  rewrite (generate_bar_chart_run s _ _ Hin).
  rewrite (collect_total _ attr _ Hattr).
  cbn [fst snd this world stdout emit after_input].
  split; [now rewrite <- app_assoc |].
  unfold chart_of. cbn [bar_x bar_height]. split.
  - apply Counter_keys_first_seen.
  - now rewrite Counter_total, length_map.
Qed.

Lemma chart_bars_in_order_witness :
  let s := sample_state
             [record_of_year "2021"; record_of_year "2020";
              record_of_year "2021"] ["year"] in
  exists c,
    stdout (world (snd (generate_bar_chart s)))
    = (stdout (world s)
       ++ [Prompt chart_prompt; chart_outcome (world s) c])%list
    /\ bar_x c = rev (remove_dups (rev (map year (records (this s)))))
    /\ sum_list (bar_height c) = length (records (this s)).
Proof.
  apply (chart_bars_in_order
           (sample_state
              [record_of_year "2021"; record_of_year "2020";
               record_of_year "2021"] ["year"])
           "year" [] year).
  - reflexivity.
  - intros record. reflexivity.
Defined.

(** ** The presentation layer *)

Lemma read_and_written_emit rest events e w :
  emit e (read_and_written rest events w)
  = read_and_written rest (events ++ [e]) w.
Proof. unfold emit, read_and_written. cbn. now rewrite <- app_assoc. Qed.

Lemma read_and_written_again rest rest' events events' w :
  read_and_written rest' events' (read_and_written rest events w)
  = read_and_written rest' (events ++ events') w.
Proof. unfold read_and_written. cbn. now rewrite <- app_assoc. Qed.

Lemma input_read {O} (prompt line : string) (rest : list string)
  (s : State O) :
  stdin (world s) = line :: rest ->
  input prompt s
  = (inr line,
     mkState (this s) (read_and_written rest [Prompt prompt] (world s))).
Proof. intros Hin. unfold input. cbn. now rewrite Hin. Qed.

Lemma input_end {O} (prompt : string) (s : State O) :
  stdin (world s) = [] ->
  input prompt s
  = (inl EOFError,
     mkState (this s) (read_and_written [] [Prompt prompt] (world s))).
Proof.
  destruct s as [o [fs oe oa pe lines out]]. cbn. intros ->. reflexivity.
Qed.

Lemma create_record_reads_seven_lines_aux {O} (s : State O)
  (a1 a2 a3 a4 a5 a6 a7 : string) (rest : list string) :
  stdin (world s) = a1 :: a2 :: a3 :: a4 :: a5 :: a6 :: a7 :: rest ->
  create_record s
  = (inr (mkRecord (Str a1) (Str a2) (Str a3) (Str a4) (Str a5) (Str a6)
            (Str a7)),
     mkState (this s) (read_and_written rest record_prompts (world s))).
Proof.
  destruct s as [o [fs oe oa pe lines out]]. cbn [world stdin]. intros ->.
  unfold create_record, bind, input, ret, read_and_written, emit. cbn.
  now rewrite <- !app_assoc.
Qed.

(** X17. [create_record] asks for the seven attributes in order and takes
    one line for each, as it is typed: with seven lines waiting it returns
    the record of those lines and leaves the rest of the input; with fewer
    it raises [EOFError]. *)
Theorem create_record_reads_seven_lines {O} (s : State O) :
  match stdin (world s) with
  | a1 :: a2 :: a3 :: a4 :: a5 :: a6 :: a7 :: rest =>
      create_record s
      = (inr (mkRecord (Str a1) (Str a2) (Str a3) (Str a4) (Str a5)
                (Str a6) (Str a7)),
         mkState (this s) (read_and_written rest record_prompts (world s)))
  | _ =>
      fst (create_record s) = inl EOFError
      /\ this (snd (create_record s)) = this s
      /\ stdin (world (snd (create_record s))) = []
  end.
Proof.
  destruct s as [o [fs oe oa pe lines out]]. cbn [world stdin].
  destruct lines as [| a1 [| a2 [| a3 [| a4 [| a5 [| a6 [| a7 rest]]]]]]];
    try (repeat split; reflexivity).
  unfold create_record, bind, input, ret, read_and_written, emit. cbn.
  now rewrite <- !app_assoc.
Qed.

(** Two descriptions of the same world: the output lists are equal up to
    the grouping of their appends. *)
Ltac same_world :=
  unfold emit, read_and_written;
  cbn [files os_error stdin stdout world this fst snd];
  rewrite <- ?app_assoc; reflexivity.

(** The start of a turn: the name line, the menu, and the choice read. *)
Lemma banner {F A} (K : string -> M (PresentationLayer F) A)
  (s : State (PresentationLayer F)) (choice : string) (rest : list string) :
  stdin (world s) = choice :: rest ->
  (self <- get_self ;;
   print ("Full Name: " +:+ full_name self) ;;
   display_menu ;;
   c <- input "Enter your choice: " ;;
   K c) s
  = K choice
      (mkState (this s)
         (read_and_written rest (menu_events (full_name (this s)))
            (world s))).
Proof.
  destruct s as [p [fs oe oa pe lines out]]. cbn [world stdin this]. intros ->.
  unfold bind, get_self, print, display_menu, input, emit, read_and_written,
    menu_events.
  cbn. now rewrite <- !app_assoc.
Qed.

Lemma start_step {F} `{Formatter F} (fuel : nat)
  (s s' : State (PresentationLayer F)) :
  start_turn s = (inr Continue, s') -> start (S fuel) s = start fuel s'.
Proof. intros Hturn. cbn [start]. now rewrite Hturn. Qed.

(** X18. Choice 7 ends [start] at once and normally: nothing but the menu
    is written, only that line is read, and the records and files are as
    they were. *)
Theorem choice_7_exits {F} `{Formatter F} (fuel : nat)
  (s : State (PresentationLayer F)) (rest : list string) :
  stdin (world s) = "7" :: rest ->
  start (S fuel) s
  = Some (inr tt,
          mkState (this s)
            (read_and_written rest (menu_events (full_name (this s)))
               (world s))).
Proof.
  intros Hin. cbn [start]. unfold start_turn.
  rewrite (banner _ s "7" rest Hin). reflexivity.
Qed.

Lemma choice_7_exits_witness :
  start 1 (sample_session [sample_record] ["7"; "1"])
  = Some (inr tt,
          mkState (this (sample_session [sample_record] ["7"; "1"]))
            (read_and_written ["1"] (menu_events "Ben Nguyen")
               (world (sample_session [sample_record] ["7"; "1"])))).
Proof.
  apply (choice_7_exits 0 (sample_session [sample_record] ["7"; "1"]) ["1"]).
  reflexivity.
Defined.

(** X19. A line that is none of the seven choices is answered with
    [Invalid choice. Please try again.], changes nothing, and the loop goes
    on to its next turn. *)
Theorem invalid_choice_goes_on {F} `{Formatter F} (fuel : nat)
  (s : State (PresentationLayer F)) (choice : string) (rest : list string) :
  stdin (world s) = choice :: rest ->
  choice ∉ menu_choices ->
  start (S fuel) s
  = start fuel
      (mkState (this s)
         (read_and_written rest
            (menu_events (full_name (this s))
             ++ [Print "Invalid choice. Please try again."])
            (world s))).
Proof.
  intros Hin Hout. apply start_step. unfold start_turn.
  rewrite (banner _ s choice rest Hin).
  repeat match goal with
         | |- context [String.eqb choice ?c] =>
             destruct (String.eqb_spec choice c) as [-> | _];
             [exfalso; apply Hout; unfold menu_choices;
              refine (bool_decide_unpack _ _); vm_compute; exact I |]
         end.
  erewrite bind_ok by reflexivity. cbn [this world].
  now rewrite read_and_written_emit.
Qed.

Lemma invalid_choice_goes_on_witness :
  start 2 (sample_session [sample_record] ["8"; "7"])
  = start 1
      (mkState (this (sample_session [sample_record] ["8"; "7"]))
         (read_and_written ["7"]
            (menu_events "Ben Nguyen"
             ++ [Print "Invalid choice. Please try again."])
            (world (sample_session [sample_record] ["8"; "7"])))).
Proof.
  apply (invalid_choice_goes_on 1
           (sample_session [sample_record] ["8"; "7"]) "8" ["7"]).
  - reflexivity.
  - refine (bool_decide_unpack _ _). vm_compute. exact I.
Defined.

(** X20. Choice 3 followed by seven lines adds the record of those lines
    at the end of the list, reports it, and the loop goes on. *)
Theorem choice_3_adds {F} `{Formatter F} (fuel : nat)
  (s : State (PresentationLayer F)) (a1 a2 a3 a4 a5 a6 a7 : string)
  (rest : list string) :
  stdin (world s) = "3" :: a1 :: a2 :: a3 :: a4 :: a5 :: a6 :: a7 :: rest ->
  start (S fuel) s
  = start fuel
      (mkState
         (with_business_records
            (records (business_layer (this s))
             ++ [mkRecord (Str a1) (Str a2) (Str a3) (Str a4) (Str a5)
                   (Str a6) (Str a7)])
            (this s))
         (read_and_written rest
            (menu_events (full_name (this s)) ++ record_prompts
             ++ [Print "Record added successfully."])
            (world s))).
Proof.
  intros Hin. apply start_step. unfold start_turn.
  rewrite (banner _ s "3" _ Hin).
  change (String.eqb "3" "1") with false.
  change (String.eqb "3" "2") with false.
  change (String.eqb "3" "3") with true. cbv iota.
  pose proof (create_record_reads_seven_lines_aux
                (mkState (this s)
                   (read_and_written
                      (a1 :: a2 :: a3 :: a4 :: a5 :: a6 :: a7 :: rest)
                      (menu_events (full_name (this s))) (world s)))
                a1 a2 a3 a4 a5 a6 a7 rest eq_refl) as Hcreate.
  erewrite bind_ok by exact Hcreate.
  erewrite bind_ok by reflexivity.
  unfold ret, with_business_records. cbn. same_world.
Qed.

Lemma choice_3_adds_witness :
  start 2 (sample_session [sample_record]
             ["3"; "a"; "b"; "c"; "d"; "1990"; "June"; "7"; "7"])
  = start 1
      (mkState
         (with_business_records
            ([sample_record]
             ++ [mkRecord (Str "a") (Str "b") (Str "c") (Str "d")
                   (Str "1990") (Str "June") (Str "7")])
            (this (sample_session [sample_record] [])))
         (read_and_written ["7"]
            (menu_events "Ben Nguyen" ++ record_prompts
             ++ [Print "Record added successfully."])
            (world_with_input []))).
Proof.
  apply (choice_3_adds 1
           (sample_session [sample_record]
              ["3"; "a"; "b"; "c"; "d"; "1990"; "June"; "7"; "7"])
           "a" "b" "c" "d" "1990" "June" "7" ["7"]).
  reflexivity.
Defined.

Lemma on_business_layer_run {F A} (m : M (BusinessLayer F) A)
  (s : State (PresentationLayer F)) (r : exn + A) (bl : BusinessLayer F)
  (w : World) :
  m (mkState (business_layer (this s)) (world s)) = (r, mkState bl w) ->
  on_business_layer m s
  = (r, mkState (mkPresentationLayer bl (full_name (this s))) w).
Proof. intros Hm. unfold on_business_layer. now rewrite Hm. Qed.

Lemma on_business_layer_result {F A} (m : M (BusinessLayer F) A)
  (s : State (PresentationLayer F)) (r : exn + A)
  (s' : State (BusinessLayer F)) :
  m (mkState (business_layer (this s)) (world s)) = (r, s') ->
  on_business_layer m s
  = (r, mkState (mkPresentationLayer (this s') (full_name (this s)))
          (world s')).
Proof. intros Hm. unfold on_business_layer. now rewrite Hm. Qed.

Lemma delete_record_run {F} (s : State (BusinessLayer F)) (index : Z) :
  delete_record index s
  = (inr tt,
     if (0 <=? index) && (index <? len (records (this s))) then
       mkState
         (mkBusinessLayer (filename (this s))
            (delete (Z.to_nat index) (records (this s)))
            (formatter (this s)))
         (emit (Print "Record deleted successfully.") (world s))
     else mkState (this s) (emit (Print "Invalid record index.") (world s))).
Proof.
  run. destruct ((0 <=? index) && (index <? len (records (this s))))
    eqn:Hguard; [| reflexivity].
  apply andb_true_iff in Hguard as [H0 H1].
  apply Z.leb_le in H0. apply Z.ltb_lt in H1.
  unfold delitem. now rewrite normalise_valid by lia.
Qed.

Lemma edit_record_run {F} (s : State (BusinessLayer F)) (index : Z)
  (new_record : Record) :
  edit_record index new_record s
  = (inr tt,
     if (0 <=? index) && (index <? len (records (this s))) then
       mkState
         (mkBusinessLayer (filename (this s))
            (<[Z.to_nat index := new_record]> (records (this s)))
            (formatter (this s)))
         (emit (Print "Record edited successfully.") (world s))
     else mkState (this s) (emit (Print "Invalid record index.") (world s))).
Proof.
  run.
  destruct ((0 <=? index) && (index <? len (records (this s))))
    eqn:Hguard; [| reflexivity].
  apply andb_true_iff in Hguard as [H0 H1].
  apply Z.leb_le in H0. apply Z.ltb_lt in H1.
  unfold setitem. now rewrite normalise_valid by lia.
Qed.

(** X21. Choice 5 reads one line as a number counted from 1: the record
    with that number is removed and the removal reported; when the number is
    below 1 or above the length, negative numbers included, the list is
    left as it is and [Invalid record index.] is printed.  Either way the
    loop goes on. *)
Theorem choice_5_deletes_by_number {F} `{Formatter F} (fuel : nat)
  (s : State (PresentationLayer F)) (text : string) (n : Z)
  (rest : list string) :
  stdin (world s) = "5" :: text :: rest ->
  int text = inr n ->
  let rs := records (business_layer (this s)) in
  let asked := (menu_events (full_name (this s))
                ++ [Prompt "Enter record index to delete: "])%list in
  start (S fuel) s
  = start fuel
      (if (1 <=? n) && (n <=? len rs) then
         mkState (with_business_records (delete (Z.to_nat (n - 1)) rs)
                    (this s))
           (read_and_written rest
              (asked ++ [Print "Record deleted successfully."])%list (world s))
       else
         mkState (this s)
           (read_and_written rest
              (asked ++ [Print "Invalid record index."])%list (world s))).
Proof.
  intros Hin Hint rs asked. apply start_step. unfold start_turn.
  rewrite (banner _ s "5" _ Hin).
  change (String.eqb "5" "1") with false.
  change (String.eqb "5" "2") with false.
  change (String.eqb "5" "3") with false.
  change (String.eqb "5" "4") with false.
  change (String.eqb "5" "5") with true. cbv iota.
  unfold PresentationLayer_delete_record.
  rewrite bind_assoc. erewrite bind_ok by (apply input_read; reflexivity).
  rewrite bind_assoc. erewrite bind_ok by (unfold lift_result; now rewrite Hint).
  erewrite bind_ok
    by (apply on_business_layer_result; rewrite delete_record_run;
        reflexivity).
  unfold ret. cbn [this world business_layer]. fold rs.
  replace ((0 <=? n - 1) && (n - 1 <? len rs))
    with ((1 <=? n) && (n <=? len rs))
    by (f_equal; [apply Bool.eq_true_iff_eq; rewrite !Z.leb_le; lia
                 | apply Bool.eq_true_iff_eq; rewrite Z.leb_le, Z.ltb_lt; lia]).
  destruct ((1 <=? n) && (n <=? len rs)).
  - f_equal. f_equal. subst asked. same_world.
  - subst rs asked. destruct s as [[bl name] w]. f_equal. f_equal.
    same_world.
Qed.

Lemma choice_5_deletes_by_number_witness :
  let s := sample_session [sample_record; other_record] ["5"; "2"; "7"] in
  let rs := records (business_layer (this s)) in
  let asked := (menu_events (full_name (this s))
                ++ [Prompt "Enter record index to delete: "])%list in
  start 2 s
  = start 1
      (if (1 <=? 2) && (2 <=? len rs) then
         mkState (with_business_records (delete (Z.to_nat (2 - 1)) rs)
                    (this s))
           (read_and_written ["7"]
              (asked ++ [Print "Record deleted successfully."])%list (world s))
       else
         mkState (this s)
           (read_and_written ["7"]
              (asked ++ [Print "Invalid record index."])%list (world s))).
Proof.
  apply (choice_5_deletes_by_number 1
           (sample_session [sample_record; other_record] ["5"; "2"; "7"])
           "2" 2 ["7"]).
  - reflexivity.
  - reflexivity.
Defined.

(** The part of menu entry 4 before the range test: the prompt is written,
    one line is read and turned into a number. *)
Lemma select_asks_the_number {F} `{Formatter F}
  (s : State (PresentationLayer F)) (text : string) (n : Z)
  (rest : list string) :
  stdin (world s) = text :: rest ->
  int text = inr n ->
  select_display_edit_record s
  = (if (0 <=? n - 1)
        && (n - 1 <? len (records (business_layer (this s)))) then
       on_business_layer (display_record (n - 1)) ;;
       choice <- input "Do you want to edit this record? (yes/no): " ;;
       if String.eqb (lower choice) "yes" then
         new_record <- create_record ;;
         on_business_layer (edit_record (n - 1) new_record)
       else ret tt
     else print "Invalid record index.")%py
      (mkState (this s)
         (read_and_written rest [Prompt "Enter record index to select: "]
            (world s))).
Proof.
  intros Hin Hint. unfold select_display_edit_record.
  erewrite bind_ok by (apply input_read; exact Hin).
  erewrite bind_ok by (unfold lift_result; now rewrite Hint).
  erewrite bind_ok by reflexivity. reflexivity.
Qed.

(** X22. Choice 4 with a number below 1 or above the length: the record
    list is left as it is, [Invalid record index.] is printed, no further
    line is read (the question about editing is not asked), and the loop
    goes on. *)
Theorem choice_4_out_of_range {F} `{Formatter F} (fuel : nat)
  (s : State (PresentationLayer F)) (text : string) (n : Z)
  (rest : list string) :
  stdin (world s) = "4" :: text :: rest ->
  int text = inr n ->
  n < 1 \/ len (records (business_layer (this s))) < n ->
  start (S fuel) s
  = start fuel
      (mkState (this s)
         (read_and_written rest
            (menu_events (full_name (this s))
             ++ [Prompt "Enter record index to select: ";
                 Print "Invalid record index."])%list
            (world s))).
Proof.
  intros Hin Hint Hout. apply start_step. unfold start_turn.
  rewrite (banner _ s "4" _ Hin).
  change (String.eqb "4" "1") with false.
  change (String.eqb "4" "2") with false.
  change (String.eqb "4" "3") with false.
  change (String.eqb "4" "4") with true. cbv iota.
  erewrite bind_ok; [reflexivity |].
  erewrite select_asks_the_number by first [exact Hint | reflexivity].
  cbn [this world]. rewrite range_test_false by lia.
  unfold print. cbn [this world]. f_equal. f_equal. same_world.
Qed.

Lemma choice_4_out_of_range_witness :
  let s := sample_session [sample_record] ["4"; "0"; "7"] in
  start 2 s
  = start 1
      (mkState (this s)
         (read_and_written ["7"]
            (menu_events (full_name (this s))
             ++ [Prompt "Enter record index to select: ";
                 Print "Invalid record index."])%list
            (world s))).
Proof.
  apply (choice_4_out_of_range 1
           (sample_session [sample_record] ["4"; "0"; "7"]) "0" 0 ["7"]).
  - reflexivity.
  - reflexivity.
  - left. lia.
Defined.

(** X23. Choice 4 with the number of a record and an answer that is not
    [yes] in any mix of cases: the record is printed as the formatter
    renders it, the question about editing is asked, and nothing is
    changed; the loop goes on. *)
Theorem choice_4_shows_and_keeps {F} `{Formatter F} (fuel : nat)
  (s : State (PresentationLayer F)) (text answer line : string) (n : Z)
  (record : Record) (rest : list string) :
  stdin (world s) = "4" :: text :: answer :: rest ->
  int text = inr n ->
  1 <= n ->
  records (business_layer (this s)) !! Z.to_nat (n - 1) = Some record ->
  format_record (formatter (business_layer (this s))) record = inr line ->
  lower answer <> "yes" ->
  start (S fuel) s
  = start fuel
      (mkState (this s)
         (read_and_written rest
            (menu_events (full_name (this s))
             ++ [Prompt "Enter record index to select: ";
                 Print line;
                 Prompt "Do you want to edit this record? (yes/no): "])%list
            (world s))).
Proof.
  intros Hin Hint Hn Hrec Hfmt Hno. apply start_step. unfold start_turn.
  rewrite (banner _ s "4" _ Hin).
  change (String.eqb "4" "1") with false.
  change (String.eqb "4" "2") with false.
  change (String.eqb "4" "3") with false.
  change (String.eqb "4" "4") with true. cbv iota.
  erewrite bind_ok; [reflexivity |].
  erewrite select_asks_the_number by first [exact Hint | reflexivity].
  cbn [this world].
  rewrite range_test_true
    by (apply lookup_lt_Some in Hrec; unfold len; lia).
  erewrite bind_ok
    by (apply on_business_layer_result;
        rewrite (display_record_at _ (n - 1) record) by (lia || exact Hrec);
        cbn [this world]; rewrite Hfmt; reflexivity).
  erewrite bind_ok by (apply input_read; reflexivity).
  apply String.eqb_neq in Hno. rewrite Hno.
  unfold ret. cbn [this world business_layer full_name].
  destruct s as [[bl name] w]. f_equal. f_equal. same_world.
Qed.

Lemma choice_4_shows_and_keeps_witness :
  let s := sample_session [sample_record] ["4"; "1"; "no"; "7"] in
  exists line,
    format_record (formatter (business_layer (this s))) sample_record
    = inr line
    /\ start 2 s
       = start 1
           (mkState (this s)
              (read_and_written ["7"]
                 (menu_events (full_name (this s))
                  ++ [Prompt "Enter record index to select: ";
                      Print line;
                      Prompt "Do you want to edit this record? (yes/no): "])%list
                 (world s))).
Proof.
  eexists. split; [reflexivity |].
  apply (choice_4_shows_and_keeps 1
           (sample_session [sample_record] ["4"; "1"; "no"; "7"])
           "1" "no" _ 1 sample_record ["7"]).
  - reflexivity.
  - reflexivity.
  - lia.
  - reflexivity.
  - reflexivity.
  - discriminate.
Defined.

(** X24. Choice 4 with the number of a record and the answer [yes], in any
    mix of cases: the record is printed, seven more lines are read, and the
    record they make takes the place of the one with that number; the other
    records stay, and [Record edited successfully.] is printed. *)
Theorem choice_4_edits {F} `{Formatter F} (fuel : nat)
  (s : State (PresentationLayer F)) (text answer line : string) (n : Z)
  (record : Record) (a1 a2 a3 a4 a5 a6 a7 : string) (rest : list string) :
  stdin (world s)
  = "4" :: text :: answer
    :: a1 :: a2 :: a3 :: a4 :: a5 :: a6 :: a7 :: rest ->
  int text = inr n ->
  1 <= n ->
  records (business_layer (this s)) !! Z.to_nat (n - 1) = Some record ->
  format_record (formatter (business_layer (this s))) record = inr line ->
  lower answer = "yes" ->
  start (S fuel) s
  = start fuel
      (mkState
         (with_business_records
            (<[Z.to_nat (n - 1) :=
                 mkRecord (Str a1) (Str a2) (Str a3) (Str a4) (Str a5)
                   (Str a6) (Str a7)]>
               (records (business_layer (this s))))
            (this s))
         (read_and_written rest
            (menu_events (full_name (this s))
             ++ [Prompt "Enter record index to select: ";
                 Print line;
                 Prompt "Do you want to edit this record? (yes/no): "]
             ++ record_prompts
             ++ [Print "Record edited successfully."])%list
            (world s))).
Proof.
  intros Hin Hint Hn Hrec Hfmt Hyes. apply start_step. unfold start_turn.
  rewrite (banner _ s "4" _ Hin).
  change (String.eqb "4" "1") with false.
  change (String.eqb "4" "2") with false.
  change (String.eqb "4" "3") with false.
  change (String.eqb "4" "4") with true. cbv iota.
  erewrite bind_ok; [reflexivity |].
  erewrite select_asks_the_number by first [exact Hint | reflexivity].
  cbn [this world].
  assert (0 <= n - 1 < len (records (business_layer (this s)))) as Hrange
    by (apply lookup_lt_Some in Hrec; unfold len; lia).
  rewrite range_test_true by exact Hrange.
  erewrite bind_ok
    by (apply on_business_layer_result;
        rewrite (display_record_at _ (n - 1) record) by (lia || exact Hrec);
        cbn [this world]; rewrite Hfmt; reflexivity).
  erewrite bind_ok by (apply input_read; reflexivity).
  apply String.eqb_eq in Hyes. rewrite Hyes.
  erewrite bind_ok
    by (apply (create_record_reads_seven_lines_aux _ a1 a2 a3 a4 a5 a6 a7
                 rest); reflexivity).
  erewrite on_business_layer_result
    by (rewrite edit_record_run; cbn [this world business_layer records];
        rewrite range_test_true by exact Hrange; reflexivity).
  unfold with_business_records. cbn [this world business_layer full_name
    filename records formatter].
  f_equal. f_equal. same_world.
Qed.

Lemma choice_4_edits_witness :
  let s :=
    sample_session [sample_record; other_record]
      ["4"; "2"; "YES"; "a"; "b"; "c"; "d"; "1990"; "June"; "7"; "7"] in
  exists line,
    format_record (formatter (business_layer (this s))) other_record
    = inr line
    /\ start 2 s
       = start 1
           (mkState
              (with_business_records
                 (<[Z.to_nat (2 - 1) :=
                      mkRecord (Str "a") (Str "b") (Str "c") (Str "d")
                        (Str "1990") (Str "June") (Str "7")]>
                    (records (business_layer (this s))))
                 (this s))
              (read_and_written ["7"]
                 (menu_events (full_name (this s))
                  ++ [Prompt "Enter record index to select: ";
                      Print line;
                      Prompt "Do you want to edit this record? (yes/no): "]
                  ++ record_prompts
                  ++ [Print "Record edited successfully."])%list
                 (world s))).
Proof.
  eexists. split; [reflexivity |].
  apply (choice_4_edits 1
           (sample_session [sample_record; other_record]
              ["4"; "2"; "YES"; "a"; "b"; "c"; "d"; "1990"; "June"; "7";
               "7"])
           "2" "YES" _ 2 other_record "a" "b" "c" "d" "1990" "June" "7"
           ["7"]).
  - reflexivity.
  - reflexivity.
  - lia.
  - reflexivity.
  - reflexivity.
  - reflexivity.
Defined.

(** ** The script's entry point *)

(** X25. [main] ends on every finite input, whatever the dataset file is:
    with more turns allowed than there are lines waiting on standard input,
    it has returned or raised before the turns run out. *)
Theorem main_ends_on_finite_input (w : World) :
  exists result, main (S (length (stdin w))) w = Some result.
Proof.
  unfold main, BusinessLayer_init.
  pose proof (quiet_load_records
                (mkState (mkBusinessLayer dataset_filename []
                            DefaultRecordFormatter_new) w)) as Hquiet.
  destruct (load_records _) as [[e | []] s] eqn:Hload.
  - eauto.
  - apply start_ends. unfold pending in *. cbn [snd world] in *. lia.
Qed.

Section WhereExceptionsLeave.

Lemma raises_in_never {O A} (P : exn -> World -> Prop) (m : M O A) :
  raises_only (fun _ => False) m -> raises_in P m.
Proof. intros Hm s e s' Hrun. destruct (Hm _ _ _ Hrun). Qed.

Lemma raises_in_bind {O A B} (P : exn -> World -> Prop) (m : M O A)
  (k : A -> M O B) :
  raises_in P m -> (forall a, raises_in P (k a)) -> raises_in P (bind m k).
Proof.
  intros Hm Hk s e s'. unfold bind.
  destruct (m s) as [[e1 | a] s1] eqn:Hms.
  - intros [= <- <-]. exact (Hm _ _ _ Hms).
  - apply Hk.
Qed.

Lemma raises_in_then_ret {O A B} (P : exn -> World -> Prop) (m : M O A)
  (b : B) :
  raises_in P m -> raises_in P (m ;; ret b).
Proof.
  intros Hm. apply raises_in_bind; [exact Hm | intros _ s e s' [=]].
Qed.

Lemma raises_in_on_business_layer {F A} (P : exn -> World -> Prop)
  (m : M (BusinessLayer F) A) :
  raises_in P m -> raises_in P (on_business_layer m).
Proof.
  intros Hm s e s'. unfold on_business_layer.
  destruct (m _) as [r s1] eqn:Hms. intros [= -> <-]. exact (Hm _ _ _ Hms).
Qed.

(** [input] raises only at the end of the input, having written its
    prompt. *)
Lemma input_escapes {O} (prompt : string) :
  raises_in escapes (input prompt : M O string).
Proof.
  intros s e s'. unfold input.
  destruct (stdin (emit (Prompt prompt) (world s))) eqn:Hin;
    [| intros [=]].
  intros [= <- <-]. right. split; [reflexivity |]. split; [exact Hin |].
  exists prompt. cbn. apply last_snoc.
Qed.

(** [int(input(prompt))] at an index prompt: the end of the input, or the
    error of [int] for the line read, right after the prompt. *)
Lemma ask_number_escapes {O A} (prompt : string) (k : Z -> M O A) :
  prompt ∈ index_prompts ->
  (forall n, raises_in escapes (k n)) ->
  raises_in escapes
    (text <- input prompt ;; n <- lift_result (int text) ;; k n).
Proof.
  intros Hprompt Hk s e s'. unfold bind at 1.
  destruct (input prompt s) as [[e1 | text] s1] eqn:Hinput.
  - intros [= <- <-]. exact (input_escapes prompt _ _ _ Hinput).
  - unfold bind, lift_result.
    destruct (int text) as [e2 | n] eqn:Hint; [| apply Hk].
    intros [= <- <-]. left. exists prompt, text.
    split; [exact Hprompt |]. split; [| exact Hint].
    unfold input in Hinput.
    destruct (stdin (emit (Prompt prompt) (world s))); [discriminate |].
    injection Hinput as _ <-. cbn. apply last_snoc.
Qed.

Lemma create_record_escapes {O} :
  raises_in escapes (create_record : M O Record).
Proof.
  unfold create_record.
  repeat (apply raises_in_bind; [apply input_escapes | intros ?]).
  intros s e s' [=].
Qed.

Lemma select_display_edit_record_escapes :
  raises_in escapes
    (select_display_edit_record
     : M (PresentationLayer DefaultRecordFormatter) unit).
Proof.
  unfold select_display_edit_record.
  apply ask_number_escapes;
    [refine (bool_decide_unpack _ _); vm_compute; exact I | intros n].
  apply raises_in_bind; [intros s e s' [=] | intros self].
  destruct ((0 <=? n - 1) && (n - 1 <? len (records (business_layer self)))).
  - apply raises_in_bind; [| intros _].
    { apply raises_in_on_business_layer, raises_in_never,
        display_record_returns. }
    apply raises_in_bind; [apply input_escapes | intros choice].
    destruct (String.eqb (lower choice) "yes"); [| intros s e s' [=]].
    apply raises_in_bind; [apply create_record_escapes | intros record].
    apply raises_in_on_business_layer, raises_in_never, edit_record_returns.
  - intros s e s' [=].
Qed.

Lemma PresentationLayer_delete_record_escapes {F} :
  raises_in escapes
    (PresentationLayer_delete_record : M (PresentationLayer F) unit).
Proof.
  unfold PresentationLayer_delete_record.
  apply ask_number_escapes;
    [refine (bool_decide_unpack _ _); vm_compute; exact I | intros n].
  apply raises_in_on_business_layer, raises_in_never, delete_record_returns.
Qed.

Lemma start_turn_escapes :
  raises_in escapes
    (start_turn : M (PresentationLayer DefaultRecordFormatter) control).
Proof.
  unfold start_turn.
  apply raises_in_bind; [intros s e s' [=] | intros self].
  apply raises_in_bind; [intros s e s' [=] | intros _].
  apply raises_in_bind.
  { apply raises_in_never. unfold display_menu.
    repeat (apply raises_only_bind; [apply raises_only_print | intros _]).
    apply raises_only_print. }
  intros _.
  apply raises_in_bind; [apply input_escapes | intros choice].
  repeat match goal with
         | |- raises_in _ (if ?b then _ else _) => destruct b
         end.
  - apply raises_in_then_ret.
    apply raises_in_on_business_layer, raises_in_never, load_records_returns.
  - apply raises_in_then_ret.
    apply raises_in_on_business_layer, raises_in_never,
      display_records_returns.
  - apply raises_in_bind; [apply create_record_escapes | intros record].
    apply raises_in_then_ret.
    apply raises_in_on_business_layer, raises_in_never, add_record_returns.
  - apply raises_in_then_ret, select_display_edit_record_escapes.
  - apply raises_in_then_ret, PresentationLayer_delete_record_escapes.
  - apply raises_in_then_ret.
    apply raises_in_on_business_layer, raises_in_never,
      generate_bar_chart_returns.
  - intros s e s' [=].
  - apply raises_in_then_ret. intros s e s' [=].
Qed.

Lemma start_escapes (fuel : nat)
  (s : State (PresentationLayer DefaultRecordFormatter)) (e : exn)
  (s' : State (PresentationLayer DefaultRecordFormatter)) :
  start fuel s = Some (inl e, s') -> escapes e (world s').
Proof.
  revert s. induction fuel as [| fuel IH]; intros s; [discriminate |].
  cbn [start]. destruct (start_turn s) as [[e1 | [|]] s1] eqn:Hturn.
  - intros [= <- <-]. exact (start_turn_escapes _ _ _ Hturn).
  - apply IH.
  - discriminate.
Qed.

End WhereExceptionsLeave.

(** X26. An exception leaves [main] in two ways only.  Either it is what
    [int] raises for a text, a [ValueError], and the last thing written is
    the index prompt of menu entry 4 or 5; or it is [EOFError], no line is
    left to read, and the last thing written is a prompt.  Loading the
    dataset never raises, whatever the file is, and every other bad input is
    reported while the loop goes on. *)
Theorem main_raises_bad_number_or_end (fuel : nat) (w : World) (e : exn)
  (s' : State (PresentationLayer DefaultRecordFormatter)) :
  main fuel w = Some (inl e, s') ->
  bad_number_at_index_prompt e (world s')
  \/ end_of_input_at_prompt e (world s').
Proof.
  unfold main, BusinessLayer_init.
  destruct (load_records _) as [[e0 | []] s] eqn:Hload.
  - now apply (load_records_returns (fun _ => False)) in Hload.
  - apply start_escapes.
Qed.

Lemma main_raises_bad_number_or_end_witness :
  exists e s',
    main 2 (world_with_input ["5"; "abc"]) = Some (inl e, s')
    /\ (bad_number_at_index_prompt e (world s')
        \/ end_of_input_at_prompt e (world s')).
Proof.
  eexists _, _. split; [vm_compute; reflexivity |].
  eapply (main_raises_bad_number_or_end 2 (world_with_input ["5"; "abc"])).
  vm_compute. reflexivity.
Defined.
